(** * bank_statement_extractor.py: field normaliser, text parser, table
      extractor and flag engine, embedded and verified.

    Strings are lists of 8-bit characters read as the code points 0..255;
    the character classes below are the ones Python's [str] methods and
    the [re] module use on that range.  An amount is the binary64 value
    that [float] returns for a digit string: the decimal rounded to the
    nearest representable value, ties to even, or infinity beyond the
    range; a finite value is written as the rational it equals.  The text
    that [account_type] is searched in is a list of Unicode code points,
    since [re.I] reaches beyond 0..255 there. *)

From Stdlib Require Import List Ascii Bool Arith NArith ZArith QArith Lia.
From Stdlib Require String.
Import ListNotations.
Import String.StringSyntax.
Local Close Scope Q_scope.
Local Open Scope char_scope.
Local Open Scope list_scope.
Local Open Scope nat_scope.

(* ================================================================== *)
(** * Python values: strings, exceptions                               *)
(* ================================================================== *)

Definition str := list ascii.

(** String literals of the source are written [L "text"]. *)
Definition L (s : String.string) : str := String.list_ascii_of_string s.
Delimit Scope string_scope with string.
Arguments L s%_string.

Inductive exn : Type :=
| ValueError
| IndexError
| OtherError.

(** A Python call either returns or raises. *)
Inductive result (A : Type) : Type :=
| Ok (a : A)
| Raise (e : exn).
Arguments Ok {A} a.
Arguments Raise {A} e.

Definition bind {A B} (m : result A) (k : A -> result B) : result B :=
  match m with
  | Ok a => k a
  | Raise e => Raise e
  end.

Notation "x <- m ;; k" := (bind m (fun x => k))
  (at level 61, m at next level, right associativity).

(** [try: return m  except: return dflt]. *)
Definition try_except {A} (m : result A) (dflt : A) : A :=
  match m with
  | Ok a => a
  | Raise _ => dflt
  end.

Fixpoint mapM {A B} (f : A -> result B) (l : list A) : result (list B) :=
  match l with
  | [] => Ok []
  | a :: l' => b <- f a ;; bs <- mapM f l' ;; Ok (b :: bs)
  end.

(* ------------------------------------------------------------------ *)
(** ** Character classes on code points 0..255                          *)
(* ------------------------------------------------------------------ *)

Definition code (c : ascii) : N := N_of_ascii c.

Definition code_in (lo hi : N) (c : ascii) : bool :=
  ((lo <=? code c) && (code c <=? hi))%N.

(** [\d] and [str.isdecimal]: the ten ASCII digits. *)
Definition is_digit (c : ascii) : bool := code_in 48 57 c.

(** [\s], and the characters [str.strip()] removes: TAB LF VT FF CR,
    FS GS RS US, SPACE, NEL (0x85) and NBSP (0xA0). *)
Definition is_space (c : ascii) : bool :=
  code_in 9 13 c || code_in 28 32 c || (code c =? 133)%N || (code c =? 160)%N.

(** [\w]: alphanumeric code points and the underscore.  Above 0x7F the
    alphanumerics are the Latin-1 letters, the superscript digits and the
    vulgar fractions. *)
Definition is_word (c : ascii) : bool :=
  is_digit c || code_in 65 90 c || code_in 97 122 c || (code c =? 95)%N
  || (code c =? 170)%N || (code c =? 181)%N || (code c =? 186)%N
  || code_in 178 179 c || (code c =? 185)%N || code_in 188 190 c
  || code_in 192 214 c || code_in 216 246 c || code_in 248 255 c.

(** Case folding used by [re.I] when the pattern letter is ASCII: only
    [A-Z] fold onto [a-z] within 0..255. *)
Definition lower (c : ascii) : ascii :=
  if code_in 65 90 c then ascii_of_N (code c + 32) else c.

Definition ci_eqb (c p : ascii) : bool := Ascii.eqb (lower c) (lower p).

(* ------------------------------------------------------------------ *)
(** ** String methods                                                   *)
(* ------------------------------------------------------------------ *)

Fixpoint drop_while (p : ascii -> bool) (s : str) : str :=
  match s with
  | [] => []
  | c :: s' => if p c then drop_while p s' else s
  end.

Fixpoint take_while (p : ascii -> bool) (s : str) : str :=
  match s with
  | [] => []
  | c :: s' => if p c then c :: take_while p s' else []
  end.

Definition lstrip (s : str) : str := drop_while is_space s.
Definition rstrip (s : str) : str := rev (drop_while is_space (rev s)).
Definition strip (s : str) : str := rstrip (lstrip s).

(** [s.replace(c, '')] for a one-character [c]. *)
Definition remove1 (a : ascii) (s : str) : str :=
  filter (fun c => negb (Ascii.eqb c a)) s.

(** [s.replace(ab, '')] for a two-character [ab]: occurrences are found
    left to right and do not overlap. *)
Fixpoint remove2 (a b : ascii) (s : str) : str :=
  match s with
  | x :: ((y :: s') as t) =>
      if Ascii.eqb x a && Ascii.eqb y b then remove2 a b s'
      else x :: remove2 a b t
  | _ => s
  end.

(** [sep.join(parts)]. *)
Fixpoint join (sep : str) (parts : list str) : str :=
  match parts with
  | [] => []
  | [p] => p
  | p :: ps => p ++ sep ++ join sep ps
  end.

(* ================================================================== *)
(** * Field normaliser                                                 *)
(* ================================================================== *)

Definition digit_val (c : ascii) : N := (code c - 48)%N.

(** Value of a string of decimal digits, most significant first. *)
Definition digits_val (s : str) : N :=
  fold_left (fun acc c => (10 * acc + digit_val c)%N) s 0%N.

Definition is_dot (c : ascii) : bool := Ascii.eqb c ".".

(** A Python [float]: a finite binary64 value, written as the rational
    it equals, an infinity or NaN. *)
Inductive pyfloat : Type :=
| Finite (q : Q)
| PosInf
| NegInf
| NotNum.

Local Open Scope Z_scope.

(** [n / d] rounded to the nearest integer, ties to the even one
    ([n >= 0], [d > 0]). *)
Definition round_half_even (n d : Z) : Z :=
  let k := n / d in
  match (2 * (n mod d) ?= d) with
  | Lt => k
  | Gt => k + 1
  | Eq => if Z.even k then k else k + 1
  end.

(** [2^e <= n / d], for positive [n] and [d]. *)
Definition at_least_pow2 (n d e : Z) : bool :=
  if 0 <=? e then d * 2 ^ e <=? n else d <=? n * 2 ^ (- e).

(** The binary exponent of [n / d]: the [e] with
    [2^e <= n / d < 2^(e+1)]. *)
Definition binary_exponent (n d : Z) : Z :=
  let e0 := Z.log2 n - Z.log2 d in
  if at_least_pow2 n d e0 then e0 else e0 - 1.

(** The binary64 value nearest to [n / d] (positive [n] and [d]), ties to
    even: 53 significant bits, steps of [2^-1074] below [2^-1022], and
    [None] for infinity when the rounded value reaches [2^1024]. *)
Definition round_magnitude (n d : Z) : option Q :=
  let e := binary_exponent n d in
  let p := Z.max e (-1022) - 52 in
  if 0 <=? p then
    let v := round_half_even n (d * 2 ^ p) * 2 ^ p in
    if 2 ^ 1024 <=? v then None else Some (inject_Z v)
  else
    Some (Qred (Qmake (round_half_even (n * 2 ^ (- p)) d)
                      (Z.to_pos (2 ^ (- p))))).

(** The correctly rounded conversion of a rational to binary64. *)
Definition round64 (q : Q) : pyfloat :=
  let n := Qnum q in
  let d := Zpos (Qden q) in
  if n =? 0 then Finite 0
  else if 0 <? n then
    match round_magnitude n d with
    | Some v => Finite v
    | None => PosInf
    end
  else
    match round_magnitude (- n) d with
    | Some v => Finite (- v)
    | None => NegInf
    end.

Local Close Scope Z_scope.

(** [float(s)] on the alphabet that reaches it from [clean_amount]
    (digits and dots): the accepted forms are [ddd], [ddd.], [.ddd] and
    [ddd.ddd]; anything else raises [ValueError].  The value is the
    decimal correctly rounded to binary64, as CPython's [float] does it,
    and infinity, not an exception, when it is out of range. *)
Definition py_float (s : str) : result pyfloat :=
  let ip := take_while is_digit s in
  let tl := drop_while is_digit s in
  match tl with
  | [] => if Nat.eqb (length ip) 0 then Raise ValueError
          else Ok (round64 (inject_Z (Z.of_N (digits_val ip))))
  | c :: fp =>
      if is_dot c && forallb is_digit fp
         && negb (Nat.eqb (length ip + length fp) 0)
      then Ok (round64 (Qmake (Z.of_N (digits_val (ip ++ fp)))
                              (Z.to_pos (10 ^ Z.of_nat (length fp)))))
      else Raise ValueError
  end.

(** [re.sub(r'[^\d\.]', '', s)]. *)
Definition keep_amount_chars (s : str) : str :=
  filter (fun c => is_digit c || is_dot c) s.

(** [clean_amount], lines 33-44.  The argument is [None] or a string. *)
Definition clean_amount (s : option str) : result (option pyfloat) :=
  match s with
  | None => Ok None
  | Some s =>
      let s := strip (remove1 "-" (remove2 "D" "R" (remove2 "C" "r" s))) in
      let s := remove1 "," s in
      let s := keep_amount_chars s in
      match s with
      | [] => Ok None
      | _ => Ok (try_except (v <- py_float s ;; Ok (Some v)) None)
      end
  end.

(* ================================================================== *)
(** * The regular expressions of the source                            *)
(* ================================================================== *)

Definition opt_word (c : option ascii) : bool :=
  match c with
  | Some c => is_word c
  | None => false
  end.

(** [\b] code_in the character before the position and the one after:
    exactly one side is a word character (the ends of the string count as
    non-word). *)
Definition boundary (prev next : option ascii) : bool :=
  xorb (opt_word prev) (opt_word next).

Definition last_char (s : str) : option ascii := hd_error (rev s).

(* ------------------------------------------------------------------ *)
(** ** [AMOUNT_RE = (\d{1,3}(?:,\d{3})*(?:\.\d+)?)], line 31            *)
(* ------------------------------------------------------------------ *)

(** [\d{1,k}], greedy: the longest run of at most [k] digits. *)
Fixpoint take_digits (k : nat) (s : str) : str :=
  match k, s with
  | S k', c :: s' => if is_digit c then c :: take_digits k' s' else []
  | _, _ => []
  end.

(** [(?:,\d{3})*], greedy. *)
Fixpoint thousands (s : str) : str :=
  match s with
  | c :: d1 :: d2 :: d3 :: s' =>
      if Ascii.eqb c "," && is_digit d1 && is_digit d2 && is_digit d3
      then c :: d1 :: d2 :: d3 :: thousands s'
      else []
  | _ => []
  end.

(** [(?:\.\d+)?], greedy. *)
Definition fraction (s : str) : str :=
  match s with
  | c :: d :: s' =>
      if is_dot c && is_digit d then c :: d :: take_while is_digit s' else []
  | _ => []
  end.

(** The token [AMOUNT_RE] matches at the start of [s], if any.  Every part
    after the first digit is optional and nothing follows the pattern, so
    the greedy choice is the match: no backtracking occurs. *)
Definition amount_at (s : str) : option str :=
  match take_digits 3 s with
  | [] => None
  | a =>
      let s1 := skipn (length a) s in
      let b := thousands s1 in
      let c := fraction (skipn (length b) s1) in
      Some (a ++ b ++ c)
  end.

(** [AMOUNT_RE.findall]: scan left to right; after a match the scan resumes
    at its end.  [skip] counts the characters of the last match that are
    still to be passed over. *)
Fixpoint findall_from (skip : nat) (s : str) : list str :=
  match s with
  | [] => []
  | _ :: s' =>
      match skip with
      | S k => findall_from k s'
      | O =>
          match amount_at s with
          | Some tok => tok :: findall_from (length tok - 1) s'
          | None => findall_from 0 s'
          end
      end
  end.

Definition findall (s : str) : list str := findall_from 0 s.

(* ------------------------------------------------------------------ *)
(** ** The date patterns, lines 116 and 173                             *)
(* ------------------------------------------------------------------ *)

(** [[/-]]. *)
Definition is_sep (c : ascii) : bool := Ascii.eqb c "/" || Ascii.eqb c "-".

(** One attempt of [\d{2,4}\b] with exactly [n] digits. *)
Definition try_year (n : nat) (s : str) : option (str * str) :=
  let y := firstn n s in
  let rest := skipn n s in
  if Nat.eqb (length y) n && forallb is_digit y
     && boundary (last_char y) (hd_error rest)
  then Some (y, rest) else None.

(** [\d{2,4}\b]: the greedy repeat backtracks from four digits to two. *)
Definition year_boundary (s : str) : option (str * str) :=
  match try_year 4 s with
  | Some r => Some r
  | None =>
      match try_year 3 s with
      | Some r => Some r
      | None => try_year 2 s
      end
  end.

(** [date_rx.match(line)] with
    [date_rx = ^\s*(\d{2}[/-]\d{2}[/-]\d{2,4})\b]: returns [m.group(1)] and
    [line[m.end():]].  [\s*] takes all leading white space; giving some
    back cannot help because a digit must follow. *)
Definition date_rx_match (line : str) : option (str * str) :=
  match lstrip line with
  | d1 :: d2 :: s1 :: m1 :: m2 :: s2 :: tl =>
      if is_digit d1 && is_digit d2 && is_sep s1
         && is_digit m1 && is_digit m2 && is_sep s2
      then match year_boundary tl with
           | Some (y, rest) => Some ([d1; d2; s1; m1; m2; s2] ++ y, rest)
           | None => None
           end
      else None
  | _ => None
  end.

(** [date_pattern = \d{2}[-/]\d{2}[-/]\d{2,4}] tried at the start of [s]:
    returns [m.group(0)]. *)
Definition date_at (s : str) : option str :=
  match s with
  | d1 :: d2 :: s1 :: m1 :: m2 :: s2 :: tl =>
      if is_digit d1 && is_digit d2 && is_sep s1
         && is_digit m1 && is_digit m2 && is_sep s2
         && (2 <=? length (take_digits 4 tl))%nat
      then Some ([d1; d2; s1; m1; m2; s2] ++ take_digits 4 tl)
      else None
  | _ => None
  end.

(** [date_pattern.search(s)]: the leftmost match. *)
Fixpoint date_search (s : str) : option str :=
  match date_at s with
  | Some d => Some d
  | None =>
      match s with
      | [] => None
      | _ :: s' => date_search s'
      end
  end.

(* ------------------------------------------------------------------ *)
(** ** The flag patterns, lines 216, 220 and 224 (all with [re.I])      *)
(* ------------------------------------------------------------------ *)

(** A literal matched case-insensitively at the start of [s]: the text
    matched and the remainder. *)
Fixpoint ci_prefix (w s : str) : option (str * str) :=
  match w with
  | [] => Some ([], s)
  | p :: w' =>
      match s with
      | [] => None
      | c :: s' =>
          if ci_eqb c p then
            match ci_prefix w' s' with
            | Some (m, r) => Some (c :: m, r)
            | None => None
            end
          else None
      end
  end.

(** The character before the position reached after matching [m], given
    the character [prev] before the match. *)
Definition char_before (prev : option ascii) (m : str) : option ascii :=
  match last_char m with
  | Some c => Some c
  | None => prev
  end.

(** [\b(w1|...|wn)\b] tried at one position; [prev] is the character
    before it.  The alternatives are tried in order and the closing [\b]
    can reject one and let a later one through. *)
Definition words_at (ws : list str) (prev : option ascii) (s : str) : bool :=
  boundary prev (hd_error s)
  && existsb (fun w =>
                match ci_prefix w s with
                | Some (m, r) => boundary (char_before prev m) (hd_error r)
                | None => false
                end) ws.

(** A literal, case-insensitive, no boundaries. *)
Definition literal_at (w : str) (prev : option ascii) (s : str) : bool :=
  match ci_prefix w s with
  | Some _ => true
  | None => false
  end.

(** [bool(re.search(...))]: some position matches, the end of the string
    included. *)
Fixpoint search_from (at_pos : option ascii -> str -> bool)
    (prev : option ascii) (s : str) : bool :=
  at_pos prev s ||
  match s with
  | [] => false
  | c :: s' => search_from at_pos (Some c) s'
  end.

Definition re_search (at_pos : option ascii -> str -> bool) (s : str) : bool :=
  search_from at_pos None s.

Definition DD_RE : option ascii -> str -> bool := words_at [L "DD"].
Definition RTGS_RE : option ascii -> str -> bool := literal_at (L "RTGS").
Definition entity_words : list str :=
  [L "guddu"; L "prabhat"; L "arif"; L "coal india"].
Definition ENTITY_RE : option ascii -> str -> bool := words_at entity_words.

(* ================================================================== *)
(** * Heuristic text parser, lines 168-200                             *)
(* ================================================================== *)

(** The dictionary built for one transaction (lines 150 and 194). *)
Record raw_record : Type := {
  transaction_date : str;
  description : str;
  withdrawal_amount : option pyfloat;
  deposit_amount : option pyfloat;
  balance : option pyfloat
}.

Definition set_description (r : raw_record) (d : str) : raw_record :=
  {| transaction_date := transaction_date r;
     description := d;
     withdrawal_amount := withdrawal_amount r;
     deposit_amount := deposit_amount r;
     balance := balance r |}.

(** [l[-k]] for [k >= 1]; out of range raises [IndexError]. *)
Definition neg_index {A} (l : list A) (k : nat) : result A :=
  if (k <=? length l)%nat then
    match nth_error l (length l - k) with
    | Some a => Ok a
    | None => Raise IndexError
    end
  else Raise IndexError.

Definition clean_nth_last (nums : list str) (k : nat)
  : result (option pyfloat) :=
  t <- neg_index nums k ;; clean_amount (Some t).

(** Lines 186-193: the tokens of the line mapped onto the three amounts
    [(w, d, b)]. *)
Definition map_amounts (nums : list str)
  : result (option pyfloat * option pyfloat * option pyfloat) :=
  if (3 <=? length nums)%nat then
    w <- clean_nth_last nums 3 ;;
    d <- clean_nth_last nums 2 ;;
    b <- clean_nth_last nums 1 ;;
    Ok (w, d, b)
  else if (length nums =? 2)%nat then
    d <- clean_nth_last nums 2 ;;
    b <- clean_nth_last nums 1 ;;
    Ok (None, d, b)
  else if (length nums =? 1)%nat then
    b <- clean_nth_last nums 1 ;;
    Ok (None, None, b)
  else Ok (None, None, None).

(** State of the loop of line 176: [records] and [current]. *)
Definition pstate : Type := (list raw_record * option raw_record)%type.

(** [if current: records.append(current)]. *)
Definition flush (st : pstate) : list raw_record :=
  match snd st with
  | Some c => fst st ++ [c]
  | None => fst st
  end.

(** One iteration of the loop, lines 177-198. *)
Definition step (st : pstate) (line : str) : result pstate :=
  let line := rstrip line in
  match date_rx_match line with
  | Some (date_str, rest) =>
      let after := strip rest in
      amts <- map_amounts (findall line) ;;
      let '(w, d, b) := amts in
      Ok (flush st,
          Some {| transaction_date := date_str;
                  description := after;
                  withdrawal_amount := w;
                  deposit_amount := d;
                  balance := b |})
  | None =>
      match snd st with
      | Some c =>
          Ok (fst st,
              Some (set_description c (description c ++ L " " ++ strip line)))
      | None => Ok st
      end
  end.

Fixpoint run (st : pstate) (lines : list str) : result pstate :=
  match lines with
  | [] => Ok st
  | l :: ls => st' <- step st l ;; run st' ls
  end.

(** Lines 174-200: the records in [records] once the loop has ended and
    the open record has been appended. *)
Definition parse_text (lines : list str) : result (list raw_record) :=
  st <- run ([], None) lines ;; Ok (flush st).

(* ================================================================== *)
(** * Structured table extractor and orchestration, lines 112-209      *)
(* ================================================================== *)

(** [l[lo:hi]] for non-negative bounds. *)
Definition slice {A} (lo hi : nat) (l : list A) : list A :=
  firstn (hi - lo) (skipn lo l).

Section Extraction.

(** A cell of a table is a string or some other Python object; [str()]
    of such an object is whatever its class defines and may raise. *)
Variable obj : Type.
Variable py_str : obj -> result str.

Inductive cell : Type :=
| CStr (s : str)
| CObj (o : obj).

(** [t.df]: [ncols] is [df.shape[1]]; every row has [ncols] cells. *)
Record table : Type := {
  ncols : nat;
  rows : list (list cell)
}.

(** [str(x)]. *)
Definition cell_str (c : cell) : result str :=
  match c with
  | CStr s => Ok s
  | CObj o => py_str o
  end.

(** Line 125: [x.strip() if isinstance(x, str) else x]. *)
Definition strip_cell (c : cell) : cell :=
  match c with
  | CStr s => CStr (strip s)
  | CObj o => CObj o
  end.

(** [row.iloc[i]]. *)
Definition cell_at (row : list cell) (i : nat) : result cell :=
  match nth_error row i with
  | Some c => Ok c
  | None => Raise IndexError
  end.

(** [clean_amount(x) if x else None]. *)
Definition amount_cell (x : str) : result (option pyfloat) :=
  match x with
  | [] => Ok None
  | _ => clean_amount (Some x)
  end.

(** Lines 120-121: the number of cells of the first column in which the
    date pattern is found. *)
Definition hits (t : table) : result nat :=
  if (ncols t =? 0)%nat then Raise IndexError
  else
    col <- mapM (fun r => c <- cell_at r 0 ;; cell_str c) (rows t) ;;
    Ok (length (filter (fun v => match date_search v with
                                 | Some _ => true
                                 | None => false
                                 end) col)).

(** Lines 128-156: one row of the selected table; [None] is the
    [continue] of line 131. *)
Definition process_row (n : nat) (row : list cell)
  : result (option raw_record) :=
  c0 <- cell_at row 0 ;;
  first <- cell_str c0 ;;
  match date_search first with
  | None => Ok None
  | Some date =>
      if (4 <=? n)%nat then
        let desc_cols :=
          if (4 <? n)%nat then slice 1 (n - 3) row else slice 1 (n - 2) row in
        parts <- mapM cell_str desc_cols ;;
        let desc := strip (join (L " ") parts) in
        tail <- mapM cell_str (skipn (n - 3) row) ;;
        w <- match tail with
             | t0 :: _ => amount_cell t0
             | [] => Ok None
             end ;;
        d <- match tail with
             | _ :: t1 :: _ => amount_cell t1
             | _ => Ok None
             end ;;
        b <- (t <- neg_index tail 1 ;; amount_cell t) ;;
        Ok (Some {| transaction_date := date;
                    description := desc;
                    withdrawal_amount := w;
                    deposit_amount := d;
                    balance := b |})
      else
        parts <- mapM cell_str (skipn 1 row) ;;
        let rest := join (L " ") parts in
        let nums := findall rest in
        amts <- (if (3 <=? length nums)%nat then
                   w <- clean_nth_last nums 3 ;;
                   d <- clean_nth_last nums 2 ;;
                   b <- clean_nth_last nums 1 ;;
                   Ok (w, d, b)
                 else Ok (None, None, None)) ;;
        let '(w, d, b) := amts in
        Ok (Some {| transaction_date := date;
                    description := rest;
                    withdrawal_amount := w;
                    deposit_amount := d;
                    balance := b |})
  end.

(** Lines 126-156: the loop over the rows, appending to [records]. *)
Fixpoint process_rows (n : nat) (rs : list (list cell))
  : result (list raw_record) :=
  match rs with
  | [] => Ok []
  | r :: rs' =>
      x <- process_row n r ;;
      xs <- process_rows n rs' ;;
      Ok (match x with
          | Some rec => rec :: xs
          | None => xs
          end)
  end.

(** Lines 117-164 without the final normalisation: the records of the
    first table that has at least two date hits and yields records. *)
Fixpoint scan_tables (ts : list table) : result (option (list raw_record)) :=
  match ts with
  | [] => Ok None
  | t :: ts' =>
      h <- hits t ;;
      if (2 <=? h)%nat then
        recs <- process_rows (ncols t) (map (map strip_cell) (rows t)) ;;
        match recs with
        | [] => scan_tables ts'
        | _ => Ok (Some recs)
        end
      else scan_tables ts'
  end.

(** The pandas side of both strategies: [pd.DataFrame(records)] followed
    by [pd.to_datetime] on the date column, [pd.to_numeric] on the three
    amount columns and the column selection (lines 158-164, 205-209). *)
Variable frame : Type.
Variable to_frame : list raw_record -> result frame.
(** [pd.DataFrame([])], returned as it is at line 203. *)
Variable empty_frame : frame.

(** Lines 168-209: the fallback strategy on the lines of the text. *)
Definition text_strategy (lines : list str) : result frame :=
  recs <- parse_text lines ;;
  match recs with
  | [] => Ok empty_frame
  | _ => to_frame recs
  end.

(** Lines 112-166: what the [try] block returns, if it returns. *)
Definition table_strategy (read_pdf : result (list table))
  : result (option frame) :=
  ts <- read_pdf ;;
  found <- scan_tables ts ;;
  match found with
  | Some recs => f <- to_frame recs ;; Ok (Some f)
  | None => Ok None
  end.

(** [extract_transactions]: [has_camelot] is [HAS_CAMELOT], [read_pdf] the
    outcome of [camelot.read_pdf] and [lines] the lines of the text that
    pdfplumber extracts. *)
Definition extract_transactions (has_camelot : bool)
    (read_pdf : result (list table)) (lines : list str) : result frame :=
  if has_camelot then
    match table_strategy read_pdf with
    | Ok (Some f) => Ok f
    | Ok None => text_strategy lines
    | Raise _ => text_strategy lines
    end
  else text_strategy lines.

End Extraction.

Arguments CStr {obj} s.
Arguments CObj {obj} o.
Arguments ncols {obj} t.
Arguments rows {obj} t.

(* ================================================================== *)
(** * Flag engine, lines 212-226                                       *)
(* ================================================================== *)

(** A floating-point value: [pd.to_numeric] turns a missing amount into
    NaN. *)
Inductive f64 : Type :=
| NaN
| Num (q : Q).

(** [x or 0] for an amount cell [x], which is [None] or a float: [None]
    and zero are falsy, NaN is truthy. *)
Definition or_zero (x : option f64) : f64 :=
  match x with
  | None => Num 0
  | Some NaN => NaN
  | Some (Num q) => if Qeq_bool q 0 then Num 0 else Num q
  end.

(** [x > k]; every comparison with NaN is false. *)
Definition gt (x : f64) (k : Q) : bool :=
  match x with
  | NaN => false
  | Num q => negb (Qle_bool q k)
  end.

Record tx_row : Type := {
  row_description : str;
  row_withdrawal : option f64;
  row_deposit : option f64
}.

Record flags : Type := {
  flag_DD_large_withdrawal : bool;
  flag_RTGS_large_deposit : bool;
  flag_entities : bool
}.

Definition flag_row (r : tx_row) : flags :=
  {| flag_DD_large_withdrawal :=
       gt (or_zero (row_withdrawal r)) 10000
       && re_search DD_RE (row_description r);
     flag_RTGS_large_deposit :=
       gt (or_zero (row_deposit r)) 50000
       && re_search RTGS_RE (row_description r);
     flag_entities := re_search ENTITY_RE (row_description r) |}.

Definition flag_transactions (df : list tx_row) : list (tx_row * flags) :=
  map (fun r => (r, flag_row r)) df.

(* ================================================================== *)
(** * [parse_date_try], lines 46-57                                    *)
(* ================================================================== *)

(** [datetime.date]. *)
Record date : Type := {
  year : N;
  month : N;
  day : N
}.

Local Open Scope N_scope.

Definition is_leap (y : N) : bool :=
  (y mod 4 =? 0) && negb (y mod 100 =? 0) || (y mod 400 =? 0).

Definition days_in_month (y m : N) : N :=
  match m with
  | 1 | 3 | 5 | 7 | 8 | 10 | 12 => 31
  | 4 | 6 | 9 | 11 => 30
  | 2 => if is_leap y then 29 else 28
  | _ => 0
  end.

(** The range check of the [datetime] constructor. *)
Definition valid_date (y m d : N) : bool :=
  (1 <=? y) && (y <=? 9999) && (1 <=? m) && (m <=? 12)
  && (1 <=? d) && (d <=? days_in_month y m).

(** [int] of a two-digit group. *)
Definition num2 (a b : ascii) : N := 10 * digit_val a + digit_val b.

(** The directives that occur in the five formats of line 48. *)
Inductive directive : Type :=
| Dd            (* %d *)
| Dm            (* %m *)
| DY            (* %Y *)
| Dy            (* %y *)
| Lit (c : ascii).

(** The regular expression [strptime] compiles for a directive, as the
    list of its ways to match at the start of [s], in the order the
    matcher tries them: the value read and the remainder.

    [%d] is [3[0-1]|[1-2]\d|0[1-9]|[1-9]| [1-9]]. *)
Definition re_d (s : str) : list (N * str) :=
  match s with
  | a :: b :: r =>
      (if Ascii.eqb a "3" && code_in 48 49 b then [(num2 a b, r)] else [])
      ++ (if code_in 49 50 a && is_digit b then [(num2 a b, r)] else [])
      ++ (if Ascii.eqb a "0" && code_in 49 57 b then [(num2 a b, r)] else [])
      ++ (if code_in 49 57 a then [(digit_val a, b :: r)] else [])
      ++ (if Ascii.eqb a " " && code_in 49 57 b then [(digit_val b, r)] else [])
  | [a] => if code_in 49 57 a then [(digit_val a, [])] else []
  | [] => []
  end.

(** [%m] is [1[0-2]|0[1-9]|[1-9]]. *)
Definition re_m (s : str) : list (N * str) :=
  match s with
  | a :: b :: r =>
      (if Ascii.eqb a "1" && code_in 48 50 b then [(num2 a b, r)] else [])
      ++ (if Ascii.eqb a "0" && code_in 49 57 b then [(num2 a b, r)] else [])
      ++ (if code_in 49 57 a then [(digit_val a, b :: r)] else [])
  | [a] => if code_in 49 57 a then [(digit_val a, [])] else []
  | [] => []
  end.

(** [%Y] is [\d\d\d\d]. *)
Definition re_Y (s : str) : list (N * str) :=
  match s with
  | a :: b :: c :: d :: r =>
      if is_digit a && is_digit b && is_digit c && is_digit d
      then [(100 * num2 a b + num2 c d, r)] else []
  | _ => []
  end.

(** [%y] is [\d\d]; values up to 68 are in the 2000s, the others in the
    1900s. *)
Definition re_y (s : str) : list (N * str) :=
  match s with
  | a :: b :: r =>
      if is_digit a && is_digit b
      then [((if num2 a b <=? 68 then 2000 else 1900) + num2 a b, r)]
      else []
  | _ => []
  end.

(** The first alternative on which the rest of the pattern succeeds. *)
Fixpoint first_some {A B} (f : A -> option B) (l : list A) : option B :=
  match l with
  | [] => None
  | a :: l' =>
      match f a with
      | Some b => Some b
      | None => first_some f l'
      end
  end.

Definition with_year (d : date) (v : N) : date :=
  {| year := v; month := month d; day := day d |}.
Definition with_month (d : date) (v : N) : date :=
  {| year := year d; month := v; day := day d |}.
Definition with_day (d : date) (v : N) : date :=
  {| year := year d; month := month d; day := v |}.

(** [format_regex.match(data_string)]: the fields read and the text left
    over. *)
Fixpoint match_fmt (fmt : list directive) (acc : date) (s : str)
  : option (date * str) :=
  match fmt with
  | [] => Some (acc, s)
  | Dd :: fmt' =>
      first_some (fun vr => match_fmt fmt' (with_day acc (fst vr)) (snd vr))
                 (re_d s)
  | Dm :: fmt' =>
      first_some (fun vr => match_fmt fmt' (with_month acc (fst vr)) (snd vr))
                 (re_m s)
  | DY :: fmt' =>
      first_some (fun vr => match_fmt fmt' (with_year acc (fst vr)) (snd vr))
                 (re_Y s)
  | Dy :: fmt' =>
      first_some (fun vr => match_fmt fmt' (with_year acc (fst vr)) (snd vr))
                 (re_y s)
  | Lit c :: fmt' =>
      match s with
      | x :: r => if Ascii.eqb x c then match_fmt fmt' acc r else None
      | [] => None
      end
  end.

(** [datetime.strptime(s, fmt).date()]: [ValueError] when the text does
    not match, when text is left over, or when the fields are not a
    calendar date.  Fields a format does not set default to 1900-01-01. *)
Definition strptime (s : str) (fmt : list directive) : result date :=
  match match_fmt fmt {| year := 1900; month := 1; day := 1 |} s with
  | None => Raise ValueError
  | Some (_, _ :: _) => Raise ValueError
  | Some (d, []) =>
      if valid_date (year d) (month d) (day d) then Ok d
      else Raise ValueError
  end.

Local Close Scope N_scope.

Definition fmt_dmY_dash : list directive := [Dd; Lit "-"; Dm; Lit "-"; DY].
Definition fmt_dmY_slash : list directive := [Dd; Lit "/"; Dm; Lit "/"; DY].
Definition fmt_dmy_dash : list directive := [Dd; Lit "-"; Dm; Lit "-"; Dy].
Definition fmt_dmy_slash : list directive := [Dd; Lit "/"; Dm; Lit "/"; Dy].
Definition fmt_Ymd_dash : list directive := [DY; Lit "-"; Dm; Lit "-"; Dd].

(** The tuple of line 48, in its order. *)
Definition formats : list (list directive) :=
  [fmt_dmY_dash; fmt_dmY_slash; fmt_dmy_dash; fmt_dmy_slash; fmt_Ymd_dash].

(** The loop of lines 48-52: the first format that parses wins. *)
Fixpoint try_formats (fmts : list (list directive)) (s : str) : option date :=
  match fmts with
  | [] => None
  | f :: fs =>
      match strptime (strip s) f with
      | Ok d => Some d
      | Raise _ => try_formats fs s
      end
  end.

(** [parse_date_try].  [pd_fallback s] stands for
    [pd.to_datetime(s, dayfirst=True, errors='coerce').date()]: a date,
    the null [NaT] (written [None]) or an exception.  A null result of
    the function, whether [NaT] or [None], is written [None]. *)
Definition parse_date_try (pd_fallback : str -> result (option date))
    (s : str) : result (option date) :=
  match try_formats formats s with
  | Some d => Ok (Some d)
  | None => Ok (try_except (pd_fallback s) None)
  end.

(* ================================================================== *)
(** * Notions the properties are stated with                           *)
(* ================================================================== *)

(** The shape the anchor pattern captures: two digits, a separator, two
    digits, a separator, and a year of two to four digits. *)
Definition date_shaped (d : str) : bool :=
  match d with
  | d1 :: d2 :: s1 :: m1 :: m2 :: s2 :: y =>
      is_digit d1 && is_digit d2 && is_sep s1
      && is_digit m1 && is_digit m2 && is_sep s2
      && (2 <=? length y) && (length y <=? 4) && forallb is_digit y
  | _ => false
  end.

(** A description grown by continuation lines (line 198). *)
Definition append_lines (d : str) (conts : list str) : str :=
  fold_left (fun acc c => acc ++ L " " ++ strip c) conts d.

(** [r] was opened by an anchor line of [lines]: that line, stripped on
    the right, is white space, the date text of [r] and a remainder, and
    the description of [r] is the stripped remainder followed by
    continuation lines. *)
Definition from_anchor (lines : list str) (r : raw_record) : Prop :=
  exists line ws rest conts,
    In line lines
    /\ rstrip line = ws ++ transaction_date r ++ rest
    /\ forallb is_space ws = true
    /\ description r = append_lines (strip rest) conts.

(** The invariant of the loop of line 176. *)
Definition dated (all : list str) (r : raw_record) : Prop :=
  date_shaped (transaction_date r) = true /\ from_anchor all r.

Definition all_dated (all : list str) (st : pstate) : Prop :=
  Forall (dated all) (fst st) /\ (forall c, snd st = Some c -> dated all c).

(** [m] is [w] up to the case of its letters. *)
Definition ci_equal (m w : str) : Prop :=
  Forall2 (fun c p => ci_eqb c p = true) m w.

(** The description [s] contains [w] as a whole word, case-insensitively:
    an occurrence that has no word character right before it and none
    right after it. *)
Definition whole_word_match (w s : str) : Prop :=
  exists pre m post,
    s = pre ++ m ++ post
    /\ ci_equal m w
    /\ opt_word (last_char pre) = false
    /\ opt_word (hd_error post) = false.

(** A search word that starts and ends with a word character. *)
Definition wordy (w : str) : bool :=
  opt_word (hd_error w) && opt_word (last_char w).

(** The amount cleaner as a function of the text of a cell. *)
Definition amount_of (s : str) : option pyfloat :=
  match py_float (keep_amount_chars s) with
  | Ok q => Some q
  | Raise _ => None
  end.

(** The columns strictly code_in column 0 and the last three, for a row
    of [n] cells. *)
Definition middle_cells {A} (n : nat) (row : list A) : list A :=
  slice 1 (n - 3) row.

(** The character of a decimal digit. *)
Definition digit_char (n : N) : ascii := ascii_of_N (48 + n).

Definition two_digits (n : N) : str :=
  [digit_char (n / 10); digit_char (n mod 10)].

Definition four_digits (n : N) : str :=
  two_digits (n / 100) ++ two_digits (n mod 100).

(** A date rendered in a format, every field zero-padded to its width:
    two digits for the day, the month and the year within the century,
    four digits for the year with century. *)
Definition render_directive (d : date) (x : directive) : str :=
  match x with
  | Dd => two_digits (day d)
  | Dm => two_digits (month d)
  | DY => four_digits (year d)
  | Dy => two_digits (year d mod 100)
  | Lit c => [c]
  end.

Definition render (fmt : list directive) (d : date) : str :=
  concat (map (render_directive d) fmt).

Definition is_Dy (x : directive) : bool :=
  match x with
  | Dy => true
  | _ => false
  end.

(** The dates a format can express: calendar dates of the years 1 to
    9999, and for a format with a two-digit year those of the hundred
    years that two digits stand for, 1969 to 2068. *)
Definition expressible (fmt : list directive) (d : date) : bool :=
  valid_date (year d) (month d) (day d)
  && (if existsb is_Dy fmt
      then (1969 <=? year d)%N && (year d <=? 2068)%N
      else true).

(** An alternative of a field pattern that stops one digit short of [r]. *)
Definition digit_led (r : str) (vr : N * str) : Prop :=
  exists c, snd vr = c :: r /\ is_digit c = true.

(** The number of dots in a string. *)
Definition dots (s : str) : nat := length (filter is_dot s).

(** The date texts of the anchor lines of a text, in order. *)
Definition anchor_dates (lines : list str) : list str :=
  flat_map (fun l => match date_rx_match (rstrip l) with
                     | Some (d, _) => [d]
                     | None => []
                     end) lines.

(** A line the anchor pattern does not match. *)
Definition not_anchor (line : str) : Prop :=
  date_rx_match (rstrip line) = None.

(** A record in which withdrawal, deposit and balance are all set. *)
Definition has_all_amounts (r : raw_record) : Prop :=
  withdrawal_amount r <> None
  /\ deposit_amount r <> None
  /\ balance r <> None.

(** The same for the state of the loop of line 176. *)
Definition all_have_amounts (st : pstate) : Prop :=
  Forall has_all_amounts (fst st)
  /\ (forall c, snd st = Some c -> has_all_amounts c).

(** The dates found in the first cells of the rows of a table of strings,
    in order. *)
Definition row_dates (srows : list (list str)) : list str :=
  flat_map (fun r => match r with
                     | first :: _ =>
                         match date_search first with
                         | Some d => [d]
                         | None => []
                         end
                     | [] => []
                     end) srows.

(** The description [s] contains [w] somewhere, case-insensitively. *)
Definition ci_substring (w s : str) : Prop :=
  exists pre m post, s = pre ++ m ++ post /\ ci_equal m w.

(** Two texts that differ at most in the case of their letters [A-Z]. *)
Definition same_up_to_case (s t : str) : Prop :=
  Forall2 (fun a b => lower a = lower b) s t.

(** Day, month and year are in the ranges the field patterns accept, and
    a two-digit year format stays within the hundred years it stands
    for, but the month has no such day. *)
Definition nonexistent_day (fmt : list directive) (d : date) : bool :=
  ((1 <=? year d) && (year d <=? 9999)
   && (1 <=? month d) && (month d <=? 12)
   && (1 <=? day d) && (day d <=? 31)
   && negb (valid_date (year d) (month d) (day d))
   && (if existsb is_Dy fmt
       then (1969 <=? year d) && (year d <=? 2068)
       else true))%N.

(* ================================================================== *)
(** * Account information, lines 60-103 (two of its fields)            *)
(* ================================================================== *)

(** The text of the pages is a Python [str] with characters of any kind:
    a list of Unicode code points. *)
Definition ustr : Type := list N.

(** An 8-bit text as code points. *)
Definition U (s : str) : ustr := map code s.

Definition upper (c : ascii) : ascii :=
  if code_in 97 122 c then ascii_of_N (code c - 32) else c.

(** The characters that the character [p] of an ASCII pattern matches
    under [re.I]: its two cases and, besides, U+0130 and U+0131 for [i],
    U+017F for [s] and U+212A for [k]. *)
Definition variants (p : ascii) : list N :=
  code (lower p) :: code (upper p)
  :: (if Ascii.eqb (lower p) "i" then [304; 305]
      else if Ascii.eqb (lower p) "s" then [383]
      else if Ascii.eqb (lower p) "k" then [8490]
      else [])%N.

Definition ci_match (p : ascii) (c : N) : bool :=
  existsb (N.eqb c) (variants p).

(** A literal matched with [re.I] at the start of [s]: the text matched
    and the remainder. *)
Fixpoint ci_prefix_wide (w : str) (s : ustr) : option (ustr * ustr) :=
  match w with
  | [] => Some ([], s)
  | p :: w' =>
      match s with
      | [] => None
      | c :: s' =>
          if ci_match p c then
            match ci_prefix_wide w' s' with
            | Some (m, r) => Some (c :: m, r)
            | None => None
            end
          else None
      end
  end.

Definition last_code (s : ustr) : option N := hd_error (rev s).

Definition code_before (prev : option N) (m : ustr) : option N :=
  match last_code m with
  | Some c => Some c
  | None => prev
  end.

(** [re.search]: the group of the leftmost match. *)
Fixpoint search_group (at_pos : option N -> ustr -> option ustr)
    (prev : option N) (s : ustr) : option ustr :=
  match at_pos prev s with
  | Some m => Some m
  | None =>
      match s with
      | [] => None
      | c :: s' => search_group at_pos (Some c) s'
      end
  end.

Definition in_range (lo hi c : N) : bool := ((lo <=? c) && (c <=? hi))%N.

(** [str.title()] on a match of the pattern of line 93, which holds ASCII
    letters, U+0130, U+0131 and U+017F and nothing else: a character that
    follows a cased one is lowered, any other one is title-cased.  The
    lower case of U+0130 is [i] followed by U+0307; the title case of
    U+0131 is [I] and that of U+017F is [S]. *)
Definition is_cased (c : N) : bool :=
  in_range 65 90 c || in_range 97 122 c
  || (c =? 304)%N || (c =? 305)%N || (c =? 383)%N.

Definition to_lower (c : N) : ustr :=
  (if in_range 65 90 c then [c + 32]
   else if (c =? 304)%N then [105; 775]
   else [c])%N.

Definition to_title (c : N) : ustr :=
  (if in_range 97 122 c then [c - 32]
   else if (c =? 305)%N then [73]
   else if (c =? 383)%N then [83]
   else [c])%N.

Fixpoint title_from (prev_cased : bool) (s : ustr) : ustr :=
  match s with
  | [] => []
  | c :: s' =>
      (if prev_cased then to_lower c else to_title c)
      ++ title_from (is_cased c) s'
  end.

Definition title (s : ustr) : ustr := title_from false s.

Definition account_type_words : list str := [L "Savings"; L "Current"].

Section AccountType.

(** [\w] on a code point: within 0..255 as above; U+0130, U+0131, U+017F
    and U+212A are letters; for the rest it is the Unicode database's,
    left open. *)
Variable wide_word : N -> bool.

Definition word_code (c : N) : bool :=
  (if c <? 256 then is_word (ascii_of_N c)
   else (c =? 304) || (c =? 305) || (c =? 383) || (c =? 8490)
        || wide_word c)%N.

Definition opt_word_code (c : option N) : bool :=
  match c with
  | Some c => word_code c
  | None => false
  end.

Definition boundary_wide (prev next : option N) : bool :=
  xorb (opt_word_code prev) (opt_word_code next).

(** [\b(w1|...|wn)\b] tried at one position, with [re.I]: what
    [m.group(1)] is when the pattern matches there. *)
Definition words_group (ws : list str) (prev : option N) (s : ustr)
  : option ustr :=
  if boundary_wide prev (hd_error s) then
    first_some (fun w =>
                  match ci_prefix_wide w s with
                  | Some (m, r) =>
                      if boundary_wide (code_before prev m) (hd_error r)
                      then Some m else None
                  | None => None
                  end) ws
  else None.

(** Lines 93-94: [account_type]. *)
Definition account_type (text : ustr) : option ustr :=
  option_map title (search_group (words_group account_type_words) None text).

(** [m] is what the word [w] matches under [re.I]. *)
Definition ci_equal_wide (m : ustr) (w : str) : Prop :=
  Forall2 (fun c p => ci_match p c = true) m w.

(** The text [s] contains [w] as a whole word under [re.I]: an
    occurrence with no word character right before it and none right
    after it. *)
Definition whole_word_match_wide (w : str) (s : ustr) : Prop :=
  exists pre m post,
    s = pre ++ m ++ post
    /\ ci_equal_wide m w
    /\ opt_word_code (last_code pre) = false
    /\ opt_word_code (hd_error post) = false.

End AccountType.

(** The values of [account_type] other than null: [Current], and
    [Savings] with [i], [i] followed by U+0307 or U+0131 in fourth place
    and [s] or U+017F at the end. *)
Definition account_type_range : list ustr :=
  [ U (L "Savings"); U (L "Current");
    [83; 97; 118; 105; 775; 110; 103; 115];
    [83; 97; 118; 305; 110; 103; 115];
    [83; 97; 118; 105; 110; 103; 383];
    [83; 97; 118; 105; 775; 110; 103; 383];
    [83; 97; 118; 305; 110; 103; 383] ]%N.

(** The characters outside ASCII that the pattern of line 93 matches. *)
Definition dotted_or_long (c : N) : bool :=
  ((c =? 304) || (c =? 305) || (c =? 383))%N.

Fixpoint ustr_eqb (a b : ustr) : bool :=
  match a, b with
  | [], [] => true
  | x :: a', y :: b' => (x =? y)%N && ustr_eqb a' b'
  | _, _ => false
  end.

(** Every way of picking one element from each list, in order. *)
Fixpoint product (ls : list (list N)) : list ustr :=
  match ls with
  | [] => [[]]
  | l :: ls' => flat_map (fun c => map (cons c) (product ls')) l
  end.

(** The line boundaries of [str.splitlines] within 0..255: LF, VT, FF,
    CR, FS, GS, RS and NEL. *)
Definition is_linebreak (c : ascii) : bool :=
  code_in 10 13 c || code_in 28 30 c || (code c =? 133)%N.

(** [str.splitlines()]; [cur] holds the characters of the current line,
    last first.  CR LF is one boundary; a boundary at the very end opens
    no further line. *)
Fixpoint splitlines_from (cur : str) (s : str) : list str :=
  match s with
  | [] =>
      match cur with
      | [] => []
      | _ => [rev cur]
      end
  | c :: s' =>
      if is_linebreak c then
        rev cur ::
        match s' with
        | c' :: s'' =>
            if Ascii.eqb c "013" && Ascii.eqb c' "010"
            then splitlines_from [] s''
            else splitlines_from [] s'
        | [] => splitlines_from [] s'
        end
      else splitlines_from (c :: cur) s'
  end.

Definition splitlines (s : str) : list str := splitlines_from [] s.

(** Lines 86-88: [bank_name] from the text of the first page. *)
Definition bank_name (first_page : str) : option str :=
  match splitlines first_page with
  | [] => None
  | l :: _ => Some (strip l)
  end.

(* ================================================================== *)
(** * [main], lines 289-292: extraction followed by flagging           *)
(* ================================================================== *)

(** The frame handed to [flag_transactions], seen through the columns it
    reads: [pd.DataFrame([])] has no columns at all; otherwise there is
    one row per record. *)
Inductive tx_frame : Type :=
| NoColumns
| Rows (rs : list tx_row).

(** Lines 206-207: [to_numeric] stands for what [pd.to_numeric] makes of
    an amount cell of the frame; it is pandas' and is left open. *)
Definition normalised_row (to_numeric : option pyfloat -> option f64)
    (r : raw_record) : tx_row :=
  {| row_description := description r;
     row_withdrawal := to_numeric (withdrawal_amount r);
     row_deposit := to_numeric (deposit_amount r) |}.

Definition frame_of_records (to_numeric : option pyfloat -> option f64)
    (recs : list raw_record) : result tx_frame :=
  Ok (Rows (map (normalised_row to_numeric) recs)).

(** [flag_transactions] on a frame: [df['description']] at line 214
    raises [KeyError] (written [OtherError]) when the frame has no such
    column. *)
Definition flag_frame (df : tx_frame) : result (list (tx_row * flags)) :=
  match df with
  | NoColumns => Raise OtherError
  | Rows rs => Ok (flag_transactions rs)
  end.

(** Lines 289-292 of [main]: [tx = extract_transactions(...)] then
    [flag_transactions(tx)]; nothing in between catches an exception. *)
Definition main_flags (obj : Type) (py_str : obj -> result str)
    (to_numeric : option pyfloat -> option f64)
    (has_camelot : bool) (read_pdf : result (list (table obj)))
    (lines : list str) : result (list (tx_row * flags)) :=
  tx <- extract_transactions obj py_str tx_frame
          (frame_of_records to_numeric) NoColumns
          has_camelot read_pdf lines ;;
  flag_frame tx.

(** A float that is neither negative nor NaN: a finite value that is at
    least 0, or +infinity. *)
Definition non_negative (x : pyfloat) : Prop :=
  match x with
  | Finite q => (0 <= q)%Q
  | PosInf => True
  | NegInf | NotNum => False
  end.

(** A day or month written without a leading zero. *)
Definition plain (n : N) : str :=
  if (n <? 10)%N then [digit_char n] else two_digits n.

(** A date rendered in a format with day and month not padded; the year
    fields are as in [render]. *)
Definition render_plain_directive (d : date) (x : directive) : str :=
  match x with
  | Dd => plain (day d)
  | Dm => plain (month d)
  | DY => four_digits (year d)
  | Dy => two_digits (year d mod 100)
  | Lit c => [c]
  end.

Definition render_plain (fmt : list directive) (d : date) : str :=
  concat (map (render_plain_directive d) fmt).

(* ================================================================== *)
(** * Properties                                                       *)
(* ================================================================== *)

(** ** Characters and strings *)

Ltac each_char c :=
  destruct c as [[] [] [] [] [] [] [] []]; try reflexivity; try discriminate.

Lemma digit_not_space (c : ascii) : is_digit c = true -> is_space c = false.
Proof. each_char c. Qed.

Lemma digit_is_word (c : ascii) : is_digit c = true -> is_word c = true.
Proof. each_char c. Qed.

Lemma sep_not_digit (c : ascii) : is_sep c = true -> is_digit c = false.
Proof. each_char c. Qed.

Lemma space_not_amount_char (c : ascii) :
  is_space c = true -> is_digit c || is_dot c = false.
Proof. each_char c. Qed.

Lemma filter_drop_while (p q : ascii -> bool) (s : str) :
  (forall c, q c = true -> p c = false) ->
  filter p (drop_while q s) = filter p s.
Proof.
  intros Hpq. induction s as [|c s IH]; simpl; [reflexivity|].
  destruct (q c) eqn:Hq; [|reflexivity].
  rewrite (Hpq c Hq). exact IH.
Qed.

Lemma filter_rev_str (p : ascii -> bool) (s : str) :
  filter p (rev s) = rev (filter p s).
Proof.
  induction s as [|c s IH]; simpl; [reflexivity|].
  rewrite filter_app, IH. simpl. destruct (p c); simpl.
  - reflexivity.
  - now rewrite app_nil_r.
Qed.

Lemma filter_strip (p : ascii -> bool) (s : str) :
  (forall c, is_space c = true -> p c = false) ->
  filter p (strip s) = filter p s.
Proof.
  intros Hp. unfold strip, rstrip, lstrip.
  rewrite filter_rev_str, (filter_drop_while p is_space _ Hp).
  rewrite filter_rev_str, rev_involutive.
  now apply filter_drop_while.
Qed.

Lemma filter_remove1 (p : ascii -> bool) (a : ascii) (s : str) :
  p a = false -> filter p (remove1 a s) = filter p s.
Proof.
  intros Hp. unfold remove1.
  induction s as [|c s IH]; simpl; [reflexivity|].
  destruct (Ascii.eqb c a) eqn:E; simpl.
  - apply Ascii.eqb_eq in E. subst c. now rewrite Hp.
  - now rewrite IH.
Qed.

Lemma filter_remove2 (p : ascii -> bool) (a b : ascii) (s : str) :
  p a = false -> p b = false -> filter p (remove2 a b s) = filter p s.
Proof.
  intros Ha Hb.
  assert (H : forall n (t : str), length t <= n ->
              filter p (remove2 a b t) = filter p t).
  { induction n as [|n IH]; intros t Hn.
    - destruct t; [reflexivity | simpl in Hn; lia].
    - destruct t as [|x [|y t']]; try reflexivity.
      cbn [remove2].
      destruct (Ascii.eqb x a && Ascii.eqb y b) eqn:E.
      + apply andb_true_iff in E. destruct E as [E1 E2].
        apply Ascii.eqb_eq in E1. apply Ascii.eqb_eq in E2. subst x y.
        cbn [filter]. rewrite Ha, Hb. apply IH. simpl in Hn. lia.
      + change (filter p (x :: remove2 a b (y :: t')) = filter p (x :: y :: t')).
        cbn [filter]. rewrite (IH (y :: t')) by (simpl in *; lia).
        reflexivity. }
  now apply (H (length s)).
Qed.

(** ** Field normaliser *)

(** The staged removals of line 36-38 leave exactly the digits and dots of
    the input, in order. *)
Lemma clean_amount_filtered (s : str) :
  clean_amount (Some s) =
  Ok (match py_float (keep_amount_chars s) with
      | Ok q => Some q
      | Raise _ => None
      end).
Proof.
  unfold clean_amount.
  assert (E : keep_amount_chars
                (remove1 ","
                   (strip (remove1 "-" (remove2 "D" "R" (remove2 "C" "r" s)))))
              = keep_amount_chars s).
  { unfold keep_amount_chars.
    rewrite filter_remove1 by reflexivity.
    rewrite filter_strip by apply space_not_amount_char.
    rewrite filter_remove1 by reflexivity.
    rewrite !filter_remove2 by reflexivity.
    reflexivity. }
  rewrite E.
  destruct (keep_amount_chars s) as [|c t] eqn:K; [reflexivity|].
  destruct (py_float (c :: t)); reflexivity.
Qed.

(** *** Rounding to binary64 *)

Lemma round_half_even_nonneg (n d : Z) :
  (0 <= n)%Z -> (0 < d)%Z -> (0 <= round_half_even n d)%Z.
Proof.
  intros Hn Hd. unfold round_half_even.
  pose proof (Z.div_pos n d Hn Hd) as K.
  destruct (2 * (n mod d) ?= d)%Z; [destruct (Z.even (n / d))|..]; lia.
Qed.

Lemma round_magnitude_nonneg (n d : Z) (v : Q) :
  (0 < n)%Z -> (0 < d)%Z -> round_magnitude n d = Some v -> (0 <= v)%Q.
Proof.
  intros Hn Hd. unfold round_magnitude.
  set (p := (Z.max (binary_exponent n d) (-1022) - 52)%Z).
  destruct (0 <=? p)%Z eqn:P.
  - apply Z.leb_le in P.
    assert (T : (0 < 2 ^ p)%Z) by (apply Z.pow_pos_nonneg; lia).
    pose proof (round_half_even_nonneg n (d * 2 ^ p)) as R.
    destruct (2 ^ 1024 <=? round_half_even n (d * 2 ^ p) * 2 ^ p)%Z;
      [discriminate|].
    intros [= <-]. unfold Qle. cbn [Qnum Qden inject_Z]. nia.
  - set (x := Qmake (round_half_even (n * 2 ^ (- p)) d)
                     (Z.to_pos (2 ^ (- p)))).
    intros E. assert (V : v = Qred x) by congruence. subst v.
    pose proof (round_half_even_nonneg (n * 2 ^ (- p)) d) as R.
    assert (T : (0 <= 2 ^ (- p))%Z) by (apply Z.pow_nonneg; lia).
    apply Qle_trans with x;
      [| apply Qle_lteq; right; apply Qeq_sym, Qred_correct].
    unfold Qle, x. cbn [Qnum Qden]. nia.
Qed.

Lemma round64_non_negative (q : Q) :
  (0 <= Qnum q)%Z -> non_negative (round64 q).
Proof.
  intros H. unfold round64.
  destruct (Qnum q =? 0)%Z eqn:E0; [apply Qle_refl|].
  destruct (0 <? Qnum q)%Z eqn:E1.
  - apply Z.ltb_lt in E1.
    destruct (round_magnitude (Qnum q) (Z.pos (Qden q))) as [v|] eqn:M;
      [|exact I].
    exact (round_magnitude_nonneg _ _ _ E1 (Pos2Z.is_pos _) M).
  - apply Z.eqb_neq in E0. apply Z.ltb_ge in E1. lia.
Qed.

Lemma py_float_non_negative (s : str) (x : pyfloat) :
  py_float s = Ok x -> non_negative x.
Proof.
  unfold py_float.
  destruct (drop_while is_digit s) as [|c fp].
  - destruct (length (take_while is_digit s) =? 0); [discriminate|].
    intros [= <-]. apply round64_non_negative. cbn [Qnum inject_Z]. lia.
  - destruct (is_dot c && forallb is_digit fp
              && negb (length (take_while is_digit s) + length fp =? 0));
      [|discriminate].
    intros [= <-]. apply round64_non_negative. cbn [Qnum]. lia.
Qed.

Lemma round_half_even_upper (n d : Z) :
  (round_half_even n d <= n / d + 1)%Z.
Proof.
  unfold round_half_even.
  destruct (2 * (n mod d) ?= d)%Z; [destruct (Z.even (n / d))|..]; lia.
Qed.

Lemma binary_exponent_upper (n d : Z) :
  (0 < n)%Z -> (0 < d)%Z -> (n < d * 2 ^ 1023)%Z ->
  (binary_exponent n d <= 1022)%Z.
Proof.
  intros Hn Hd H. unfold binary_exponent.
  destruct (Z.log2_spec n Hn) as [A1 A2].
  destruct (Z.log2_spec d Hd) as [B1 B2].
  pose proof (Z.log2_nonneg n) as An. pose proof (Z.log2_nonneg d) as Bn.
  set (a := Z.log2 n) in *. set (b := Z.log2 d) in *.
  assert (E : (a - b <= 1023)%Z).
  { assert (L : (2 ^ a < 2 ^ (b + 1024))%Z).
    { replace (b + 1024)%Z with (Z.succ b + 1023)%Z by lia.
      rewrite Z.pow_add_r by lia.
      assert (T : (0 < 2 ^ 1023)%Z) by (apply Z.pow_pos_nonneg; lia).
      nia. }
    apply Z.pow_lt_mono_r_iff in L; lia. }
  destruct (at_least_pow2 n d (a - b)) eqn:T; [|lia].
  unfold at_least_pow2 in T.
  destruct (Z.eq_dec (a - b) 1023) as [K|K]; [|lia].
  rewrite K in T. change (0 <=? 1023)%Z with true in T. cbv iota in T.
  apply Z.leb_le in T. lia.
Qed.

Lemma round_magnitude_finite (n d : Z) :
  (0 < n)%Z -> (0 < d)%Z -> (n < d * 2 ^ 1023)%Z ->
  round_magnitude n d <> None.
Proof.
  intros Hn Hd H. unfold round_magnitude.
  pose proof (binary_exponent_upper n d Hn Hd H) as E.
  set (p := (Z.max (binary_exponent n d) (-1022) - 52)%Z).
  assert (P : (p <= 970)%Z) by (unfold p; lia).
  destruct (0 <=? p)%Z eqn:P0; [|discriminate].
  apply Z.leb_le in P0.
  assert (T : (0 < 2 ^ p)%Z) by (apply Z.pow_pos_nonneg; lia).
  assert (T' : (0 < 2 ^ (1023 - p))%Z) by (apply Z.pow_pos_nonneg; lia).
  assert (S : (2 ^ 1023 = 2 ^ (1023 - p) * 2 ^ p)%Z).
  { rewrite <- Z.pow_add_r by lia. f_equal. lia. }
  assert (D : (n / (d * 2 ^ p) < 2 ^ (1023 - p))%Z).
  { apply Z.div_lt_upper_bound; [nia|]. rewrite S in H. nia. }
  pose proof (round_half_even_upper n (d * 2 ^ p)) as R.
  assert (V : (round_half_even n (d * 2 ^ p) * 2 ^ p <= 2 ^ 1023)%Z).
  { rewrite S. apply Z.mul_le_mono_nonneg_r; lia. }
  assert (W : (2 ^ 1023 < 2 ^ 1024)%Z) by (apply Z.pow_lt_mono_r; lia).
  destruct (2 ^ 1024 <=? round_half_even n (d * 2 ^ p) * 2 ^ p)%Z eqn:C;
    [|discriminate].
  apply Z.leb_le in C. lia.
Qed.

Lemma round64_finite (q : Q) :
  (0 <= Qnum q)%Z -> (Qnum q < Z.pos (Qden q) * 2 ^ 1023)%Z ->
  round64 q <> PosInf.
Proof.
  intros H0 H. unfold round64.
  destruct (Qnum q =? 0)%Z eqn:E0; [discriminate|].
  destruct (0 <? Qnum q)%Z eqn:E1.
  - apply Z.ltb_lt in E1.
    pose proof (round_magnitude_finite _ _ E1 (Pos2Z.is_pos (Qden q)) H) as M.
    destruct (round_magnitude (Qnum q) (Z.pos (Qden q))); [discriminate|].
    now elim M.
  - apply Z.eqb_neq in E0. apply Z.ltb_ge in E1. lia.
Qed.

Lemma digits_val_from (s : str) (acc : N) :
  forallb is_digit s = true ->
  (fold_left (fun a c => 10 * a + digit_val c) s acc
   < (acc + 1) * 10 ^ N.of_nat (length s))%N.
Proof.
  revert acc. induction s as [|c s IH]; intros acc H.
  - cbn. lia.
  - cbn [forallb] in H. apply andb_true_iff in H. destruct H as [Hc Hs].
    cbn [fold_left length]. specialize (IH (10 * acc + digit_val c)%N Hs).
    rewrite Nat2N.inj_succ, N.pow_succ_r'.
    assert (D : (digit_val c <= 9)%N).
    { clear - Hc. revert Hc. each_char c. }
    nia.
Qed.

Lemma digits_val_lt (s : str) :
  forallb is_digit s = true -> (digits_val s < 10 ^ N.of_nat (length s))%N.
Proof.
  intros H. pose proof (digits_val_from s 0 H) as K.
  unfold digits_val. lia.
Qed.
Lemma take_while_forallb (p : ascii -> bool) (s : str) :
  forallb p (take_while p s) = true.
Proof.
  induction s as [|c s IH]; [reflexivity|].
  cbn [take_while]. destruct (p c) eqn:E; [|reflexivity].
  cbn [forallb]. now rewrite E, IH.
Qed.

Lemma digits_val_Z (s : str) :
  forallb is_digit s = true ->
  (0 <= Z.of_N (digits_val s) < 10 ^ Z.of_nat (length s))%Z.
Proof.
  intros H. pose proof (digits_val_lt s H) as K.
  split; [lia|].
  apply N2Z.inj_lt in K. rewrite N2Z.inj_pow, nat_N_Z in K. exact K.
Qed.

Lemma pow10_307 (k : nat) : k <= 307 -> (10 ^ Z.of_nat k < 2 ^ 1023)%Z.
Proof.
  intros H. apply Z.le_lt_trans with (10 ^ 307)%Z.
  - apply Z.pow_le_mono_r; lia.
  - vm_compute. reflexivity.
Qed.

Lemma py_float_finite (s : str) :
  length (take_while is_digit s) <= 307 -> py_float s <> Ok PosInf.
Proof.
  intros L. unfold py_float.
  pose proof (take_while_forallb is_digit s) as I.
  set (ip := take_while is_digit s) in *.
  pose proof (pow10_307 (length ip) L) as B.
  destruct (drop_while is_digit s) as [|c fp].
  - destruct (length ip =? 0); [discriminate|].
    intros [= E]. revert E. apply round64_finite; cbn [Qnum Qden inject_Z].
    + lia.
    + pose proof (digits_val_Z ip I). lia.
  - destruct (is_dot c && forallb is_digit fp
              && negb (length ip + length fp =? 0)) eqn:C; [|discriminate].
    apply andb_true_iff in C. destruct C as [C _].
    apply andb_true_iff in C. destruct C as [_ F].
    intros [= E]. revert E. apply round64_finite; cbn [Qnum Qden].
    + lia.
    + assert (A : forallb is_digit (ip ++ fp) = true)
        by (rewrite forallb_app, I, F; reflexivity).
      pose proof (digits_val_Z (ip ++ fp) A) as K.
      rewrite length_app, Nat2Z.inj_add, Z.pow_add_r in K by lia.
      assert (T : (0 < 10 ^ Z.of_nat (length fp))%Z)
        by (apply Z.pow_pos_nonneg; lia).
      rewrite Z2Pos.id by exact T.
      assert (T2 : (0 < 10 ^ Z.of_nat (length ip))%Z)
        by (apply Z.pow_pos_nonneg; lia).
      nia.
Qed.

(** C3, as the code has it.  [clean_amount] is total on strings: it
    returns, never raises, and what it returns is null or a float that is
    neither negative nor NaN: a finite value that is at least 0, or
    +infinity, which is what [float] gives for a decimal beyond the
    binary64 range and which needs more than 307 digits before the dot.
    The result is null exactly when [float] rejects the digits and dots
    of the input, which covers the input that has none. *)
Theorem clean_amount_total (s : str) :
  exists r : option pyfloat,
    clean_amount (Some s) = Ok r
    /\ (forall x, r = Some x ->
          x = PosInf \/ exists q, x = Finite q /\ (0 <= q)%Q)
    /\ (length (take_while is_digit (keep_amount_chars s)) <= 307 ->
        r <> Some PosInf)
    /\ (r = None <-> exists e, py_float (keep_amount_chars s) = Raise e)
    /\ (keep_amount_chars s = [] -> r = None).
Proof.
  rewrite clean_amount_filtered.
  destruct (py_float (keep_amount_chars s)) as [x|e] eqn:F.
  - exists (Some x). split; [reflexivity|]. split; [|split; [|split]].
    + intros x' [= <-]. pose proof (py_float_non_negative _ _ F) as H.
      destruct x as [q| | |]; cbn in H; try contradiction.
      * right. now exists q.
      * now left.
    + intros K [= ->]. exact (py_float_finite _ K F).
    + split; [discriminate | intros [e' He']; discriminate].
    + intros K. rewrite K in F. discriminate.
  - exists None. split; [reflexivity|]. split; [|split; [|split]].
    + discriminate.
    + discriminate.
    + split; [intros _; now exists e | reflexivity].
    + reflexivity.
Qed.

(** C3 as stated fails: on a run of 400 nines the result is neither null
    nor a decimal that is not negative; it is +infinity. *)
Lemma clean_amount_overflow :
  clean_amount (Some (repeat "9"%char 400)) = Ok (Some PosInf)
  /\ ~ (exists r : option pyfloat,
          clean_amount (Some (repeat "9"%char 400)) = Ok r
          /\ (r = None \/ exists q : Q, r = Some (Finite q) /\ (0 <= q)%Q)).
Proof.
  assert (E : clean_amount (Some (repeat "9"%char 400)) = Ok (Some PosInf))
    by (vm_compute; reflexivity).
  split; [exact E|].
  intros (r & H & [K|(q & K & _)]); rewrite E in H; congruence.
Qed.

(** C9.  [clean_amount(None)] returns [None]; with C3 the function returns
    on every nullable string. *)
Theorem clean_amount_none :
  clean_amount None = Ok None
  /\ forall s : option str, exists r, clean_amount s = Ok r.
Proof.
  split; [reflexivity|].
  intros [s|].
  - rewrite clean_amount_filtered. eexists. reflexivity.
  - now exists None.
Qed.

(** ** The amount pattern *)

Lemma thousands_no_comma (c : ascii) (s : str) :
  Ascii.eqb c "," = false -> thousands (c :: s) = [].
Proof.
  intros E. destruct s as [|d1 [|d2 [|d3 s]]]; simpl; try reflexivity.
  now rewrite E.
Qed.

Lemma fraction_no_dot (c : ascii) (s : str) :
  is_dot c = false -> fraction (c :: s) = [].
Proof.
  intros E. destruct s as [|d s]; simpl; try reflexivity.
  now rewrite E.
Qed.

Lemma sep_not_comma (c : ascii) : is_sep c = true -> Ascii.eqb c "," = false.
Proof. each_char c. Qed.

Lemma sep_not_dot (c : ascii) : is_sep c = true -> is_dot c = false.
Proof. each_char c. Qed.

(** Two digits followed by a date separator are one token. *)
Lemma amount_at_two_digits (a b c : ascii) (s : str) :
  is_digit a = true -> is_digit b = true -> is_sep c = true ->
  amount_at (a :: b :: c :: s) = Some [a; b].
Proof.
  intros Ha Hb Hc. unfold amount_at. simpl take_digits.
  rewrite Ha, Hb, (sep_not_digit c Hc). cbn [length skipn].
  rewrite (thousands_no_comma c s (sep_not_comma c Hc)). cbn [length skipn].
  now rewrite (fraction_no_dot c s (sep_not_dot c Hc)).
Qed.

Lemma amount_at_non_digit (c : ascii) (s : str) :
  is_digit c = false -> amount_at (c :: s) = None.
Proof. intros E. unfold amount_at. simpl. now rewrite E. Qed.

Lemma amount_at_digit (c : ascii) (s : str) :
  is_digit c = true -> exists tok, amount_at (c :: s) = Some tok.
Proof.
  intros E. unfold amount_at. simpl take_digits. rewrite E.
  eexists. reflexivity.
Qed.

Lemma findall_lstrip (s : str) : findall (lstrip s) = findall s.
Proof.
  unfold findall, lstrip. induction s as [|c s IH]; [reflexivity|].
  simpl drop_while. destruct (is_space c) eqn:E; [|reflexivity].
  rewrite IH. cbn [findall_from].
  rewrite amount_at_non_digit; [reflexivity|].
  destruct (is_digit c) eqn:D; [|reflexivity].
  apply digit_not_space in D. congruence.
Qed.

(** ** The anchor pattern *)

Lemma try_year_spec (n : nat) (s y rest : str) :
  try_year n s = Some (y, rest) ->
  s = y ++ rest /\ length y = n /\ forallb is_digit y = true.
Proof.
  unfold try_year.
  destruct (length (firstn n s) =? n) eqn:E1; [|discriminate].
  destruct (forallb is_digit (firstn n s)) eqn:E2; [|discriminate].
  simpl. destruct (boundary _ _); [|discriminate].
  intros [= <- <-]. apply Nat.eqb_eq in E1.
  now rewrite firstn_skipn.
Qed.

Lemma year_boundary_spec (s y rest : str) :
  year_boundary s = Some (y, rest) ->
  s = y ++ rest /\ 2 <= length y <= 4 /\ forallb is_digit y = true.
Proof.
  unfold year_boundary.
  destruct (try_year 4 s) as [[y4 r4]|] eqn:E4.
  { intros [= <- <-]. apply try_year_spec in E4. intuition lia. }
  destruct (try_year 3 s) as [[y3 r3]|] eqn:E3.
  { intros [= <- <-]. apply try_year_spec in E3. intuition lia. }
  intros E2. apply try_year_spec in E2. intuition lia.
Qed.

Lemma take_drop_while (p : ascii -> bool) (s : str) :
  s = take_while p s ++ drop_while p s
  /\ forallb p (take_while p s) = true.
Proof.
  induction s as [|c s [IH1 IH2]]; simpl; [now split|].
  destruct (p c) eqn:E; simpl.
  - rewrite E. split; [now f_equal | exact IH2].
  - now split.
Qed.

(** What a successful anchor match returns: the line is white space, then
    the date text, then the remainder. *)
Lemma date_rx_match_spec (line d rest : str) :
  date_rx_match line = Some (d, rest) ->
  date_shaped d = true
  /\ exists ws, line = ws ++ d ++ rest /\ forallb is_space ws = true.
Proof.
  unfold date_rx_match, lstrip.
  destruct (take_drop_while is_space line) as [Hsplit Hws].
  destruct (drop_while is_space line)
    as [|d1 [|d2 [|s1 [|m1 [|m2 [|s2 tl]]]]]]; try discriminate.
  destruct (is_digit d1 && is_digit d2 && is_sep s1
            && is_digit m1 && is_digit m2 && is_sep s2) eqn:C; [|discriminate].
  destruct (year_boundary tl) as [[y r]|] eqn:Y; [|discriminate].
  intros [= <- <-].
  apply year_boundary_spec in Y. destruct Y as (Htl & Hlen & Hdig).
  split.
  - cbn [app date_shaped]. rewrite C, Hdig.
    destruct Hlen as [H2 H4].
    apply Nat.leb_le in H2. apply Nat.leb_le in H4.
    now rewrite H2, H4.
  - exists (take_while is_space line). split; [|exact Hws].
    rewrite Hsplit at 1. f_equal. cbn [app]. now rewrite Htl.
Qed.

(** On an anchor line the date alone already yields three tokens, so the
    branches of lines 189-193 (two tokens, one token) are never taken. *)
Lemma anchor_line_has_three_tokens (line d rest : str) :
  date_rx_match line = Some (d, rest) -> 3 <= length (findall line).
Proof.
  rewrite <- findall_lstrip. unfold date_rx_match.
  destruct (lstrip line)
    as [|d1 [|d2 [|s1 [|m1 [|m2 [|s2 tl]]]]]]; try discriminate.
  destruct (is_digit d1 && is_digit d2 && is_sep s1
            && is_digit m1 && is_digit m2 && is_sep s2) eqn:C; [|discriminate].
  do 5 (apply andb_true_iff in C; destruct C as [C ?]).
  destruct (year_boundary tl) as [[y r]|] eqn:Y; [|discriminate].
  intros _. apply year_boundary_spec in Y. destruct Y as (Htl & Hlen & Hdig).
  destruct y as [|y0 y]; [simpl in Hlen; lia|].
  simpl in Hdig. apply andb_true_iff in Hdig. destruct Hdig as [Hy0 _].
  subst tl. unfold findall. cbn [findall_from app].
  rewrite amount_at_two_digits by assumption. cbn [length Nat.sub findall_from].
  rewrite (amount_at_non_digit s1) by now apply sep_not_digit.
  rewrite amount_at_two_digits by assumption. cbn [length Nat.sub findall_from].
  rewrite (amount_at_non_digit s2) by now apply sep_not_digit.
  destruct (amount_at_digit y0 (y ++ r) Hy0) as [tok ->].
  simpl. lia.
Qed.

(** ** Heuristic text parser *)

Lemma neg_index_ok {A} (l : list A) (k : nat) :
  1 <= k <= length l -> exists a, neg_index l k = Ok a.
Proof.
  intros [H1 H2]. unfold neg_index.
  rewrite (proj2 (Nat.leb_le k (length l)) H2).
  destruct (nth_error l (length l - k)) as [a|] eqn:E; [now exists a|].
  apply nth_error_None in E. lia.
Qed.

Lemma clean_nth_last_ok (nums : list str) (k : nat) :
  1 <= k <= length nums -> exists r, clean_nth_last nums k = Ok r.
Proof.
  intros H. unfold clean_nth_last.
  destruct (neg_index_ok nums k H) as [t ->]. cbn [bind].
  rewrite clean_amount_filtered. eexists. reflexivity.
Qed.

Lemma map_amounts_ok (nums : list str) : exists a, map_amounts nums = Ok a.
Proof.
  unfold map_amounts.
  destruct (3 <=? length nums) eqn:E3.
  { apply Nat.leb_le in E3.
    destruct (clean_nth_last_ok nums 3) as [w ->]; [lia|].
    destruct (clean_nth_last_ok nums 2) as [d ->]; [lia|].
    destruct (clean_nth_last_ok nums 1) as [b ->]; [lia|].
    eexists. reflexivity. }
  destruct (length nums =? 2) eqn:E2.
  { apply Nat.eqb_eq in E2.
    destruct (clean_nth_last_ok nums 2) as [d ->]; [lia|].
    destruct (clean_nth_last_ok nums 1) as [b ->]; [lia|].
    eexists. reflexivity. }
  destruct (length nums =? 1) eqn:E1.
  { apply Nat.eqb_eq in E1.
    destruct (clean_nth_last_ok nums 1) as [b ->]; [lia|].
    eexists. reflexivity. }
  eexists. reflexivity.
Qed.

(** What one iteration does on an anchor line. *)
Lemma step_anchor (st : pstate) (line d rest : str) :
  date_rx_match (rstrip line) = Some (d, rest) ->
  exists w dp b,
    step st line =
    Ok (flush st,
        Some {| transaction_date := d; description := strip rest;
                withdrawal_amount := w; deposit_amount := dp;
                balance := b |}).
Proof.
  intros H. unfold step. rewrite H.
  destruct (map_amounts_ok (findall (rstrip line))) as [[[w dp] b] ->].
  now exists w, dp, b.
Qed.

Lemma step_ok (st : pstate) (line : str) : exists st', step st line = Ok st'.
Proof.
  destruct (date_rx_match (rstrip line)) as [[d rest]|] eqn:E.
  - destruct (step_anchor st line d rest E) as (w & dp & b & ->).
    eexists. reflexivity.
  - unfold step. rewrite E. destruct (snd st); eexists; reflexivity.
Qed.

Lemma run_ok (lines : list str) (st : pstate) :
  exists st', run st lines = Ok st'.
Proof.
  revert st. induction lines as [|l ls IH]; intros st; simpl.
  - now exists st.
  - destruct (step_ok st l) as [st1 ->]. simpl. apply IH.
Qed.

(** The text parser returns on every input. *)
Lemma parse_text_ok (lines : list str) :
  exists recs, parse_text lines = Ok recs.
Proof.
  unfold parse_text. destruct (run_ok lines ([], None)) as [st ->].
  eexists. reflexivity.
Qed.

Lemma flush_dated (all : list str) (st : pstate) :
  all_dated all st -> Forall (dated all) (flush st).
Proof.
  intros [H1 H2]. unfold flush. destruct (snd st) as [c|]; [|exact H1].
  apply Forall_app. split; [exact H1|]. constructor; [now apply H2|constructor].
Qed.

Lemma step_dated (all : list str) (st st' : pstate) (line : str) :
  In line all -> all_dated all st -> step st line = Ok st' -> all_dated all st'.
Proof.
  intros Hin Hst.
  destruct (date_rx_match (rstrip line)) as [[d rest]|] eqn:E.
  - destruct (step_anchor st line d rest E) as (w & dp & b & ->).
    intros [= <-]. split; [now apply flush_dated|].
    cbn [snd]. intros c [= <-].
    apply date_rx_match_spec in E. destruct E as (Hd & ws & Hl & Hws).
    split; [exact Hd|].
    exists line, ws, rest, []. cbn. now repeat split.
  - unfold step. rewrite E. destruct Hst as [H1 H2].
    destruct (snd st) as [c|] eqn:Ec.
    + intros [= <-]. split; [exact H1|]. cbn [snd]. intros c' [= <-].
      destruct (H2 c eq_refl) as (Hd & l0 & ws & rest & conts & Hin0 & Hl & Hws & Hdesc).
      split; [exact Hd|].
      exists l0, ws, rest, (conts ++ [rstrip line]).
      cbn [transaction_date description set_description].
      repeat split; try assumption.
      unfold append_lines in *. rewrite fold_left_app. cbn [fold_left].
      now rewrite <- Hdesc.
    + intros [= <-]. split; [exact H1|]. intros c Hc. congruence.
Qed.

Lemma run_dated (all lines : list str) (st st' : pstate) :
  incl lines all -> all_dated all st -> run st lines = Ok st' ->
  all_dated all st'.
Proof.
  revert st. induction lines as [|l ls IH]; intros st Hincl Hst; simpl.
  - now intros [= <-].
  - destruct (step st l) as [st1|e] eqn:E; [|discriminate]. simpl.
    apply IH.
    + intros x Hx. apply Hincl. now right.
    + apply (step_dated all st st1 l); [apply Hincl; now left| |]; assumption.
Qed.

(** C10.  Every record the text parser emits carries a date text of the
    anchor shape (two digits, separator, two digits, separator, two to
    four digits), taken from a line of the input in which only white
    space precedes it; its description is the stripped text after the
    date, followed by continuation lines: the date text is not part of
    it. *)
Theorem heuristic_record_date_anchor
    (lines : list str) (recs : list raw_record) (r : raw_record) :
  parse_text lines = Ok recs -> In r recs ->
  date_shaped (transaction_date r) = true /\ from_anchor lines r.
Proof.
  unfold parse_text.
  destruct (run ([], None) lines) as [st|e] eqn:E; [|discriminate].
  intros [= <-] Hin.
  assert (H : all_dated lines st).
  { apply (run_dated lines lines ([], None) st); [apply incl_refl| |exact E].
    split; [constructor | discriminate]. }
  apply flush_dated in H. rewrite Forall_forall in H. exact (H r Hin).
Qed.

Lemma heuristic_record_date_anchor_witness :
  parse_text [L "01-01-2023 Salary"]
  = Ok [{| transaction_date := L "01-01-2023";
           description := L "Salary";
           withdrawal_amount := Some (Finite (1 # 1));
           deposit_amount := Some (Finite (202 # 1));
           balance := Some (Finite (3 # 1)) |}]
  /\ date_shaped
       (transaction_date
          {| transaction_date := L "01-01-2023";
             description := L "Salary";
             withdrawal_amount := Some (Finite (1 # 1));
             deposit_amount := Some (Finite (202 # 1));
             balance := Some (Finite (3 # 1)) |}) = true
  /\ from_anchor [L "01-01-2023 Salary"]
       {| transaction_date := L "01-01-2023";
          description := L "Salary";
          withdrawal_amount := Some (Finite (1 # 1));
          deposit_amount := Some (Finite (202 # 1));
          balance := Some (Finite (3 # 1)) |}.
Proof.
  split; [vm_compute; reflexivity|].
  apply (heuristic_record_date_anchor [L "01-01-2023 Salary"]
           [{| transaction_date := L "01-01-2023";
               description := L "Salary";
               withdrawal_amount := Some (Finite (1 # 1));
               deposit_amount := Some (Finite (202 # 1));
               balance := Some (Finite (3 # 1)) |}]).
  - vm_compute. reflexivity.
  - left. reflexivity.
Defined.

(** C1.  The tokens are taken from the whole anchor line, date included
    (line 184), so a line whose only amount is [1,234.50] yields five
    tokens and the branch for three or more runs: withdrawal and deposit
    receive the pieces [202] and [3] of the year instead of staying
    null. *)
Theorem one_amount_line_takes_date_tokens :
  findall (L "01-01-2023 Salary 1,234.50")
  = [L "01"; L "01"; L "202"; L "3"; L "1,234.50"]
  /\ parse_text [L "01-01-2023 Salary 1,234.50"]
     = Ok [{| transaction_date := L "01-01-2023";
              description := L "Salary 1,234.50";
              withdrawal_amount := Some (Finite (202 # 1));
              deposit_amount := Some (Finite (3 # 1));
              balance := Some (Finite (2469 # 2)) |}].
Proof. split; vm_compute; reflexivity. Qed.

(** C2.  After the anchor line [01-01-2023 Salary] and the continuation
    lines [credit] and [from employer] the open record has the
    description [Salary credit from employer]; the next anchor line first
    appends that record to the output and then opens a record whose
    description is the stripped text after its own date; the output is
    these two records in this order. *)
Theorem continuation_merge (l2 d2 rest2 : str) :
  date_rx_match (rstrip l2) = Some (d2, rest2) ->
  exists r1 r2,
    run ([], None) [L "01-01-2023 Salary"; L "credit"; L "from employer"]
      = Ok ([], Some r1)
    /\ step ([], Some r1) l2 = Ok ([r1], Some r2)
    /\ parse_text [L "01-01-2023 Salary"; L "credit"; L "from employer"; l2]
       = Ok [r1; r2]
    /\ transaction_date r1 = L "01-01-2023"
    /\ description r1 = L "Salary credit from employer"
    /\ transaction_date r2 = d2
    /\ description r2 = strip rest2.
Proof.
  intros H.
  set (r1 := {| transaction_date := L "01-01-2023";
                description := L "Salary credit from employer";
                withdrawal_amount := Some (Finite (1 # 1));
                deposit_amount := Some (Finite (202 # 1));
                balance := Some (Finite (3 # 1)) |}).
  assert (R : run ([], None)
                [L "01-01-2023 Salary"; L "credit"; L "from employer"]
              = Ok ([], Some r1)) by (vm_compute; reflexivity).
  destruct (step_anchor ([], Some r1) l2 d2 rest2 H) as (w & dp & b & S).
  exists r1. eexists. split; [exact R|]. split; [exact S|].
  split; [|repeat split; reflexivity].
  unfold parse_text.
  change [L "01-01-2023 Salary"; L "credit"; L "from employer"; l2]
    with ([L "01-01-2023 Salary"; L "credit"; L "from employer"] ++ [l2]).
  assert (A : forall a b st, run st (a ++ b) = (st' <- run st a ;; run st' b)).
  { induction a as [|x a IH]; intros b0 st; simpl; [reflexivity|].
    destruct (step st x); simpl; [apply IH | reflexivity]. }
  rewrite A, R. cbn [bind run]. rewrite S. reflexivity.
Qed.

Lemma continuation_merge_witness :
  date_rx_match (rstrip (L "02-01-2023 Rent 500.00"))
    = Some (L "02-01-2023", L " Rent 500.00")
  /\ exists r1 r2,
    run ([], None) [L "01-01-2023 Salary"; L "credit"; L "from employer"]
      = Ok ([], Some r1)
    /\ step ([], Some r1) (L "02-01-2023 Rent 500.00") = Ok ([r1], Some r2)
    /\ parse_text [L "01-01-2023 Salary"; L "credit"; L "from employer";
                   L "02-01-2023 Rent 500.00"]
       = Ok [r1; r2]
    /\ transaction_date r1 = L "01-01-2023"
    /\ description r1 = L "Salary credit from employer"
    /\ transaction_date r2 = L "02-01-2023"
    /\ description r2 = strip (L " Rent 500.00").
Proof.
  split; [vm_compute; reflexivity|].
  apply (continuation_merge (L "02-01-2023 Rent 500.00")
           (L "02-01-2023") (L " Rent 500.00")).
  vm_compute. reflexivity.
Defined.

(** ** Flag engine *)

Lemma is_word_lower (c : ascii) : is_word (lower c) = is_word c.
Proof. each_char c. Qed.

Lemma ci_eqb_word (c p : ascii) : ci_eqb c p = true -> is_word c = is_word p.
Proof.
  unfold ci_eqb. intros E. apply Ascii.eqb_eq in E.
  rewrite <- (is_word_lower c), <- (is_word_lower p). now rewrite E.
Qed.

Lemma last_char_cons (c : ascii) (s : str) :
  last_char (c :: s) = match last_char s with Some x => Some x | None => Some c end.
Proof.
  unfold last_char. simpl. destruct (rev s) as [|x t] eqn:E; reflexivity.
Qed.

Lemma char_before_cons (prev : option ascii) (c : ascii) (s : str) :
  char_before prev (c :: s) = char_before (Some c) s.
Proof.
  unfold char_before. rewrite last_char_cons. destruct (last_char s); reflexivity.
Qed.

Lemma ci_equal_hd (m w : str) :
  ci_equal m w -> opt_word (hd_error m) = opt_word (hd_error w).
Proof.
  intros H. destruct H as [|c p m w E _]; [reflexivity|].
  simpl. now apply ci_eqb_word.
Qed.

Lemma ci_equal_last (m w : str) :
  ci_equal m w -> opt_word (last_char m) = opt_word (last_char w).
Proof.
  intros H. induction H as [|c p m w E H IH]; [reflexivity|].
  rewrite !last_char_cons.
  destruct H as [|c' p' m' w' E' H'].
  - simpl. now apply ci_eqb_word.
  - rewrite !last_char_cons in *.
    destruct (last_char m'), (last_char w'); simpl in *; try exact IH;
      try (now apply ci_eqb_word); destruct H'; simpl in *; discriminate.
Qed.

Lemma ci_prefix_sound (w s m r : str) :
  ci_prefix w s = Some (m, r) -> s = m ++ r /\ ci_equal m w.
Proof.
  revert s m r. induction w as [|p w IH]; intros s m r; simpl.
  - intros [= <- <-]. split; [reflexivity | constructor].
  - destruct s as [|c s]; [discriminate|].
    destruct (ci_eqb c p) eqn:E; [|discriminate].
    destruct (ci_prefix w s) as [[m' r']|] eqn:P; [|discriminate].
    intros [= <- <-]. destruct (IH s m' r' P) as [-> Hm].
    split; [reflexivity | now constructor].
Qed.

Lemma ci_prefix_complete (w m r : str) :
  ci_equal m w -> ci_prefix w (m ++ r) = Some (m, r).
Proof.
  intros H. induction H as [|c p m w E H IH]; simpl; [reflexivity|].
  now rewrite E, IH.
Qed.

Lemma ci_prefix_iff (w s m r : str) :
  ci_prefix w s = Some (m, r) <-> s = m ++ r /\ ci_equal m w.
Proof.
  split; [apply ci_prefix_sound|]. intros [-> H]. now apply ci_prefix_complete.
Qed.

Lemma wordy_nonempty (m w : str) :
  wordy w = true -> ci_equal m w ->
  opt_word (hd_error m) = true /\ opt_word (last_char m) = true
  /\ forall prev, char_before prev m = last_char m.
Proof.
  unfold wordy. intros W H. apply andb_true_iff in W. destruct W as [W1 W2].
  rewrite (ci_equal_hd m w H), (ci_equal_last m w H). repeat split; try assumption.
  intros prev. unfold char_before.
  pose proof (ci_equal_last m w H) as E. rewrite W2 in E.
  destruct (last_char m); [reflexivity | discriminate].
Qed.

(** The pattern [\b(w1|...|wn)\b] at one position. *)
Lemma words_at_iff (ws : list str) (prev : option ascii) (s : str) :
  forallb wordy ws = true ->
  words_at ws prev s = true <->
  exists w m post,
    In w ws /\ s = m ++ post /\ ci_equal m w
    /\ opt_word prev = false /\ opt_word (hd_error post) = false.
Proof.
  intros W. rewrite forallb_forall in W. unfold words_at. split.
  - intros H. apply andb_true_iff in H. destruct H as [B H].
    apply existsb_exists in H. destruct H as (w & Hin & H).
    destruct (ci_prefix w s) as [[m r]|] eqn:P; [|discriminate].
    apply ci_prefix_iff in P. destruct P as [-> Hm].
    destruct (wordy_nonempty m w (W w Hin) Hm) as (Hh & Hl & Hcb).
    exists w, m, r. repeat split; try assumption.
    + assert (E : hd_error (m ++ r) = hd_error m).
      { destruct m; [discriminate | reflexivity]. }
      unfold boundary in B. rewrite E, Hh in B.
      destruct (opt_word prev); [discriminate | reflexivity].
    + unfold boundary in H. rewrite Hcb, Hl in H.
      destruct (opt_word (hd_error r)); [discriminate | reflexivity].
  - intros (w & m & post & Hin & -> & Hm & Hp & Hn).
    destruct (wordy_nonempty m w (W w Hin) Hm) as (Hh & Hl & Hcb).
    apply andb_true_iff. split.
    + assert (E : hd_error (m ++ post) = hd_error m).
      { destruct m; [discriminate | reflexivity]. }
      unfold boundary. now rewrite E, Hh, Hp.
    + apply existsb_exists. exists w. split; [exact Hin|].
      rewrite (proj2 (ci_prefix_iff w (m ++ post) m post)) by now split.
      unfold boundary. now rewrite Hcb, Hl, Hn.
Qed.

Lemma search_words_from (ws : list str) (s : str) (prev : option ascii) :
  forallb wordy ws = true ->
  search_from (words_at ws) prev s = true <->
  exists w pre m post,
    In w ws /\ s = pre ++ m ++ post /\ ci_equal m w
    /\ opt_word (char_before prev pre) = false
    /\ opt_word (hd_error post) = false.
Proof.
  intros W. revert prev. induction s as [|c s IH]; intros prev.
  - cbn [search_from]. rewrite orb_false_r, (words_at_iff ws prev [] W). split.
    + intros (w & m & post & H). exists w, [], m, post. exact H.
    + intros (w & pre & m & post & Hin & E & H).
      destruct pre; [|discriminate]. exists w, m, post. split; [exact Hin|].
      split; [exact E | exact H].
  - cbn [search_from]. rewrite orb_true_iff, (words_at_iff ws prev (c :: s) W), IH.
    split.
    + intros [(w & m & post & H) | (w & pre & m & post & Hin & -> & Hm & Hp & Hn)].
      * exists w, [], m, post. exact H.
      * exists w, (c :: pre), m, post. rewrite char_before_cons. now repeat split.
    + intros (w & pre & m & post & Hin & E & Hm & Hp & Hn).
      destruct pre as [|c' pre].
      * left. exists w, m, post. now repeat split.
      * right. simpl in E. injection E as <- ->. rewrite char_before_cons in Hp.
        exists w, pre, m, post. now repeat split.
Qed.

(** [re.search] with a pattern [\b(w1|...|wn)\b], flag [re.I], finds
    exactly the whole-word occurrences of one of the words. *)
Lemma search_words_iff (ws : list str) (s : str) :
  forallb wordy ws = true ->
  re_search (words_at ws) s = true <->
  exists w, In w ws /\ whole_word_match w s.
Proof.
  intros W. unfold re_search. rewrite (search_words_from ws s None W).
  unfold whole_word_match. split.
  - intros (w & pre & m & post & Hin & E & Hm & Hp & Hn).
    exists w. split; [exact Hin|]. exists pre, m, post.
    repeat split; try assumption.
    unfold char_before in Hp. destruct (last_char pre); [exact Hp | reflexivity].
  - intros (w & Hin & pre & m & post & E & Hm & Hp & Hn).
    exists w, pre, m, post. repeat split; try assumption.
    unfold char_before. destruct (last_char pre); [exact Hp | reflexivity].
Qed.

Lemma gt_or_zero_iff (x : option f64) (k : Q) :
  (0 <= k)%Q ->
  gt (or_zero x) k = true <-> exists v, x = Some (Num v) /\ (k < v)%Q.
Proof.
  intros Hk.
  assert (Z0 : gt (Num 0) k = false).
  { simpl. apply negb_false_iff. now apply Qle_bool_iff. }
  destruct x as [[|q]|]; cbn [or_zero].
  - split; [discriminate | intros (v & E & _); discriminate].
  - destruct (Qeq_bool q 0) eqn:Z.
    + apply Qeq_bool_iff in Z. rewrite Z0. split; [discriminate|].
      intros (v & [= <-] & Hv). rewrite Z in Hv.
      exfalso. exact (Qlt_not_le _ _ Hv Hk).
    + cbn [gt]. split.
      * intros H. apply negb_true_iff in H. exists q. split; [reflexivity|].
        apply Qnot_le_lt. intros Hle. apply Qle_bool_iff in Hle. congruence.
      * intros (v & [= <-] & Hv). apply negb_true_iff.
        destruct (Qle_bool q k) eqn:Hle; [|reflexivity].
        apply Qle_bool_iff in Hle. exfalso. exact (Qlt_not_le _ _ Hv Hle).
  - rewrite Z0. split; [discriminate | intros (v & E & _); discriminate].
Qed.

(** C7.  The large-withdrawal flag of a row is set exactly when the
    withdrawal is a number above 10,000 (a missing one, [None] or NaN,
    never sets it) and the description contains [DD] as a whole word,
    case-insensitively; [Cash withdrawal DD no 55] with 15000 is flagged
    and with 5000 it is not. *)
Theorem large_withdrawal_flag :
  (forall r : tx_row,
     flag_DD_large_withdrawal (flag_row r) = true <->
     (exists v, row_withdrawal r = Some (Num v) /\ (10000 < v)%Q)
     /\ whole_word_match (L "DD") (row_description r))
  /\ (forall dep,
        flag_DD_large_withdrawal
          (flag_row {| row_description := L "Cash withdrawal DD no 55";
                       row_withdrawal := Some (Num 15000);
                       row_deposit := dep |}) = true)
  /\ (forall dep,
        flag_DD_large_withdrawal
          (flag_row {| row_description := L "Cash withdrawal DD no 55";
                       row_withdrawal := Some (Num 5000);
                       row_deposit := dep |}) = false).
Proof.
  split; [|split; intros dep; vm_compute; reflexivity].
  intros r. cbn [flag_row flag_DD_large_withdrawal].
  rewrite andb_true_iff, gt_or_zero_iff by (unfold Qle; simpl; lia).
  unfold DD_RE. rewrite search_words_iff by reflexivity.
  split.
  - intros [H (w & [<-|[]] & Hw)]. now split.
  - intros [H Hw]. split; [exact H|]. exists (L "DD"). split; [now left | exact Hw].
Qed.

(** C8.  The entity flag of a row is set exactly when the description
    contains one of [guddu], [prabhat], [arif], [coal india] as a whole
    word, case-insensitively; [Payment to ARIF TRANSPORT] is flagged and
    [Tarifff Co] is not. *)
Theorem entity_flag :
  (forall r : tx_row,
     flag_entities (flag_row r) = true <->
     exists w, In w [L "guddu"; L "prabhat"; L "arif"; L "coal india"]
               /\ whole_word_match w (row_description r))
  /\ (forall wd dep,
        flag_entities
          (flag_row {| row_description := L "Payment to ARIF TRANSPORT";
                       row_withdrawal := wd;
                       row_deposit := dep |}) = true)
  /\ (forall wd dep,
        flag_entities
          (flag_row {| row_description := L "Tarifff Co";
                       row_withdrawal := wd;
                       row_deposit := dep |}) = false).
Proof.
  split; [|split; intros wd dep; vm_compute; reflexivity].
  intros r. cbn [flag_row flag_entities].
  unfold ENTITY_RE. rewrite search_words_iff by reflexivity.
  reflexivity.
Qed.

(** ** Structured table extractor *)

Lemma clean_amount_value (s : str) : clean_amount (Some s) = Ok (amount_of s).
Proof. apply clean_amount_filtered. Qed.

Section ExtractionProperties.

Variable obj : Type.
Variable py_str : obj -> result str.

Lemma amount_cell_value (x : str) : amount_cell x = Ok (amount_of x).
Proof.
  destruct x as [|c x]; [reflexivity|]. unfold amount_cell.
  apply clean_amount_value.
Qed.

Lemma mapM_cell_str (l : list str) :
  mapM (cell_str obj py_str) (map CStr l) = Ok l.
Proof.
  induction l as [|s l IH]; simpl; [reflexivity|]. now rewrite IH.
Qed.

Lemma strip_cells (l : list str) :
  map (strip_cell obj) (map CStr l) = map CStr (map strip l).
Proof. induction l as [|s l IH]; simpl; [reflexivity|]. now rewrite IH. Qed.

Lemma skipn_last_three {A} (a : A) (m t : list A) :
  length t = 3 -> skipn (length (a :: m ++ t) - 3) (a :: m ++ t) = t.
Proof.
  intros Ht.
  replace (length (a :: m ++ t) - 3) with (length (a :: m))
    by (simpl; rewrite length_app; lia).
  change (a :: m ++ t) with ((a :: m) ++ t).
  rewrite skipn_app, skipn_all, Nat.sub_diag. reflexivity.
Qed.

Lemma slice_middle {A} (a : A) (m t : list A) :
  length t = 3 -> slice 1 (length (a :: m ++ t) - 3) (a :: m ++ t) = m.
Proof.
  intros Ht. unfold slice.
  replace (length (a :: m ++ t) - 3 - 1) with (length m)
    by (simpl; rewrite length_app; lia).
  simpl skipn. rewrite firstn_app, firstn_all, Nat.sub_diag. simpl.
  now rewrite app_nil_r.
Qed.

Lemma slice_map {A B} (f : A -> B) (lo hi : nat) (l : list A) :
  slice lo hi (map f l) = map f (slice lo hi l).
Proof. unfold slice. now rewrite skipn_map, firstn_map. Qed.

(** A row of strings in a table of at least four columns. *)
Lemma process_row_strings (first : str) (m : list str) (a b c date : str) :
  date_search first = Some date ->
  process_row obj py_str (length (first :: m ++ [a; b; c]))
    (map CStr (first :: m ++ [a; b; c]))
  = Ok (Some {| transaction_date := date;
                description :=
                  strip (join (L " ") (match m with [] => [a] | _ => m end));
                withdrawal_amount := amount_of a;
                deposit_amount := amount_of b;
                balance := amount_of c |}).
Proof.
  intros Hd. set (l := first :: m ++ [a; b; c]).
  assert (Hn : 4 <= length l)
    by (subst l; simpl; rewrite length_app; simpl; lia).
  unfold process_row.
  replace (cell_at obj (map CStr l) 0) with (Ok (CStr (obj := obj) first))
    by reflexivity.
  cbn [bind cell_str]. rewrite Hd, (proj2 (Nat.leb_le _ _) Hn).
  rewrite !slice_map, skipn_map.
  replace (skipn (length l - 3) l) with [a; b; c]
    by (symmetry; apply skipn_last_three; reflexivity).
  replace (if 4 <? length l
           then map (CStr (obj := obj)) (slice 1 (length l - 3) l)
           else map CStr (slice 1 (length l - 2) l))
    with (map (CStr (obj := obj)) (match m with [] => [a] | _ => m end)).
  2:{ destruct m as [|x m'].
      - reflexivity.
      - assert (H5 : 4 < length l)
          by (subst l; simpl; rewrite length_app; simpl; lia).
        rewrite (proj2 (Nat.ltb_lt _ _) H5).
        f_equal. symmetry. apply slice_middle. reflexivity. }
  rewrite !mapM_cell_str.
  cbn [bind neg_index length Nat.leb Nat.sub nth_error].
  rewrite !amount_cell_value. reflexivity.
Qed.

(** C5, as the code has it.  In a table of at least four columns, a row
    whose first cell contains a date yields a record whose last three
    cells are cleaned into withdrawal, deposit and balance, in this order.
    With five or more columns the description is the stripped, space-joined
    text of the cells strictly code_in column 0 and the last three; with
    exactly four columns it is the text of column 1, the cell that is also
    read as the withdrawal. *)
Theorem table_row_roles (first : str) (middle : list str)
    (cw cd cb date : str) :
  date_search (strip first) = Some date ->
  process_row obj py_str
    (length (first :: middle ++ [cw; cd; cb]))
    (map (strip_cell obj) (map CStr (first :: middle ++ [cw; cd; cb])))
  = Ok (Some {| transaction_date := date;
                description :=
                  strip (join (L " ")
                           (map strip (match middle with
                                       | [] => [cw]
                                       | _ => middle
                                       end)));
                withdrawal_amount := amount_of (strip cw);
                deposit_amount := amount_of (strip cd);
                balance := amount_of (strip cb) |}).
Proof.
  intros Hd. rewrite strip_cells.
  replace (length (first :: middle ++ [cw; cd; cb]))
    with (length (map strip (first :: middle ++ [cw; cd; cb])))
    by apply length_map.
  cbn [map]. rewrite map_app. cbn [map].
  refine (eq_trans (process_row_strings (strip first) (map strip middle)
                      (strip cw) (strip cd) (strip cb) date Hd) _).
  destruct middle; reflexivity.
Qed.

Lemma scan_tables_skip (before ts : list (table obj)) :
  Forall (fun t => exists h, hits obj py_str t = Ok h /\ h < 2) before ->
  scan_tables obj py_str (before ++ ts) = scan_tables obj py_str ts.
Proof.
  induction 1 as [|t before (h & Hh & Hlt) _ IH]; [reflexivity|].
  cbn [app scan_tables]. rewrite Hh. cbn [bind].
  rewrite (proj2 (Nat.leb_gt 2 h) Hlt). exact IH.
Qed.

Lemma process_rows_raise (n : nat) (done todo : list (list (cell obj)))
    (bad : list (cell obj)) (recs : list raw_record) (e : exn) :
  process_rows obj py_str n done = Ok recs ->
  process_row obj py_str n bad = Raise e ->
  process_rows obj py_str n (done ++ bad :: todo) = Raise e.
Proof.
  revert recs. induction done as [|r done IH]; intros recs Hdone Hbad.
  - simpl. now rewrite Hbad.
  - cbn [app process_rows] in *.
    destruct (process_row obj py_str n r) as [x|e']; [|discriminate].
    cbn [bind] in *.
    destruct (process_rows obj py_str n done) as [xs|e']; [|discriminate].
    now rewrite (IH xs eq_refl Hbad).
Qed.

Variable frame : Type.
Variable to_frame : list raw_record -> result frame.
Variable empty_frame : frame.

(** C6.  When the rows of the selected table (the first with two date
    hits) are processed and one of them raises after earlier rows were
    turned into records, [extract_transactions] returns exactly what the
    text strategy returns for the document: nothing of the table reaches
    the output. *)
Theorem structured_failure_falls_back
    (before after : list (table obj)) (t : table obj)
    (done todo : list (list (cell obj))) (bad : list (cell obj))
    (recs : list raw_record) (e : exn) (lines : list str) :
  Forall (fun t' => exists h, hits obj py_str t' = Ok h /\ h < 2) before ->
  (exists h, hits obj py_str t = Ok h /\ 2 <= h) ->
  map (map (strip_cell obj)) (rows t) = done ++ bad :: todo ->
  process_rows obj py_str (ncols t) done = Ok recs ->
  process_row obj py_str (ncols t) bad = Raise e ->
  extract_transactions obj py_str frame to_frame empty_frame true
    (Ok (before ++ t :: after)) lines
  = text_strategy frame to_frame empty_frame lines.
Proof.
  intros Hbefore (h & Hh & Hge) Hrows Hdone Hbad.
  unfold extract_transactions, table_strategy. cbn [bind].
  rewrite (scan_tables_skip before (t :: after) Hbefore).
  cbn [scan_tables]. rewrite Hh. cbn [bind].
  rewrite (proj2 (Nat.leb_le 2 h) Hge), Hrows.
  rewrite (process_rows_raise _ _ _ _ _ _ Hdone Hbad). reflexivity.
Qed.

End ExtractionProperties.

Lemma table_row_roles_witness :
  date_search (strip (L "01-01-2023")) = Some (L "01-01-2023")
  /\ process_row unit (fun _ => Raise OtherError) 5
       (map (strip_cell unit)
          (map CStr [L "01-01-2023"; L " Salary "; L "100.00"; L ""; L "5,300.00"]))
     = Ok (Some {| transaction_date := L "01-01-2023";
                   description := L "Salary";
                   withdrawal_amount := Some (Finite (100 # 1));
                   deposit_amount := None;
                   balance := Some (Finite (5300 # 1)) |}).
Proof.
  split; [vm_compute; reflexivity|].
  apply (table_row_roles unit (fun _ => Raise OtherError)
           (L "01-01-2023") [L " Salary "] (L "100.00") (L "") (L "5,300.00")
           (L "01-01-2023")).
  vm_compute. reflexivity.
Defined.

(** C5 as first stated fails on a table of exactly four columns: no
    column lies strictly between column 0 and the last three, so the
    description would be empty, but the code puts column 1 there. *)
Lemma four_column_description_not_empty :
  middle_cells 4 [L "01-01-2023"; L "Salary"; L "100.00"; L "5300.00"] = []
  /\ exists r,
       process_row unit (fun _ => Raise OtherError) 4
         (map (strip_cell unit)
            (map CStr [L "01-01-2023"; L "Salary"; L "100.00"; L "5300.00"]))
       = Ok (Some r)
       /\ description r = L "Salary"
       /\ description r
          <> strip (join (L " ")
                      (map strip
                         (middle_cells 4
                            [L "01-01-2023"; L "Salary"; L "100.00";
                             L "5300.00"]))).
Proof.
  split; [reflexivity|]. eexists. split; [vm_compute; reflexivity|].
  split; [reflexivity | discriminate].
Qed.

Lemma structured_failure_falls_back_witness :
  hits unit (fun _ => Raise OtherError)
    {| ncols := 5;
       rows := [map CStr [L "01-01-2023"; L "Salary"; L "100.00"; L "";
                          L "5300.00"];
                [CStr (L "02-01-2023"); CObj tt; CStr (L "");
                 CStr (L "50.00"); CStr (L "5350.00")]] |} = Ok 2
  /\ (exists r,
        process_rows unit (fun _ => Raise OtherError) 5
          [map CStr [L "01-01-2023"; L "Salary"; L "100.00"; L "";
                     L "5300.00"]] = Ok [r])
  /\ process_row unit (fun _ => Raise OtherError) 5
       [CStr (L "02-01-2023"); CObj tt; CStr (L ""); CStr (L "50.00");
        CStr (L "5350.00")] = Raise OtherError
  /\ extract_transactions unit (fun _ => Raise OtherError)
       (list raw_record) Ok [] true
       (Ok [{| ncols := 5;
               rows := [map CStr [L "01-01-2023"; L "Salary"; L "100.00";
                                  L ""; L "5300.00"];
                        [CStr (L "02-01-2023"); CObj tt; CStr (L "");
                         CStr (L "50.00"); CStr (L "5350.00")]] |}])
       [L "01-01-2023 Salary 100.00 5300.00"]
     = text_strategy (list raw_record) Ok []
         [L "01-01-2023 Salary 100.00 5300.00"].
Proof.
  split; [vm_compute; reflexivity|].
  split; [eexists; vm_compute; reflexivity|].
  split; [vm_compute; reflexivity|].
  eapply (structured_failure_falls_back unit (fun _ => Raise OtherError)
            (list raw_record) Ok [] [] []
            {| ncols := 5;
               rows := [map CStr [L "01-01-2023"; L "Salary"; L "100.00";
                                  L ""; L "5300.00"];
                        [CStr (L "02-01-2023"); CObj tt; CStr (L "");
                         CStr (L "50.00"); CStr (L "5350.00")]] |}
            [map CStr [L "01-01-2023"; L "Salary"; L "100.00"; L "";
                       L "5300.00"]]
            []
            [CStr (L "02-01-2023"); CObj tt; CStr (L ""); CStr (L "50.00");
             CStr (L "5350.00")]
            _ OtherError [L "01-01-2023 Salary 100.00 5300.00"]).
  - constructor.
  - exists 2. split; [vm_compute; reflexivity | lia].
  - vm_compute. reflexivity.
  - vm_compute. reflexivity.
  - vm_compute. reflexivity.
Defined.

(** ** Date parsing *)

Ltac enum_pos p :=
  first [ lia
        | destruct p as [p|p|]; [enum_pos p | enum_pos p | try lia] ].

Ltac enum_N n :=
  destruct n as [|n]; [try lia | enum_pos n].

Lemma digit_char_digit (n : N) :
  (n < 10)%N -> is_digit (digit_char n) = true /\ digit_val (digit_char n) = n.
Proof. intros H. enum_N n; split; reflexivity. Qed.

Lemma digit_not_sep (c x : ascii) :
  is_digit c = true -> is_digit x = false -> Ascii.eqb c x = false.
Proof.
  intros Hc Hx. destruct (Ascii.eqb c x) eqn:E; [|reflexivity].
  apply Ascii.eqb_eq in E. congruence.
Qed.

Lemma re_d_two_digits (v : N) (r : str) :
  (1 <= v <= 31)%N ->
  exists tl, re_d (two_digits v ++ r) = (v, r) :: tl /\ Forall (digit_led r) tl.
Proof.
  intros H. enum_N v;
    (eexists; split; [reflexivity|]);
    repeat constructor; eexists; split; reflexivity.
Qed.

Lemma re_m_two_digits (v : N) (r : str) :
  (1 <= v <= 12)%N ->
  exists tl, re_m (two_digits v ++ r) = (v, r) :: tl /\ Forall (digit_led r) tl.
Proof.
  intros H. enum_N v;
    (eexists; split; [reflexivity|]);
    repeat constructor; eexists; split; reflexivity.
Qed.

Lemma two_digits_digits (v : N) :
  (v < 100)%N ->
  exists a b, two_digits v = [a; b]
    /\ is_digit a = true /\ is_digit b = true /\ num2 a b = v.
Proof.
  intros H. unfold two_digits.
  assert (Ha : (v / 10 < 10)%N) by (apply N.Div0.div_lt_upper_bound; lia).
  assert (Hb : (v mod 10 < 10)%N) by (apply N.mod_lt; lia).
  destruct (digit_char_digit _ Ha) as [A1 A2].
  destruct (digit_char_digit _ Hb) as [B1 B2].
  exists (digit_char (v / 10)), (digit_char (v mod 10)).
  repeat split; try assumption.
  unfold num2. rewrite A2, B2. symmetry. apply N.div_mod. lia.
Qed.

Lemma re_Y_four_digits (y : N) (r : str) :
  (y <= 9999)%N -> re_Y (four_digits y ++ r) = [(y, r)].
Proof.
  intros H. unfold four_digits.
  assert (Hh : (y / 100 < 100)%N) by (apply N.Div0.div_lt_upper_bound; lia).
  assert (Hl : (y mod 100 < 100)%N) by (apply N.mod_lt; lia).
  destruct (two_digits_digits _ Hh) as (a & b & -> & Ha & Hb & Hab).
  destruct (two_digits_digits _ Hl) as (c & d & -> & Hc & Hd & Hcd).
  cbn [app re_Y]. rewrite Ha, Hb, Hc, Hd, Hab, Hcd. cbn [andb].
  do 2 f_equal. symmetry. apply N.div_mod. lia.
Qed.

Lemma re_y_two_digits (y : N) (r : str) :
  (1969 <= y <= 2068)%N -> re_y (two_digits (y mod 100) ++ r) = [(y, r)].
Proof.
  intros H.
  assert (Hl : (y mod 100 < 100)%N) by (apply N.mod_lt; lia).
  destruct (two_digits_digits _ Hl) as (a & b & -> & Ha & Hb & Hab).
  cbn [app re_y]. rewrite Ha, Hb, Hab. cbn [andb].
  do 2 f_equal.
  pose proof (N.div_mod y 100 ltac:(lia)) as E.
  assert (Q : (y / 100 = 19 \/ y / 100 = 20)%N).
  { assert ((19 <= y / 100)%N) by (apply N.div_le_lower_bound; lia).
    assert ((y / 100 < 21)%N) by (apply N.Div0.div_lt_upper_bound; lia).
    lia. }
  destruct (y mod 100 <=? 68)%N eqn:C.
  - apply N.leb_le in C. lia.
  - apply N.leb_gt in C. lia.
Qed.

Lemma first_some_digit_led {B} (x : ascii) (r : str)
    (k : N -> str -> option B) (tl : list (N * str)) :
  is_digit x = false ->
  Forall (digit_led r) tl ->
  (forall v c s, is_digit c = true -> k v (c :: s) = None) ->
  first_some (fun vr => k (fst vr) (snd vr)) tl = None.
Proof.
  intros Hx Htl Hk. induction Htl as [|[v s] tl (c & Hs & Hc) _ IH]; [reflexivity|].
  cbn [first_some fst snd] in *. subst s. now rewrite (Hk v c r Hc).
Qed.

Lemma lit_rejects_digit (x c : ascii) (fmt : list directive) (acc : date)
    (s : str) :
  is_digit x = false -> is_digit c = true ->
  match_fmt (Lit x :: fmt) acc (c :: s) = None.
Proof.
  intros Hx Hc. cbn [match_fmt]. now rewrite (digit_not_sep c x Hc Hx).
Qed.

(** A day field followed by the literal of the format. *)
Lemma match_day_lit (v : N) (x : ascii) (fmt : list directive) (acc : date)
    (r : str) :
  (1 <= v <= 31)%N -> is_digit x = false ->
  match_fmt (Dd :: Lit x :: fmt) acc (two_digits v ++ x :: r)
  = match_fmt fmt (with_day acc v) r.
Proof.
  intros Hv Hx. cbn [match_fmt].
  destruct (re_d_two_digits v (x :: r) Hv) as (tl & -> & Htl).
  cbn [first_some fst snd]. rewrite Ascii.eqb_refl.
  destruct (match_fmt fmt (with_day acc v) r) as [z|]; [reflexivity|].
  apply (first_some_digit_led x (x :: r)
           (fun v s => match s with
                       | [] => None
                       | y :: r0 => if Ascii.eqb y x
                                    then match_fmt fmt (with_day acc v) r0
                                    else None
                       end) tl Hx Htl).
  intros v' c s Hc. now rewrite (digit_not_sep c x Hc Hx).
Qed.

(** A day field followed by another character than the literal. *)
Lemma match_day_wrong_lit (v : N) (x x' : ascii) (fmt : list directive)
    (acc : date) (r : str) :
  (1 <= v <= 31)%N -> is_digit x = false -> Ascii.eqb x' x = false ->
  match_fmt (Dd :: Lit x :: fmt) acc (two_digits v ++ x' :: r) = None.
Proof.
  intros Hv Hx Hne. cbn [match_fmt].
  destruct (re_d_two_digits v (x' :: r) Hv) as (tl & -> & Htl).
  cbn [first_some fst snd]. rewrite Hne.
  apply (first_some_digit_led x (x' :: r)
           (fun v s => match s with
                       | [] => None
                       | y :: r0 => if Ascii.eqb y x
                                    then match_fmt fmt (with_day acc v) r0
                                    else None
                       end) tl Hx Htl).
  intros v' c s Hc. now rewrite (digit_not_sep c x Hc Hx).
Qed.

Lemma match_month_lit (v : N) (x : ascii) (fmt : list directive) (acc : date)
    (r : str) :
  (1 <= v <= 12)%N -> is_digit x = false ->
  match_fmt (Dm :: Lit x :: fmt) acc (two_digits v ++ x :: r)
  = match_fmt fmt (with_month acc v) r.
Proof.
  intros Hv Hx. cbn [match_fmt].
  destruct (re_m_two_digits v (x :: r) Hv) as (tl & -> & Htl).
  cbn [first_some fst snd]. rewrite Ascii.eqb_refl.
  destruct (match_fmt fmt (with_month acc v) r) as [z|]; [reflexivity|].
  apply (first_some_digit_led x (x :: r)
           (fun v s => match s with
                       | [] => None
                       | y :: r0 => if Ascii.eqb y x
                                    then match_fmt fmt (with_month acc v) r0
                                    else None
                       end) tl Hx Htl).
  intros v' c s Hc. now rewrite (digit_not_sep c x Hc Hx).
Qed.

(** Three digits in a row defeat a day field followed by a literal. *)
Lemma match_day_on_digits (a b c x : ascii) (fmt : list directive)
    (acc : date) (r : str) :
  is_digit a = true -> is_digit b = true -> is_digit c = true ->
  is_digit x = false ->
  match_fmt (Dd :: Lit x :: fmt) acc (a :: b :: c :: r) = None.
Proof.
  intros Ha Hb Hc Hx. cbn [match_fmt re_d].
  pose proof (digit_not_sep b x Hb Hx) as Eb.
  pose proof (digit_not_sep c x Hc Hx) as Ec.
  destruct (Ascii.eqb a "3" && code_in 48 49 b);
  destruct (code_in 49 50 a && is_digit b);
  destruct (Ascii.eqb a "0" && code_in 49 57 b);
  destruct (code_in 49 57 a);
  destruct (Ascii.eqb a " " && code_in 49 57 b);
  cbn [app first_some fst snd]; rewrite ?Eb, ?Ec; reflexivity.
Qed.

Lemma valid_date_bounds (y m dd : N) :
  valid_date y m dd = true ->
  (1 <= y <= 9999 /\ 1 <= m <= 12 /\ 1 <= dd <= 31)%N.
Proof.
  unfold valid_date. intros H.
  do 5 (apply andb_true_iff in H; destruct H as [H ?]).
  repeat match goal with
         | E : (_ <=? _)%N = true |- _ => apply N.leb_le in E
         end.
  assert (D : (days_in_month y m <= 31)%N).
  { unfold days_in_month.
    repeat match goal with
           | |- context [match ?p with _ => _ end] =>
               destruct p; try lia
           end. }
  lia.
Qed.

Lemma strip_digit_ends (a b : ascii) (mid : str) :
  is_digit a = true -> is_digit b = true ->
  strip (a :: mid ++ [b]) = a :: mid ++ [b].
Proof.
  intros Ha Hb. unfold strip, lstrip, rstrip.
  cbn [drop_while]. rewrite (digit_not_space a Ha).
  change (a :: mid ++ [b]) with ((a :: mid) ++ [b]).
  rewrite rev_app_distr. cbn [rev app drop_while].
  rewrite (digit_not_space b Hb).
  change (b :: rev mid ++ [a]) with ([b] ++ rev (a :: mid)).
  rewrite rev_app_distr, rev_involutive. reflexivity.
Qed.

Lemma match_year (v : N) (fmt : list directive) (acc : date) (r : str) :
  (v <= 9999)%N ->
  match_fmt (DY :: fmt) acc (four_digits v ++ r)
  = match_fmt fmt (with_year acc v) r.
Proof.
  intros Hv. cbn [match_fmt]. rewrite re_Y_four_digits by exact Hv.
  cbn [first_some fst snd]. destruct (match_fmt fmt (with_year acc v) r); reflexivity.
Qed.

Lemma match_lit (c : ascii) (fmt : list directive) (acc : date) (r : str) :
  match_fmt (Lit c :: fmt) acc (c :: r) = match_fmt fmt acc r.
Proof. cbn [match_fmt]. now rewrite Ascii.eqb_refl. Qed.

Lemma strptime_of_mismatch (f : list directive) (s : str) :
  match_fmt f {| year := 1900; month := 1; day := 1 |} s = None ->
  strptime s f = Raise ValueError.
Proof. intros E. unfold strptime. now rewrite E. Qed.

Section RoundTrip.

Variables (y m dd : N).
Hypothesis Hy : (1 <= y <= 9999)%N.
Hypothesis Hm : (1 <= m <= 12)%N.
Hypothesis Hd : (1 <= dd <= 31)%N.
Hypothesis Hvalid : valid_date y m dd = true.

Let d : date := {| year := y; month := m; day := dd |}.

Variable x : ascii.
Hypothesis Hx : is_digit x = false.

Lemma match_dmY (acc : date) :
  match_fmt [Dd; Lit x; Dm; Lit x; DY] acc
    (render [Dd; Lit x; Dm; Lit x; DY] d)
  = Some ({| year := y; month := m; day := dd |}, []).
Proof using All.
  cbn [render concat map render_directive app year month day d].
  rewrite (match_day_lit dd x _ acc _ Hd Hx).
  rewrite (match_month_lit m x _ _ _ Hm Hx).
  cbn [match_fmt]. rewrite re_Y_four_digits by lia. reflexivity.
Qed.

Lemma match_dmy (acc : date) :
  (1969 <= y <= 2068)%N ->
  match_fmt [Dd; Lit x; Dm; Lit x; Dy] acc
    (render [Dd; Lit x; Dm; Lit x; Dy] d)
  = Some ({| year := y; month := m; day := dd |}, []).
Proof using All.
  intros Hw.
  cbn [render concat map render_directive app year month day d].
  rewrite (match_day_lit dd x _ acc _ Hd Hx).
  rewrite (match_month_lit m x _ _ _ Hm Hx).
  cbn [match_fmt]. rewrite re_y_two_digits by lia. reflexivity.
Qed.

Lemma match_Ymd (acc : date) :
  match_fmt [DY; Lit x; Dm; Lit x; Dd] acc
    (render [DY; Lit x; Dm; Lit x; Dd] d)
  = Some ({| year := y; month := m; day := dd |}, []).
Proof using All.
  cbn [render concat map render_directive app year month day d].
  rewrite match_year by lia. rewrite match_lit.
  rewrite (match_month_lit m x _ _ _ Hm Hx).
  cbn [match_fmt].
  destruct (re_d_two_digits dd [] Hd) as (tl & -> & _). reflexivity.
Qed.

(** The year with century does not match a two-digit year field. *)
Lemma mismatch_Y_on_y (acc : date) :
  match_fmt [Dd; Lit x; Dm; Lit x; DY] acc
    (render [Dd; Lit x; Dm; Lit x; Dy] d) = None.
Proof using All.
  cbn [render concat map render_directive app year month day d].
  rewrite (match_day_lit dd x _ acc _ Hd Hx).
  rewrite (match_month_lit m x _ _ _ Hm Hx).
  reflexivity.
Qed.

(** A format with another separator fails at the first literal. *)
Lemma mismatch_separator (x' : ascii) (acc : date) (f g : list directive) :
  Ascii.eqb x' x = false ->
  match_fmt (Dd :: Lit x :: f) acc (render (Dd :: Lit x' :: g) d) = None.
Proof using All.
  intros Hne.
  cbn [render concat map render_directive app year month day d].
  exact (match_day_wrong_lit dd x x' f acc _ Hd Hx Hne).
Qed.

(** A day-first format fails on a text that starts with the year. *)
Lemma mismatch_day_on_year (acc : date) (f g : list directive) :
  match_fmt (Dd :: Lit x :: f) acc (render (DY :: g) d) = None.
Proof using All.
  cbn [render concat map render_directive app year month day d].
  unfold four_digits.
  assert (Hh : (y / 100 < 100)%N) by (apply N.Div0.div_lt_upper_bound; lia).
  assert (Hl : (y mod 100 < 100)%N) by (apply N.mod_lt; lia).
  destruct (two_digits_digits _ Hh) as (a & b & -> & Ha & Hb & _).
  destruct (two_digits_digits _ Hl) as (c & e & -> & Hc & He & _).
  cbn [app]. now apply match_day_on_digits.
Qed.

(** The rendering starts and ends with a digit: [strip] leaves it as it
    is. *)
Lemma strip_render (f : list directive) :
  In f formats -> strip (render f d) = render f d.
Proof using All.
  assert (Hh : (y / 100 < 100)%N) by (apply N.Div0.div_lt_upper_bound; lia).
  assert (Hl : (y mod 100 < 100)%N) by (apply N.mod_lt; lia).
  assert (Hm' : (m < 100)%N) by lia.
  assert (Hd' : (dd < 100)%N) by lia.
  destruct (two_digits_digits _ Hh) as (a & b & Eh & Ha & Hb & _).
  destruct (two_digits_digits _ Hl) as (c & e & El & Hc & He & _).
  destruct (two_digits_digits _ Hm') as (m1 & m2 & Em & Hm1 & Hm2 & _).
  destruct (two_digits_digits _ Hd') as (d1 & d2 & Ed & Hd1 & Hd2 & _).
  intros Hin. cbn [formats In] in Hin.
  destruct Hin as [<-|[<-|[<-|[<-|[<-|[]]]]]];
    cbn [render concat map render_directive app year month day d
         fmt_dmY_dash fmt_dmY_slash fmt_dmy_dash fmt_dmy_slash fmt_Ymd_dash];
    unfold four_digits; rewrite ?Eh, ?El, ?Em, ?Ed; cbn [app].
  - exact (strip_digit_ends d1 e [_; _; _; _; _; _; _; _] Hd1 He).
  - exact (strip_digit_ends d1 e [_; _; _; _; _; _; _; _] Hd1 He).
  - exact (strip_digit_ends d1 e [_; _; _; _; _; _] Hd1 He).
  - exact (strip_digit_ends d1 e [_; _; _; _; _; _] Hd1 He).
  - exact (strip_digit_ends a d2 [_; _; _; _; _; _; _; _] Ha Hd2).
Qed.

Lemma strptime_of_match (f : list directive) (s : str) :
  match_fmt f {| year := 1900; month := 1; day := 1 |} s
    = Some ({| year := y; month := m; day := dd |}, []) ->
  strptime s f = Ok d.
Proof using All.
  intros E. unfold strptime. rewrite E. cbn [year month day].
  now rewrite Hvalid.
Qed.

End RoundTrip.

Lemma try_formats_first (s : str) (before after : list (list directive))
    (f : list directive) (d : date) :
  Forall (fun g => exists e, strptime (strip s) g = Raise e) before ->
  strptime (strip s) f = Ok d ->
  try_formats (before ++ f :: after) s = Some d.
Proof.
  intros Hb Hf. induction Hb as [|g before (e & Hg) _ IH]; cbn [app try_formats].
  - now rewrite Hf.
  - now rewrite Hg.
Qed.

Lemma try_formats_none (s : str) (fs : list (list directive)) :
  Forall (fun g => exists e, strptime (strip s) g = Raise e) fs ->
  try_formats fs s = None.
Proof.
  induction 1 as [|g fs (e & Hg) _ IH]; cbn [try_formats]; [reflexivity|].
  now rewrite Hg.
Qed.

Lemma not_digit_dash : is_digit "-" = false.
Proof. reflexivity. Qed.

Lemma not_digit_slash : is_digit "/" = false.
Proof. reflexivity. Qed.

(** C4.  [parse_date_try] gives back every date rendered in one of the
    five formats, for the dates the format can express; the formats are
    tried in the order of the source and the first that parses decides;
    when none parses and the permissive parse yields no date or raises,
    the result is null; the function returns on every input. *)
Theorem parse_date_round_trip (pd : str -> result (option date)) :
  (forall f d,
     In f formats -> expressible f d = true ->
     parse_date_try pd (render f d) = Ok (Some d))
  /\ (forall s before f after d,
        formats = before ++ f :: after ->
        Forall (fun g => exists e, strptime (strip s) g = Raise e) before ->
        strptime (strip s) f = Ok d ->
        parse_date_try pd s = Ok (Some d))
  /\ (forall s,
        Forall (fun g => exists e, strptime (strip s) g = Raise e) formats ->
        pd s = Ok None \/ (exists e, pd s = Raise e) ->
        parse_date_try pd s = Ok None)
  /\ (forall s, exists r, parse_date_try pd s = Ok r).
Proof.
  assert (P2 : forall s before f after d,
             formats = before ++ f :: after ->
             Forall (fun g => exists e, strptime (strip s) g = Raise e) before ->
             strptime (strip s) f = Ok d ->
             parse_date_try pd s = Ok (Some d)).
  { intros s before f after d E Hb Hf. unfold parse_date_try.
    now rewrite E, (try_formats_first s before after f d Hb Hf). }
  split; [|split; [exact P2|split]].
  - intros f [y m dd] Hin Hex. unfold expressible in Hex.
    cbn [year month day] in Hex.
    apply andb_true_iff in Hex. destruct Hex as [Hv Hw].
    destruct (valid_date_bounds y m dd Hv) as (Hy & Hm & Hd).
    pose proof not_digit_dash as ND. pose proof not_digit_slash as NS.
    pose proof (strip_render y m dd Hy Hm Hd Hv "-" ND f Hin) as S.
    cbn [formats In] in Hin.
    destruct Hin as [<-|[<-|[<-|[<-|[<-|[]]]]]].
    + apply (P2 _ [] fmt_dmY_dash _ _ eq_refl); [constructor|].
      rewrite S. apply (strptime_of_match y m dd Hy Hm Hd Hv "-" ND).
      apply (match_dmY y m dd Hy Hm Hd Hv "-" ND).
    + apply (P2 _ [fmt_dmY_dash] fmt_dmY_slash _ _ eq_refl); rewrite S.
      * repeat constructor. eexists. apply strptime_of_mismatch.
        now apply (mismatch_separator y m dd Hy Hm Hd Hv "-" ND "/").
      * apply (strptime_of_match y m dd Hy Hm Hd Hv "-" ND).
        apply (match_dmY y m dd Hy Hm Hd Hv "/" NS).
    + cbn [existsb fmt_dmy_dash is_Dy orb] in Hw.
      apply andb_true_iff in Hw. destruct Hw as [W1 W2].
      apply N.leb_le in W1. apply N.leb_le in W2.
      apply (P2 _ [fmt_dmY_dash; fmt_dmY_slash] fmt_dmy_dash _ _ eq_refl);
        rewrite S.
      * repeat constructor; eexists; apply strptime_of_mismatch.
        -- apply (mismatch_Y_on_y y m dd Hy Hm Hd Hv "-" ND).
        -- now apply (mismatch_separator y m dd Hy Hm Hd Hv "/" NS "-").
      * apply (strptime_of_match y m dd Hy Hm Hd Hv "-" ND).
        apply (match_dmy y m dd Hy Hm Hd Hv "-" ND). lia.
    + cbn [existsb fmt_dmy_slash is_Dy orb] in Hw.
      apply andb_true_iff in Hw. destruct Hw as [W1 W2].
      apply N.leb_le in W1. apply N.leb_le in W2.
      apply (P2 _ [fmt_dmY_dash; fmt_dmY_slash; fmt_dmy_dash] fmt_dmy_slash
               _ _ eq_refl); rewrite S.
      * repeat constructor; eexists; apply strptime_of_mismatch.
        -- now apply (mismatch_separator y m dd Hy Hm Hd Hv "-" ND "/").
        -- apply (mismatch_Y_on_y y m dd Hy Hm Hd Hv "/" NS).
        -- now apply (mismatch_separator y m dd Hy Hm Hd Hv "-" ND "/").
      * apply (strptime_of_match y m dd Hy Hm Hd Hv "-" ND).
        apply (match_dmy y m dd Hy Hm Hd Hv "/" NS). lia.
    + apply (P2 _ [fmt_dmY_dash; fmt_dmY_slash; fmt_dmy_dash; fmt_dmy_slash]
               fmt_Ymd_dash _ _ eq_refl); rewrite S.
      * repeat constructor; eexists; apply strptime_of_mismatch.
        -- apply (mismatch_day_on_year y m dd Hy Hm Hd Hv "-" ND).
        -- apply (mismatch_day_on_year y m dd Hy Hm Hd Hv "/" NS).
        -- apply (mismatch_day_on_year y m dd Hy Hm Hd Hv "-" ND).
        -- apply (mismatch_day_on_year y m dd Hy Hm Hd Hv "/" NS).
      * apply (strptime_of_match y m dd Hy Hm Hd Hv "-" ND).
        apply (match_Ymd y m dd Hy Hm Hd Hv "-" ND).
  - intros s Hall Hpd. unfold parse_date_try.
    rewrite (try_formats_none s formats Hall).
    destruct Hpd as [-> | (e & ->)]; reflexivity.
  - intros s. unfold parse_date_try.
    destruct (try_formats formats s); eexists; reflexivity.
Qed.

Lemma parse_date_round_trip_witness :
  In fmt_dmy_slash formats
  /\ expressible fmt_dmy_slash {| year := 2023; month := 1; day := 5 |} = true
  /\ render fmt_dmy_slash {| year := 2023; month := 1; day := 5 |}
     = L "05/01/23"
  /\ parse_date_try (fun _ => Raise OtherError)
       (render fmt_dmy_slash {| year := 2023; month := 1; day := 5 |})
     = Ok (Some {| year := 2023; month := 1; day := 5 |}).
Proof.
  assert (Hin : In fmt_dmy_slash formats)
    by (right; right; right; left; reflexivity).
  assert (Hex : expressible fmt_dmy_slash
                  {| year := 2023; month := 1; day := 5 |} = true)
    by (vm_compute; reflexivity).
  split; [exact Hin|]. split; [exact Hex|]. split; [vm_compute; reflexivity|].
  exact (proj1 (parse_date_round_trip (fun _ => Raise OtherError))
           fmt_dmy_slash {| year := 2023; month := 1; day := 5 |} Hin Hex).
Defined.

(** Outside the hundred years a two-digit year stands for, the century is
    not recovered: 1950 comes back as 2050. *)
Lemma two_digit_year_window :
  parse_date_try (fun _ => Raise OtherError)
    (render fmt_dmy_dash {| year := 1950; month := 1; day := 5 |})
  = Ok (Some {| year := 2050; month := 1; day := 5 |}).
Proof. vm_compute. reflexivity. Qed.

(** ** More on the field normaliser and the amount pattern *)

(** X1.  [clean_amount] sees only the digits and dots of its argument:
    two strings that agree on them clean to the same result, whatever
    signs, markers, separators or letters surround them. *)
Theorem clean_amount_digits_and_dots_only (s t : str) :
  keep_amount_chars s = keep_amount_chars t ->
  clean_amount (Some s) = clean_amount (Some t).
Proof. intros E. now rewrite !clean_amount_filtered, E. Qed.

Lemma clean_amount_digits_and_dots_only_witness :
  keep_amount_chars (L "-1,234.50 Cr") = keep_amount_chars (L "1234.50")
  /\ clean_amount (Some (L "-1,234.50 Cr")) = clean_amount (Some (L "1234.50")).
Proof.
  split; [vm_compute; reflexivity|].
  apply clean_amount_digits_and_dots_only. vm_compute. reflexivity.
Defined.

Lemma keep_amount_chars_alphabet (s : str) :
  forallb (fun c => is_digit c || is_dot c) (keep_amount_chars s) = true.
Proof.
  unfold keep_amount_chars. induction s as [|c s IH]; simpl; [reflexivity|].
  destruct (is_digit c || is_dot c) eqn:E; simpl; [now rewrite E|exact IH].
Qed.

Lemma dots_keep (s : str) : dots (keep_amount_chars s) = dots s.
Proof.
  unfold dots, keep_amount_chars. induction s as [|c s IH]; simpl; [reflexivity|].
  destruct (is_dot c) eqn:D.
  - rewrite orb_true_r. simpl. rewrite D. simpl. now rewrite IH.
  - rewrite orb_false_r. destruct (is_digit c); simpl; rewrite ?D; exact IH.
Qed.

Lemma dots_digits (s : str) : forallb is_digit s = true -> dots s = 0.
Proof.
  unfold dots. induction s as [|c s IH]; simpl; [reflexivity|].
  intros H. apply andb_true_iff in H. destruct H as [Hc Hs].
  assert (D : is_dot c = false) by (revert Hc; each_char c).
  rewrite D. now apply IH.
Qed.

Lemma dots_drop_digits (s : str) : dots (drop_while is_digit s) = dots s.
Proof.
  unfold dots. induction s as [|c s IH]; simpl; [reflexivity|].
  destruct (is_digit c) eqn:Hc; [|reflexivity].
  assert (D : is_dot c = false) by (revert Hc; each_char c).
  now rewrite D.
Qed.

Lemma py_float_two_dots (s : str) :
  2 <= dots s -> py_float s = Raise ValueError.
Proof.
  intros H. unfold py_float. rewrite <- dots_drop_digits in H.
  destruct (drop_while is_digit s) as [|c fp]; [unfold dots in H; simpl in H; lia|].
  destruct (is_dot c) eqn:D; [|reflexivity].
  destruct (forallb is_digit fp) eqn:F; [|reflexivity].
  apply dots_digits in F. unfold dots in *. simpl in H. rewrite D in H.
  simpl in H. lia.
Qed.

(** X2.  A string with two or more dots is never an amount: the result
    is null, whatever else the string contains. *)
Theorem clean_amount_two_dots (s : str) :
  2 <= dots s -> clean_amount (Some s) = Ok None.
Proof.
  intros H. rewrite clean_amount_filtered.
  rewrite py_float_two_dots; [reflexivity|]. now rewrite dots_keep.
Qed.

Lemma clean_amount_two_dots_witness :
  2 <= dots (L "1.234.567,00") /\ clean_amount (Some (L "1.234.567,00")) = Ok None.
Proof.
  split; [vm_compute; lia|].
  apply clean_amount_two_dots. vm_compute. lia.
Defined.

Lemma take_digits_digits (k : nat) (s : str) :
  forallb is_digit (take_digits k s) = true.
Proof.
  revert s. induction k as [|k IH]; intros [|c s]; simpl; try reflexivity.
  destruct (is_digit c) eqn:E; simpl; [|reflexivity]. now rewrite E, IH.
Qed.

Lemma take_while_holds (p : ascii -> bool) (s : str) :
  forallb p (take_while p s) = true.
Proof. exact (proj2 (take_drop_while p s)). Qed.

Lemma keep_digits (s : str) :
  forallb is_digit s = true -> keep_amount_chars s = s.
Proof.
  unfold keep_amount_chars. induction s as [|c s IH]; simpl; [reflexivity|].
  intros H. apply andb_true_iff in H. destruct H as [Hc Hs].
  rewrite Hc. simpl. now rewrite IH.
Qed.

(** The thousands groups of a token contribute digits only. *)
Lemma keep_thousands (s : str) :
  forallb is_digit (keep_amount_chars (thousands s)) = true.
Proof.
  assert (H : forall n (t : str), length t <= n ->
              forallb is_digit (keep_amount_chars (thousands t)) = true).
  { induction n as [|n IH]; intros t Hn.
    - destruct t; [reflexivity | simpl in Hn; lia].
    - destruct t as [|c [|d1 [|d2 [|d3 t']]]]; try reflexivity.
      cbn [thousands].
      destruct (Ascii.eqb c "," && is_digit d1 && is_digit d2 && is_digit d3)
        eqn:E; [|reflexivity].
      do 3 (apply andb_true_iff in E; destruct E as [E ?]).
      apply Ascii.eqb_eq in E. subst c.
      unfold keep_amount_chars in *. cbn [filter].
      change (is_digit "," || is_dot ",") with false. cbn iota.
      repeat match goal with
             | Hd : is_digit ?x = true |- context [is_digit ?x] => rewrite Hd
             end.
      cbn [orb forallb].
      repeat match goal with
             | Hd : is_digit ?x = true |- context [is_digit ?x] => rewrite Hd
             end.
      cbn [andb]. apply IH. simpl in Hn. lia. }
  now apply (H (length s)).
Qed.

Lemma fraction_shape (s : str) :
  fraction s = []
  \/ exists d ds, fraction s = "." :: d :: ds
                  /\ forallb is_digit (d :: ds) = true.
Proof.
  destruct s as [|c [|d s]]; try (now left). cbn [fraction].
  destruct (is_dot c && is_digit d) eqn:E; [|now left].
  apply andb_true_iff in E. destruct E as [Hc Hd].
  apply Ascii.eqb_eq in Hc. subst c. right.
  exists d, (take_while is_digit s). split; [reflexivity|].
  cbn [forallb]. now rewrite Hd, take_while_holds.
Qed.

Lemma take_while_app (p : ascii -> bool) (a c : str) :
  forallb p a = true -> take_while p (a ++ c) = a ++ take_while p c.
Proof.
  induction a as [|x a IH]; simpl; [reflexivity|].
  intros H. apply andb_true_iff in H. destruct H as [Hx Ha].
  now rewrite Hx, IH.
Qed.

Lemma drop_while_app (p : ascii -> bool) (a c : str) :
  forallb p a = true -> drop_while p (a ++ c) = drop_while p c.
Proof.
  induction a as [|x a IH]; simpl; [reflexivity|].
  intros H. apply andb_true_iff in H. destruct H as [Hx Ha].
  now rewrite Hx, IH.
Qed.

Lemma py_float_digits_fraction (a c : str) :
  a <> [] -> forallb is_digit a = true ->
  (c = [] \/ exists d ds, c = "." :: d :: ds
                          /\ forallb is_digit (d :: ds) = true) ->
  exists q, py_float (a ++ c) = Ok q.
Proof.
  intros Ha Hd Hc. unfold py_float.
  rewrite take_while_app, drop_while_app by exact Hd.
  destruct Hc as [-> | (d & ds & -> & Hds)].
  - cbn [take_while drop_while]. rewrite app_nil_r.
    destruct a as [|x a]; [contradiction|]. cbn [length Nat.eqb].
    eexists. reflexivity.
  - cbn [take_while drop_while]. change (is_digit ".") with false. cbn iota.
    rewrite app_nil_r. change (is_dot ".") with true. rewrite Hds.
    destruct a as [|x a]; [contradiction|]. cbn [length Nat.add Nat.eqb andb negb].
    eexists. reflexivity.
Qed.

(** Whatever [AMOUNT_RE] matches is read by [float] once the commas are
    gone. *)
Lemma amount_at_cleans (s tok : str) :
  amount_at s = Some tok -> exists q, py_float (keep_amount_chars tok) = Ok q.
Proof.
  unfold amount_at.
  destruct (take_digits 3 s) as [|x a] eqn:Ea; [discriminate|].
  set (s1 := skipn (length (x :: a)) s).
  set (c := fraction (skipn (length (thousands s1)) s1)).
  intros E.
  assert (T : tok = (x :: a) ++ thousands s1 ++ c) by congruence.
  rewrite T. clear E T.
  pose proof (take_digits_digits 3 s) as Hd. rewrite Ea in Hd.
  pose proof (keep_thousands s1) as Ht.
  assert (Hc : keep_amount_chars c = c
               /\ (c = [] \/ exists d ds, c = "." :: d :: ds
                                /\ forallb is_digit (d :: ds) = true)).
  { destruct (fraction_shape (skipn (length (thousands s1)) s1))
      as [E | (d & ds & E & Hds)]; fold c in E; rewrite E.
    - split; [reflexivity | now left].
    - split; [|right; now exists d, ds].
      unfold keep_amount_chars. cbn [filter].
      change (is_digit "." || is_dot ".") with true. cbn iota.
      f_equal. exact (keep_digits _ Hds). }
  destruct Hc as [Kc Hc].
  assert (K : keep_amount_chars ((x :: a) ++ thousands s1 ++ c)
              = ((x :: a) ++ keep_amount_chars (thousands s1)) ++ c).
  { unfold keep_amount_chars in *. rewrite !filter_app, Kc.
    fold (keep_amount_chars (x :: a)). rewrite (keep_digits _ Hd).
    now rewrite app_assoc. }
  rewrite K.
  apply py_float_digits_fraction; [discriminate| |exact Hc].
  rewrite forallb_app. now rewrite Hd, Ht.
Qed.

Lemma findall_from_tokens (s : str) (k : nat) (tok : str) :
  In tok (findall_from k s) -> exists s', amount_at s' = Some tok.
Proof.
  revert k. induction s as [|c s IH]; intros k; [intros []|].
  cbn [findall_from]. destruct k as [|k]; [|apply IH].
  destruct (amount_at (c :: s)) as [t|] eqn:E; [|apply IH].
  intros [<- | H]; [now exists (c :: s) | exact (IH _ H)].
Qed.

(** X3.  Every token that [AMOUNT_RE.findall] returns cleans to a number:
    the amount cleaner never answers null on a token of the pattern. *)
Theorem found_tokens_clean (s tok : str) :
  In tok (findall s) -> exists q, clean_amount (Some tok) = Ok (Some q).
Proof.
  intros H. apply findall_from_tokens in H. destruct H as [s' H].
  apply amount_at_cleans in H. destruct H as [q H].
  exists q. now rewrite clean_amount_filtered, H.
Qed.

Lemma found_tokens_clean_witness :
  In (L "1,234.50") (findall (L "Rent 1,234.50 paid"))
  /\ exists q, clean_amount (Some (L "1,234.50")) = Ok (Some q).
Proof.
  assert (H : In (L "1,234.50") (findall (L "Rent 1,234.50 paid")))
    by (vm_compute; left; reflexivity).
  split; [exact H|]. exact (found_tokens_clean _ _ H).
Defined.

(** ** More on the heuristic text parser *)

Lemma run_app (a b : list str) (st : pstate) :
  run st (a ++ b) = (st' <- run st a ;; run st' b).
Proof.
  revert st. induction a as [|x a IH]; intros st; simpl; [reflexivity|].
  destruct (step st x); simpl; [apply IH | reflexivity].
Qed.

Lemma flush_prefix (p rs : list raw_record) (c : option raw_record) :
  flush (p ++ rs, c) = p ++ flush (rs, c).
Proof. unfold flush. cbn [fst snd]. destruct c; [now rewrite app_assoc | reflexivity]. Qed.

(** Records already in [records] are carried along untouched. *)
Lemma step_prefix (p rs rs' : list raw_record) (c c' : option raw_record)
    (line : str) :
  step (rs, c) line = Ok (rs', c') ->
  step (p ++ rs, c) line = Ok (p ++ rs', c').
Proof.
  unfold step.
  destruct (date_rx_match (rstrip line)) as [[d rest]|].
  - destruct (map_amounts (findall (rstrip line))) as [[[w dp] b]|e];
      [|discriminate].
    cbn [bind]. rewrite flush_prefix. now intros [= <- <-].
  - cbn [fst snd]. destruct c as [r|]; now intros [= <- <-].
Qed.

Lemma run_prefix (lines : list str) (p rs rs' : list raw_record)
    (c c' : option raw_record) :
  run (rs, c) lines = Ok (rs', c') ->
  run (p ++ rs, c) lines = Ok (p ++ rs', c').
Proof.
  revert rs c. induction lines as [|l ls IH]; intros rs c; simpl.
  - now intros [= <- <-].
  - destruct (step (rs, c) l) as [[rs1 c1]|e] eqn:E; [|discriminate].
    rewrite (step_prefix p rs rs1 c c1 l E). simpl. apply IH.
Qed.

Lemma step_not_anchor_closed (rs : list raw_record) (line : str) :
  not_anchor line -> step (rs, None) line = Ok (rs, None).
Proof. unfold not_anchor, step. now intros ->. Qed.

Lemma run_not_anchor_closed (pre : list str) (rs : list raw_record) :
  Forall not_anchor pre -> run (rs, None) pre = Ok (rs, None).
Proof.
  induction 1 as [|l pre Hl _ IH]; simpl; [reflexivity|].
  now rewrite (step_not_anchor_closed rs l Hl).
Qed.

(** X4.  Lines before the first anchor line leave no trace: a text and
    the same text without its leading non-anchor lines give the same
    records. *)
Theorem leading_lines_discarded (pre lines : list str) :
  Forall not_anchor pre -> parse_text (pre ++ lines) = parse_text lines.
Proof.
  intros H. unfold parse_text.
  now rewrite run_app, (run_not_anchor_closed pre [] H).
Qed.

Lemma leading_lines_discarded_witness :
  Forall not_anchor [L "HDFC BANK"; L "Statement of account"]
  /\ parse_text ([L "HDFC BANK"; L "Statement of account"]
                 ++ [L "01-01-2023 Salary 1,000.00 5,000.00"])
     = parse_text [L "01-01-2023 Salary 1,000.00 5,000.00"].
Proof.
  assert (H : Forall not_anchor [L "HDFC BANK"; L "Statement of account"])
    by (repeat constructor; vm_compute; reflexivity).
  split; [exact H|]. exact (leading_lines_discarded _ _ H).
Defined.

(** X5.  A text splits at any anchor line: the records of the whole are
    the records of the part before it followed by the records of the part
    that starts with it. *)
Theorem parse_text_splits_at_anchor (l1 l2 : list str) (a : str)
    (r1 r2 : list raw_record) :
  date_rx_match (rstrip a) <> None ->
  parse_text l1 = Ok r1 ->
  parse_text (a :: l2) = Ok r2 ->
  parse_text (l1 ++ a :: l2) = Ok (r1 ++ r2).
Proof.
  intros Ha H1 H2. unfold parse_text in *.
  destruct (date_rx_match (rstrip a)) as [[d rest]|] eqn:E; [|contradiction].
  rewrite run_app.
  destruct (run ([], None) l1) as [[rs1 c1]|e1]; [|discriminate].
  cbn [bind] in *. injection H1 as <-.
  cbn [run] in *.
  destruct (step_anchor ([], None) a d rest E) as (w & dp & b & S0).
  destruct (step_anchor (rs1, c1) a d rest E) as (w' & dp' & b' & S1).
  assert (Same : w' = w /\ dp' = dp /\ b' = b).
  { unfold step in S0, S1. rewrite E in S0, S1.
    destruct (map_amounts (findall (rstrip a))) as [[[x y] z]|]; [|discriminate].
    cbn [bind] in S0, S1. injection S0 as <- <- <-. injection S1 as <- <- <-.
    now repeat split. }
  destruct Same as (-> & -> & ->).
  rewrite S0 in H2. rewrite S1. cbn [bind] in *.
  set (r := {| transaction_date := d; description := strip rest;
               withdrawal_amount := w; deposit_amount := dp; balance := b |}) in *.
  change (flush ([], None)) with (@nil raw_record) in H2.
  destruct (run ([], Some r) l2) as [[rs2 c2]|e2] eqn:R2; [|discriminate].
  cbn [bind] in H2. injection H2 as <-.
  pose proof (run_prefix l2 (flush (rs1, c1)) [] rs2 (Some r) c2 R2) as R.
  rewrite app_nil_r in R. rewrite R. cbn [bind].
  now rewrite flush_prefix.
Qed.

Lemma parse_text_splits_at_anchor_witness :
  date_rx_match (rstrip (L "02-01-2023 Rent 500.00 4,500.00")) <> None
  /\ exists r1 r2,
       parse_text [L "01-01-2023 Salary 1,000.00 5,000.00"; L "credit"] = Ok r1
       /\ parse_text [L "02-01-2023 Rent 500.00 4,500.00"; L "paid"] = Ok r2
       /\ parse_text ([L "01-01-2023 Salary 1,000.00 5,000.00"; L "credit"]
                      ++ L "02-01-2023 Rent 500.00 4,500.00" :: [L "paid"])
          = Ok (r1 ++ r2).
Proof.
  assert (Ha : date_rx_match (rstrip (L "02-01-2023 Rent 500.00 4,500.00"))
               <> None) by (vm_compute; discriminate).
  split; [exact Ha|].
  destruct (parse_text_ok [L "01-01-2023 Salary 1,000.00 5,000.00"; L "credit"])
    as [r1 H1].
  destruct (parse_text_ok [L "02-01-2023 Rent 500.00 4,500.00"; L "paid"])
    as [r2 H2].
  exists r1, r2. split; [exact H1|]. split; [exact H2|].
  exact (parse_text_splits_at_anchor _ _ _ r1 r2 Ha H1 H2).
Defined.

Lemma step_dates (st st' : pstate) (line : str) :
  step st line = Ok st' ->
  map transaction_date (flush st')
  = map transaction_date (flush st) ++ anchor_dates [line].
Proof.
  unfold anchor_dates. cbn [flat_map]. rewrite app_nil_r.
  destruct (date_rx_match (rstrip line)) as [[d rest]|] eqn:E.
  - destruct (step_anchor st line d rest E) as (w & dp & b & ->).
    intros [= <-]. unfold flush at 1. cbn [fst snd].
    now rewrite map_app.
  - unfold step. rewrite E. rewrite app_nil_r.
    destruct st as [rs [c|]]; cbn [fst snd]; intros [= <-]; unfold flush;
      cbn [fst snd]; [|reflexivity].
    now rewrite !map_app.
Qed.

Lemma anchor_dates_cons (l : str) (ls : list str) :
  anchor_dates (l :: ls) = anchor_dates [l] ++ anchor_dates ls.
Proof. unfold anchor_dates. cbn [flat_map]. now rewrite app_nil_r. Qed.

Lemma run_dates (lines : list str) (st st' : pstate) :
  run st lines = Ok st' ->
  map transaction_date (flush st')
  = map transaction_date (flush st) ++ anchor_dates lines.
Proof.
  revert st. induction lines as [|l ls IH]; intros st; cbn [run].
  - intros [= <-]. unfold anchor_dates. cbn [flat_map]. now rewrite app_nil_r.
  - destruct (step st l) as [st1|e] eqn:E; [|discriminate]. cbn [bind].
    intros R. rewrite (IH st1 R), (step_dates st st1 l E).
    rewrite (anchor_dates_cons l ls). now rewrite app_assoc.
Qed.

(** X6.  The text parser returns on every text, with exactly one record
    per anchor line: the date texts of the records are the date texts of
    the anchor lines, in the order of the text.  In particular the output
    is empty exactly when no line is an anchor line. *)
Theorem one_record_per_anchor_line (lines : list str) :
  exists recs,
    parse_text lines = Ok recs
    /\ map transaction_date recs = anchor_dates lines.
Proof.
  unfold parse_text.
  destruct (run_ok lines ([], None)) as [st R]. rewrite R. cbn [bind].
  exists (flush st). split; [reflexivity|].
  exact (run_dates lines ([], None) st R).
Qed.

Lemma step_not_anchor_open (rs : list raw_record) (c : raw_record)
    (line : str) :
  not_anchor line ->
  step (rs, Some c) line
  = Ok (rs, Some (set_description c
                    (description c ++ L " " ++ strip (rstrip line)))).
Proof. unfold not_anchor, step. now intros ->. Qed.

Lemma run_continuations (conts : list str) (rs : list raw_record)
    (c : raw_record) :
  Forall not_anchor conts ->
  run (rs, Some c) conts
  = Ok (rs, Some (set_description c
                    (append_lines (description c) (map rstrip conts)))).
Proof.
  intros H. revert c. induction H as [|l conts Hl _ IH]; intros c.
  - destruct c; reflexivity.
  - cbn [run]. rewrite (step_not_anchor_open rs c l Hl). cbn [bind].
    rewrite IH. reflexivity.
Qed.

(** X7.  One anchor line followed by lines that are not anchors is one
    record: its date text is the one of the anchor line and its
    description is the stripped text after the date to which each
    following line, stripped, is appended after one space. *)
Theorem anchor_block_is_one_record (a d rest : str) (conts : list str) :
  date_rx_match (rstrip a) = Some (d, rest) ->
  Forall not_anchor conts ->
  exists w dp b,
    parse_text (a :: conts)
    = Ok [{| transaction_date := d;
             description := append_lines (strip rest) (map rstrip conts);
             withdrawal_amount := w;
             deposit_amount := dp;
             balance := b |}].
Proof.
  intros Ha Hc. unfold parse_text. cbn [run].
  destruct (step_anchor ([], None) a d rest Ha) as (w & dp & b & ->).
  exists w, dp, b. cbn [bind]. change (flush ([], None)) with (@nil raw_record).
  now rewrite (run_continuations conts [] _ Hc).
Qed.

Lemma anchor_block_is_one_record_witness :
  date_rx_match (rstrip (L "01-01-2023 Salary"))
    = Some (L "01-01-2023", L " Salary")
  /\ Forall not_anchor [L "  credit  "; L "from employer"]
  /\ exists w dp b,
       parse_text (L "01-01-2023 Salary" :: [L "  credit  "; L "from employer"])
       = Ok [{| transaction_date := L "01-01-2023";
                description :=
                  append_lines (strip (L " Salary"))
                    (map rstrip [L "  credit  "; L "from employer"]);
                withdrawal_amount := w;
                deposit_amount := dp;
                balance := b |}].
Proof.
  assert (Ha : date_rx_match (rstrip (L "01-01-2023 Salary"))
               = Some (L "01-01-2023", L " Salary")) by (vm_compute; reflexivity).
  assert (Hc : Forall not_anchor [L "  credit  "; L "from employer"])
    by (repeat constructor; vm_compute; reflexivity).
  split; [exact Ha|]. split; [exact Hc|].
  exact (anchor_block_is_one_record _ _ _ _ Ha Hc).
Defined.

Lemma neg_index_in {A} (l : list A) (k : nat) (a : A) :
  neg_index l k = Ok a -> In a l.
Proof.
  unfold neg_index. destruct (k <=? length l); [|discriminate].
  destruct (nth_error l (length l - k)) as [x|] eqn:E; [|discriminate].
  intros [= <-]. exact (nth_error_In _ _ E).
Qed.

Lemma clean_nth_last_token (s : str) (k : nat) :
  1 <= k <= length (findall s) ->
  exists q, clean_nth_last (findall s) k = Ok (Some q).
Proof.
  intros H. unfold clean_nth_last.
  destruct (neg_index_ok (findall s) k H) as [t Ht]. rewrite Ht. cbn [bind].
  pose proof (neg_index_in _ _ _ Ht) as Hin.
  apply findall_from_tokens in Hin. destruct Hin as [s' Hs'].
  apply amount_at_cleans in Hs'. destruct Hs' as [q Hq].
  exists q. now rewrite clean_amount_filtered, Hq.
Qed.

(** On an anchor line all three amounts are set. *)
Lemma step_anchor_amounts (st : pstate) (line d rest : str) :
  date_rx_match (rstrip line) = Some (d, rest) ->
  exists w dp b,
    step st line =
    Ok (flush st,
        Some {| transaction_date := d; description := strip rest;
                withdrawal_amount := Some w; deposit_amount := Some dp;
                balance := Some b |}).
Proof.
  intros H. unfold step. rewrite H.
  pose proof (anchor_line_has_three_tokens _ _ _ H) as H3.
  unfold map_amounts. rewrite (proj2 (Nat.leb_le _ _) H3).
  destruct (clean_nth_last_token (rstrip line) 3) as [w ->]; [lia|].
  destruct (clean_nth_last_token (rstrip line) 2) as [dp ->]; [lia|].
  destruct (clean_nth_last_token (rstrip line) 1) as [b ->]; [lia|].
  now exists w, dp, b.
Qed.

Lemma flush_amounts (st : pstate) :
  all_have_amounts st -> Forall has_all_amounts (flush st).
Proof.
  intros [H1 H2]. unfold flush. destruct (snd st) as [c|]; [|exact H1].
  apply Forall_app. split; [exact H1|]. constructor; [now apply H2|constructor].
Qed.

Lemma step_amounts (st st' : pstate) (line : str) :
  all_have_amounts st -> step st line = Ok st' -> all_have_amounts st'.
Proof.
  intros Hst.
  destruct (date_rx_match (rstrip line)) as [[d rest]|] eqn:E.
  - destruct (step_anchor_amounts st line d rest E) as (w & dp & b & ->).
    intros [= <-]. split; [now apply flush_amounts|].
    cbn [snd]. intros c [= <-]. repeat split; discriminate.
  - unfold step. rewrite E. destruct Hst as [H1 H2].
    destruct (snd st) as [c|] eqn:Ec.
    + intros [= <-]. split; [exact H1|]. cbn [snd]. intros c' [= <-].
      exact (H2 c eq_refl).
    + intros [= <-]. split; [exact H1|]. intros c Hc. congruence.
Qed.

Lemma run_amounts (lines : list str) (st st' : pstate) :
  all_have_amounts st -> run st lines = Ok st' -> all_have_amounts st'.
Proof.
  revert st. induction lines as [|l ls IH]; intros st Hst; simpl.
  - now intros [= <-].
  - destruct (step st l) as [st1|e] eqn:E; [|discriminate]. simpl.
    apply IH. exact (step_amounts st st1 l Hst E).
Qed.

(** X8.  The text parser never leaves an amount empty: in every record
    it emits, withdrawal, deposit and balance are all numbers, however few
    amounts the anchor line shows after its date. *)
Theorem heuristic_amounts_never_null
    (lines : list str) (recs : list raw_record) (r : raw_record) :
  parse_text lines = Ok recs -> In r recs -> has_all_amounts r.
Proof.
  unfold parse_text.
  destruct (run ([], None) lines) as [st|e] eqn:E; [|discriminate].
  intros [= <-] Hin.
  assert (H : all_have_amounts st).
  { apply (run_amounts lines ([], None) st); [|exact E].
    split; [constructor | discriminate]. }
  apply flush_amounts in H. rewrite Forall_forall in H. exact (H r Hin).
Qed.

Lemma heuristic_amounts_never_null_witness :
  parse_text [L "01-01-2023 Opening balance"]
  = Ok [{| transaction_date := L "01-01-2023";
           description := L "Opening balance";
           withdrawal_amount := Some (Finite (1 # 1));
           deposit_amount := Some (Finite (202 # 1));
           balance := Some (Finite (3 # 1)) |}]
  /\ has_all_amounts
       {| transaction_date := L "01-01-2023";
          description := L "Opening balance";
          withdrawal_amount := Some (Finite (1 # 1));
          deposit_amount := Some (Finite (202 # 1));
          balance := Some (Finite (3 # 1)) |}.
Proof.
  split; [vm_compute; reflexivity|].
  apply (heuristic_amounts_never_null [L "01-01-2023 Opening balance"]
           [{| transaction_date := L "01-01-2023";
               description := L "Opening balance";
               withdrawal_amount := Some (Finite (1 # 1));
               deposit_amount := Some (Finite (202 # 1));
               balance := Some (Finite (3 # 1)) |}]).
  - vm_compute. reflexivity.
  - left. reflexivity.
Defined.

(** ** More on the structured table extractor *)

Lemma space_not_digit (c : ascii) : is_space c = true -> is_digit c = false.
Proof. each_char c. Qed.

Lemma space_not_sep (c : ascii) : is_space c = true -> is_sep c = false.
Proof. each_char c. Qed.

Lemma date_at_non_digit (c : ascii) (s : str) :
  is_digit c = false -> date_at (c :: s) = None.
Proof.
  intros H. destruct s as [|d2 [|s1 [|m1 [|m2 [|s2 tl]]]]]; try reflexivity.
  cbn [date_at]. now rewrite H.
Qed.

Lemma date_search_lstrip (s : str) : date_search (lstrip s) = date_search s.
Proof.
  unfold lstrip. induction s as [|c s IH]; [reflexivity|].
  cbn [drop_while]. destruct (is_space c) eqn:E; [|reflexivity].
  rewrite IH. cbn [date_search].
  now rewrite (date_at_non_digit c s (space_not_digit c E)).
Qed.

Lemma take_digits_snoc (k : nat) (s : str) (c : ascii) :
  is_digit c = false -> take_digits k (s ++ [c]) = take_digits k s.
Proof.
  intros H. revert s. induction k as [|k IH]; intros [|x s]; cbn [app take_digits];
    try reflexivity.
  - now rewrite H.
  - destruct (is_digit x); [now rewrite IH | reflexivity].
Qed.

Lemma date_at_snoc (s : str) (c : ascii) :
  is_space c = true -> date_at (s ++ [c]) = date_at s.
Proof.
  intros H.
  pose proof (space_not_digit c H) as Hd. pose proof (space_not_sep c H) as Hs.
  destruct s as [|d1 [|d2 [|s1 [|m1 [|m2 [|s2 tl]]]]]]; try reflexivity.
  - cbn [app date_at]. rewrite Hs.
    now rewrite !andb_false_r.
  - cbn [app date_at]. now rewrite (take_digits_snoc 4 tl c Hd).
Qed.

Lemma date_search_snoc (s : str) (c : ascii) :
  is_space c = true -> date_search (s ++ [c]) = date_search s.
Proof.
  intros H. induction s as [|x s IH].
  - cbn [app date_search].
    now rewrite (date_at_non_digit c [] (space_not_digit c H)).
  - change ((x :: s) ++ [c]) with (x :: (s ++ [c])).
    cbn [date_search].
    change (x :: (s ++ [c])) with ((x :: s) ++ [c]).
    now rewrite (date_at_snoc (x :: s) c H), IH.
Qed.

Lemma date_search_app_spaces (ws s : str) :
  forallb is_space ws = true -> date_search (s ++ ws) = date_search s.
Proof.
  revert s. induction ws as [|c ws IH]; intros s H.
  - now rewrite app_nil_r.
  - cbn [forallb] in H. apply andb_true_iff in H. destruct H as [Hc Hws].
    change (s ++ c :: ws) with (s ++ [c] ++ ws). rewrite app_assoc.
    now rewrite (IH (s ++ [c]) Hws), date_search_snoc.
Qed.

Lemma rstrip_split (s : str) :
  exists ws, s = rstrip s ++ ws /\ forallb is_space ws = true.
Proof.
  unfold rstrip.
  destruct (take_drop_while is_space (rev s)) as [E H].
  exists (rev (take_while is_space (rev s))). split.
  - rewrite <- rev_app_distr, <- E. now rewrite rev_involutive.
  - rewrite forallb_forall in *. intros x Hx. apply H. now apply in_rev.
Qed.

Lemma date_search_rstrip (s : str) : date_search (rstrip s) = date_search s.
Proof.
  destruct (rstrip_split s) as (ws & E & H).
  rewrite E at 2. symmetry. now apply date_search_app_spaces.
Qed.

(** Stripping a cell (line 125) does not change what the date pattern
    finds in it. *)
Lemma date_search_strip (s : str) : date_search (strip s) = date_search s.
Proof. unfold strip. now rewrite date_search_rstrip, date_search_lstrip. Qed.

Section StringTables.

Variable obj : Type.
Variable py_str : obj -> result str.

Lemma mapM_cell_str_sub (l : list str) (f : list (cell obj) -> list (cell obj))
    (g : list str -> list str) :
  f (map CStr l) = map CStr (g l) ->
  mapM (cell_str obj py_str) (f (map CStr l)) = Ok (g l).
Proof. intros ->. apply mapM_cell_str. Qed.

(** A row of strings never raises; it yields a record exactly when its
    first cell contains a date, and the record carries that date. *)
Lemma process_row_strings_total (first : str) (rest : list str) :
  match date_search first with
  | None =>
      process_row obj py_str (length (first :: rest))
        (map CStr (first :: rest)) = Ok None
  | Some d =>
      exists r,
        process_row obj py_str (length (first :: rest))
          (map CStr (first :: rest)) = Ok (Some r)
        /\ transaction_date r = d
  end.
Proof.
  set (l := first :: rest). set (n := length l).
  unfold process_row.
  replace (cell_at obj (map CStr l) 0) with (Ok (CStr (obj := obj) first))
    by reflexivity.
  cbn [bind cell_str].
  destruct (date_search first) as [d|]; [|reflexivity].
  destruct (4 <=? n) eqn:E4.
  - apply Nat.leb_le in E4.
    rewrite !slice_map, skipn_map.
    replace (if 4 <? n
             then map (CStr (obj := obj)) (slice 1 (n - 3) l)
             else map CStr (slice 1 (n - 2) l))
      with (map (CStr (obj := obj))
              (if 4 <? n then slice 1 (n - 3) l else slice 1 (n - 2) l))
      by (destruct (4 <? n); reflexivity).
    rewrite !mapM_cell_str. cbn [bind].
    assert (Ht : length (skipn (n - 3) l) = 3)
      by (rewrite length_skipn; fold n; lia).
    destruct (skipn (n - 3) l) as [|a [|b [|c [|x t]]]]; try discriminate.
    cbn [neg_index length Nat.leb Nat.sub nth_error bind].
    rewrite !amount_cell_value. cbn [bind].
    eexists. split; reflexivity.
  - rewrite skipn_map, mapM_cell_str. cbn [bind].
    set (nums := findall (join (L " ") (skipn 1 l))).
    destruct (3 <=? length nums) eqn:E3.
    + apply Nat.leb_le in E3.
      destruct (clean_nth_last_ok nums 3) as [w ->]; [lia|].
      destruct (clean_nth_last_ok nums 2) as [dp ->]; [lia|].
      destruct (clean_nth_last_ok nums 1) as [b ->]; [lia|].
      cbn [bind]. eexists. split; reflexivity.
    + cbn [bind]. eexists. split; reflexivity.
Qed.

Lemma process_rows_strings (n : nat) (srows : list (list str)) :
  1 <= n ->
  Forall (fun r => length r = n) srows ->
  exists recs,
    process_rows obj py_str n (map (map CStr) srows) = Ok recs
    /\ map transaction_date recs = row_dates srows.
Proof.
  intros Hn H. induction H as [|r srows Hr _ (recs & IH & IHd)].
  - exists []. split; reflexivity.
  - destruct r as [|first rest]; [simpl in Hr; lia|].
    cbn [map process_rows].
    pose proof (process_row_strings_total first rest) as P.
    rewrite Hr in P. cbn [map] in P. unfold row_dates. cbn [flat_map]. fold (row_dates srows).
    destruct (date_search first) as [d|].
    + destruct P as (x & -> & Hx). cbn [bind]. rewrite IH. cbn [bind].
      exists (x :: recs). split; [reflexivity|]. cbn [map app].
      now rewrite Hx, IHd.
    + rewrite P. cbn [bind]. rewrite IH. cbn [bind].
      exists recs. split; [reflexivity|]. exact IHd.
Qed.

Lemma row_dates_strip (srows : list (list str)) :
  row_dates (map (map strip) srows) = row_dates srows.
Proof.
  unfold row_dates. induction srows as [|r srows IH]; [reflexivity|].
  cbn [map flat_map]. rewrite IH. destruct r as [|first rest]; [reflexivity|].
  cbn [map]. now rewrite date_search_strip.
Qed.

Lemma hits_strings (n : nat) (srows : list (list str)) :
  1 <= n ->
  Forall (fun r => length r = n) srows ->
  hits obj py_str {| ncols := n; rows := map (map CStr) srows |}
  = Ok (length (row_dates srows)).
Proof.
  intros Hn H. unfold hits. cbn [ncols rows].
  destruct n as [|n]; [lia|]. cbn [Nat.eqb].
  assert (E : forall k,
             mapM (fun r => c <- cell_at obj r 0 ;; cell_str obj py_str c)
               (map (map CStr) srows) = Ok k ->
             length (filter (fun v => match date_search v with
                                      | Some _ => true
                                      | None => false
                                      end) k) = length (row_dates srows)).
  { induction H as [|r srows Hr _ IH]; intros k.
    - intros [= <-]. reflexivity.
    - destruct r as [|first rest]; [simpl in Hr; lia|].
      cbn [map mapM cell_at nth_error bind cell_str].
      destruct (mapM _ (map (map CStr) srows)) as [k'|e]; [|discriminate].
      cbn [bind]. intros [= <-]. unfold row_dates. cbn [flat_map filter].
      fold (row_dates srows).
      destruct (date_search first); cbn [length app]; now rewrite (IH k' eq_refl). }
  assert (T : exists k,
             mapM (fun r => c <- cell_at obj r 0 ;; cell_str obj py_str c)
               (map (map CStr) srows) = Ok k).
  { clear E. induction H as [|r srows Hr _ (k & IH)].
    - now exists [].
    - destruct r as [|first rest]; [simpl in Hr; lia|].
      cbn [map mapM cell_at nth_error bind cell_str]. rewrite IH. cbn [bind].
      eexists. reflexivity. }
  destruct T as [k Hk]. rewrite Hk. cbn [bind]. now rewrite (E k Hk).
Qed.

(** X9.  In a table whose cells are all strings no row raises, and the
    table yields exactly one record per row whose first cell contains a
    date, in row order, each with the date found: as many records as the
    table had date hits.  A table with two or more hits is therefore the
    one whose records are returned. *)
Theorem string_table_records (n : nat) (srows : list (list str))
    (ts : list (table obj)) :
  1 <= n ->
  Forall (fun r => length r = n) srows ->
  exists recs,
    hits obj py_str {| ncols := n; rows := map (map CStr) srows |}
      = Ok (length recs)
    /\ process_rows obj py_str n
         (map (map (strip_cell obj)) (map (map CStr) srows)) = Ok recs
    /\ map transaction_date recs = row_dates srows
    /\ (2 <= length recs ->
        scan_tables obj py_str
          ({| ncols := n; rows := map (map CStr) srows |} :: ts)
        = Ok (Some recs)).
Proof.
  intros Hn H.
  assert (S : map (map (strip_cell obj)) (map (map CStr) srows)
              = map (map CStr) (map (map strip) srows)).
  { rewrite !map_map. apply map_ext. intros r. apply strip_cells. }
  assert (H' : Forall (fun r => length r = n) (map (map strip) srows)).
  { rewrite Forall_map. eapply Forall_impl; [|exact H].
    intros r Hr. now rewrite length_map. }
  destruct (process_rows_strings n _ Hn H') as (recs & P & D).
  rewrite row_dates_strip in D.
  assert (Hh : hits obj py_str {| ncols := n; rows := map (map CStr) srows |}
               = Ok (length recs)).
  { rewrite (hits_strings n srows Hn H), <- D. now rewrite length_map. }
  exists recs. split; [exact Hh|]. split; [now rewrite S|]. split; [exact D|].
  intros H2. cbn [scan_tables]. rewrite Hh. cbn [bind ncols rows].
  rewrite (proj2 (Nat.leb_le _ _) H2), S, P. cbn [bind].
  destruct recs; [simpl in H2; lia | reflexivity].
Qed.

Variable frame : Type.
Variable to_frame : list raw_record -> result frame.
Variable empty_frame : frame.

(** X10.  Tables with fewer than two date hits are never used: when no
    table reaches two hits the result is the one of the text strategy. *)
Theorem no_table_qualifies (ts : list (table obj)) (lines : list str) :
  Forall (fun t => exists h, hits obj py_str t = Ok h /\ h < 2) ts ->
  extract_transactions obj py_str frame to_frame empty_frame true (Ok ts) lines
  = text_strategy frame to_frame empty_frame lines.
Proof.
  intros H. unfold extract_transactions, table_strategy. cbn [bind].
  rewrite <- (app_nil_r ts), (scan_tables_skip obj py_str ts [] H).
  reflexivity.
Qed.

End StringTables.

Lemma string_table_records_witness :
  1 <= 5
  /\ Forall (fun r => length r = 5)
       [[L "Date"; L "Narration"; L "Debit"; L "Credit"; L "Balance"];
        [L " 01-01-2023 "; L "Salary"; L ""; L "1,000.00"; L "5,000.00"];
        [L "02-01-2023"; L "Rent"; L "500.00"; L ""; L "4,500.00"]]
  /\ exists recs,
       hits unit (fun _ => Raise OtherError)
         {| ncols := 5;
            rows := map (map CStr)
              [[L "Date"; L "Narration"; L "Debit"; L "Credit"; L "Balance"];
               [L " 01-01-2023 "; L "Salary"; L ""; L "1,000.00"; L "5,000.00"];
               [L "02-01-2023"; L "Rent"; L "500.00"; L ""; L "4,500.00"]] |}
         = Ok (length recs)
       /\ process_rows unit (fun _ => Raise OtherError) 5
            (map (map (strip_cell unit)) (map (map CStr)
              [[L "Date"; L "Narration"; L "Debit"; L "Credit"; L "Balance"];
               [L " 01-01-2023 "; L "Salary"; L ""; L "1,000.00"; L "5,000.00"];
               [L "02-01-2023"; L "Rent"; L "500.00"; L ""; L "4,500.00"]]))
          = Ok recs
       /\ map transaction_date recs
          = row_dates
              [[L "Date"; L "Narration"; L "Debit"; L "Credit"; L "Balance"];
               [L " 01-01-2023 "; L "Salary"; L ""; L "1,000.00"; L "5,000.00"];
               [L "02-01-2023"; L "Rent"; L "500.00"; L ""; L "4,500.00"]]
       /\ (2 <= length recs ->
           scan_tables unit (fun _ => Raise OtherError)
             ({| ncols := 5;
                 rows := map (map CStr)
                   [[L "Date"; L "Narration"; L "Debit"; L "Credit"; L "Balance"];
                    [L " 01-01-2023 "; L "Salary"; L ""; L "1,000.00"; L "5,000.00"];
                    [L "02-01-2023"; L "Rent"; L "500.00"; L ""; L "4,500.00"]] |}
              :: [])
           = Ok (Some recs)).
Proof.
  assert (Hn : 1 <= 5) by lia.
  assert (H : Forall (fun r => length r = 5)
       [[L "Date"; L "Narration"; L "Debit"; L "Credit"; L "Balance"];
        [L " 01-01-2023 "; L "Salary"; L ""; L "1,000.00"; L "5,000.00"];
        [L "02-01-2023"; L "Rent"; L "500.00"; L ""; L "4,500.00"]])
    by (repeat constructor).
  split; [exact Hn|]. split; [exact H|].
  exact (string_table_records unit (fun _ => Raise OtherError) 5 _ [] Hn H).
Defined.

Lemma no_table_qualifies_witness :
  Forall (fun t => exists h, hits unit (fun _ => Raise OtherError) t = Ok h /\ h < 2)
    [{| ncols := 2;
        rows := map (map CStr) [[L "Opening date"; L "01-01-2023"];
                                [L "01-01-2023"; L "one dated row"]] |}]
  /\ extract_transactions unit (fun _ => Raise OtherError)
       (list raw_record) Ok [] true
       (Ok [{| ncols := 2;
               rows := map (map CStr) [[L "Opening date"; L "01-01-2023"];
                                       [L "01-01-2023"; L "one dated row"]] |}])
       [L "01-01-2023 Salary 1,000.00 5,000.00"]
     = text_strategy (list raw_record) Ok []
         [L "01-01-2023 Salary 1,000.00 5,000.00"].
Proof.
  assert (H : Forall (fun t => exists h,
                        hits unit (fun _ => Raise OtherError) t = Ok h /\ h < 2)
    [{| ncols := 2;
        rows := map (map CStr) [[L "Opening date"; L "01-01-2023"];
                                [L "01-01-2023"; L "one dated row"]] |}]).
  { repeat constructor. exists 1. split; [vm_compute; reflexivity | lia]. }
  split; [exact H|].
  exact (no_table_qualifies unit (fun _ => Raise OtherError)
           (list raw_record) Ok [] _ _ H).
Defined.

(** ** More on the flag engine *)

Lemma search_literal_from (w s : str) (prev : option ascii) :
  search_from (literal_at w) prev s = true <-> ci_substring w s.
Proof.
  unfold ci_substring. revert prev. induction s as [|c s IH]; intros prev.
  - cbn [search_from]. rewrite orb_false_r. unfold literal_at.
    destruct (ci_prefix w []) as [[m r]|] eqn:P.
    + apply ci_prefix_iff in P. destruct P as [E Hm].
      split; [|reflexivity]. intros _. now exists [], m, r.
    + split; [discriminate|]. intros (pre & m & post & E & Hm).
      destruct pre; [|discriminate]. cbn [app] in E.
      assert (P' : ci_prefix w [] = Some (m, post)) by (apply ci_prefix_iff; now split).
      congruence.
  - cbn [search_from]. rewrite orb_true_iff, IH. unfold literal_at. split.
    + intros [H | (pre & m & post & -> & Hm)].
      * destruct (ci_prefix w (c :: s)) as [[m r]|] eqn:P; [|discriminate].
        apply ci_prefix_iff in P. destruct P as [E Hm]. now exists [], m, r.
      * now exists (c :: pre), m, post.
    + intros (pre & m & post & E & Hm). destruct pre as [|c' pre].
      * left. cbn [app] in E.
        now rewrite (proj2 (ci_prefix_iff w (c :: s) m post) (conj E Hm)).
      * right. cbn [app] in E. injection E as <- ->. now exists pre, m, post.
Qed.

(** X11.  The large-deposit flag of a row is set exactly when the deposit
    is a number above 50,000 (a missing one never sets it) and the
    description contains [RTGS] somewhere, case-insensitively: unlike
    [DD], the letters need not stand as a word of their own. *)
Theorem large_deposit_flag (r : tx_row) :
  flag_RTGS_large_deposit (flag_row r) = true <->
  (exists v, row_deposit r = Some (Num v) /\ (50000 < v)%Q)
  /\ ci_substring (L "RTGS") (row_description r).
Proof.
  cbn [flag_row flag_RTGS_large_deposit].
  rewrite andb_true_iff, gt_or_zero_iff by (unfold Qle; simpl; lia).
  unfold RTGS_RE, re_search. now rewrite search_literal_from.
Qed.

Lemma lower_idempotent (c : ascii) : lower (lower c) = lower c.
Proof. each_char c. Qed.

Lemma ci_eqb_lower (c p : ascii) : ci_eqb (lower c) p = ci_eqb c p.
Proof. unfold ci_eqb. now rewrite lower_idempotent. Qed.

Lemma opt_word_lower (x : option ascii) :
  opt_word (option_map lower x) = opt_word x.
Proof. destruct x as [c|]; [apply is_word_lower | reflexivity]. Qed.

Lemma hd_error_map {A B} (f : A -> B) (l : list A) :
  hd_error (map f l) = option_map f (hd_error l).
Proof. destruct l; reflexivity. Qed.

Lemma last_char_lower (s : str) :
  last_char (map lower s) = option_map lower (last_char s).
Proof. unfold last_char. now rewrite <- map_rev, hd_error_map. Qed.

Lemma char_before_lower (prev : option ascii) (m : str) :
  char_before (option_map lower prev) (map lower m)
  = option_map lower (char_before prev m).
Proof.
  unfold char_before. rewrite last_char_lower.
  destruct (last_char m); reflexivity.
Qed.

Lemma ci_prefix_lower (w s : str) :
  ci_prefix w (map lower s)
  = match ci_prefix w s with
    | Some (m, r) => Some (map lower m, map lower r)
    | None => None
    end.
Proof.
  revert s. induction w as [|p w IH]; intros s; [reflexivity|].
  destruct s as [|c s]; [reflexivity|].
  cbn [map ci_prefix]. rewrite ci_eqb_lower, IH.
  destruct (ci_eqb c p); [|reflexivity].
  destruct (ci_prefix w s) as [[m r]|]; reflexivity.
Qed.

Lemma words_at_lower (ws : list str) (prev : option ascii) (s : str) :
  words_at ws (option_map lower prev) (map lower s) = words_at ws prev s.
Proof.
  unfold words_at, boundary.
  rewrite hd_error_map, !opt_word_lower. f_equal.
  induction ws as [|w ws IH]; [reflexivity|].
  cbn [existsb]. rewrite IH, ci_prefix_lower. f_equal.
  destruct (ci_prefix w s) as [[m r]|]; [|reflexivity].
  now rewrite char_before_lower, hd_error_map, !opt_word_lower.
Qed.

Lemma literal_at_lower (w : str) (prev : option ascii) (s : str) :
  literal_at w (option_map lower prev) (map lower s) = literal_at w prev s.
Proof.
  unfold literal_at. rewrite ci_prefix_lower.
  destruct (ci_prefix w s) as [[m r]|]; reflexivity.
Qed.

Lemma search_from_lower (at_pos : option ascii -> str -> bool) (s : str)
    (prev : option ascii) :
  (forall p t, at_pos (option_map lower p) (map lower t) = at_pos p t) ->
  search_from at_pos (option_map lower prev) (map lower s)
  = search_from at_pos prev s.
Proof.
  intros H. revert prev. induction s as [|c s IH]; intros prev.
  - pose proof (H prev []) as H0. cbn [map] in H0.
    cbn [map search_from]. now rewrite H0.
  - pose proof (H prev (c :: s)) as H0. cbn [map] in H0.
    pose proof (IH (Some c)) as H1. cbn [option_map] in H1.
    cbn [map search_from]. now rewrite H0, H1.
Qed.

Lemma same_up_to_case_lower (s t : str) :
  same_up_to_case s t -> map lower s = map lower t.
Proof. induction 1 as [|a b s t E _ IH]; cbn [map]; [reflexivity|]. now rewrite E, IH. Qed.

Lemma re_search_case (at_pos : option ascii -> str -> bool) (s t : str) :
  (forall p u, at_pos (option_map lower p) (map lower u) = at_pos p u) ->
  same_up_to_case s t ->
  re_search at_pos s = re_search at_pos t.
Proof.
  intros H E. unfold re_search.
  rewrite <- (search_from_lower at_pos s None H).
  rewrite <- (search_from_lower at_pos t None H).
  now rewrite (same_up_to_case_lower s t E).
Qed.

(** X12.  The three flags do not depend on the case of the letters of
    the description: two rows with the same amounts whose descriptions
    differ only in case get the same flags. *)
Theorem flags_ignore_case (r r' : tx_row) :
  same_up_to_case (row_description r) (row_description r') ->
  row_withdrawal r = row_withdrawal r' ->
  row_deposit r = row_deposit r' ->
  flag_row r = flag_row r'.
Proof.
  intros E Hw Hd. unfold flag_row. rewrite Hw, Hd.
  rewrite (re_search_case DD_RE _ _ (words_at_lower _) E).
  rewrite (re_search_case RTGS_RE _ _ (literal_at_lower _) E).
  rewrite (re_search_case ENTITY_RE _ _ (words_at_lower _) E).
  reflexivity.
Qed.

Lemma flags_ignore_case_witness :
  same_up_to_case (L "rtgs from Coal India dd 12") (L "RTGS FROM COAL INDIA DD 12")
  /\ flag_row {| row_description := L "rtgs from Coal India dd 12";
                 row_withdrawal := Some (Num 20000);
                 row_deposit := Some (Num 60000) |}
     = flag_row {| row_description := L "RTGS FROM COAL INDIA DD 12";
                   row_withdrawal := Some (Num 20000);
                   row_deposit := Some (Num 60000) |}.
Proof.
  assert (E : same_up_to_case (L "rtgs from Coal India dd 12")
                (L "RTGS FROM COAL INDIA DD 12"))
    by (repeat constructor).
  split; [exact E|].
  exact (flags_ignore_case
           {| row_description := L "rtgs from Coal India dd 12";
              row_withdrawal := Some (Num 20000);
              row_deposit := Some (Num 60000) |}
           {| row_description := L "RTGS FROM COAL INDIA DD 12";
              row_withdrawal := Some (Num 20000);
              row_deposit := Some (Num 60000) |}
           E eq_refl eq_refl).
Defined.

(** ** More on date parsing *)

Lemma strptime_invalid (f : list directive) (s : str) (d : date) :
  match_fmt f {| year := 1900; month := 1; day := 1 |} s = Some (d, []) ->
  valid_date (year d) (month d) (day d) = false ->
  strptime s f = Raise ValueError.
Proof. intros E V. unfold strptime. now rewrite E, V. Qed.

Lemma strptime_leftover (f : list directive) (s rest : str) (d : date)
    (c : ascii) :
  match_fmt f {| year := 1900; month := 1; day := 1 |} s = Some (d, c :: rest) ->
  strptime s f = Raise ValueError.
Proof. intros E. unfold strptime. now rewrite E. Qed.

Section Rendered.

Variables (y m dd : N).
Hypothesis Hy : (1 <= y <= 9999)%N.
Hypothesis Hm : (1 <= m <= 12)%N.
Hypothesis Hd : (1 <= dd <= 31)%N.

Let d : date := {| year := y; month := m; day := dd |}.

Variable x : ascii.
Hypothesis Hx : is_digit x = false.

Lemma fields_dmY (acc : date) :
  match_fmt [Dd; Lit x; Dm; Lit x; DY] acc
    (render [Dd; Lit x; Dm; Lit x; DY] d)
  = Some ({| year := y; month := m; day := dd |}, []).
Proof using All.
  cbn [render concat map render_directive app year month day d].
  rewrite (match_day_lit dd x _ acc _ Hd Hx).
  rewrite (match_month_lit m x _ _ _ Hm Hx).
  rewrite match_year by lia. reflexivity.
Qed.

Lemma fields_dmy (acc : date) :
  (1969 <= y <= 2068)%N ->
  match_fmt [Dd; Lit x; Dm; Lit x; Dy] acc
    (render [Dd; Lit x; Dm; Lit x; Dy] d)
  = Some ({| year := y; month := m; day := dd |}, []).
Proof using All.
  intros Hw.
  cbn [render concat map render_directive app year month day d].
  rewrite (match_day_lit dd x _ acc _ Hd Hx).
  rewrite (match_month_lit m x _ _ _ Hm Hx).
  cbn [match_fmt]. rewrite re_y_two_digits by lia. reflexivity.
Qed.

Lemma fields_Ymd (acc : date) :
  match_fmt [DY; Lit x; Dm; Lit x; Dd] acc
    (render [DY; Lit x; Dm; Lit x; Dd] d)
  = Some ({| year := y; month := m; day := dd |}, []).
Proof using All.
  cbn [render concat map render_directive app year month day d].
  rewrite match_year by lia. rewrite match_lit.
  rewrite (match_month_lit m x _ _ _ Hm Hx).
  cbn [match_fmt].
  destruct (re_d_two_digits dd [] Hd) as (tl & -> & _). reflexivity.
Qed.

(** A two-digit year field reads the first half of a four-digit year and
    leaves the second half over. *)
Lemma fields_y_on_Y (acc : date) :
  exists d' c rest,
    match_fmt [Dd; Lit x; Dm; Lit x; Dy] acc
      (render [Dd; Lit x; Dm; Lit x; DY] d) = Some (d', c :: rest).
Proof using All.
  cbn [render concat map render_directive app year month day d].
  rewrite (match_day_lit dd x _ acc _ Hd Hx).
  rewrite (match_month_lit m x _ _ _ Hm Hx).
  unfold four_digits.
  assert (Hh : (y / 100 < 100)%N) by (apply N.Div0.div_lt_upper_bound; lia).
  assert (Hl : (y mod 100 < 100)%N) by (apply N.mod_lt; lia).
  destruct (two_digits_digits _ Hh) as (a & b & -> & Ha & Hb & _).
  destruct (two_digits_digits _ Hl) as (c & e & -> & Hc & He & _).
  cbn [app match_fmt re_y]. rewrite Ha, Hb. cbn [andb first_some fst snd].
  eexists. eexists. eexists. reflexivity.
Qed.

Lemma fields_Y_on_y (acc : date) :
  match_fmt [Dd; Lit x; Dm; Lit x; DY] acc
    (render [Dd; Lit x; Dm; Lit x; Dy] d) = None.
Proof using All.
  cbn [render concat map render_directive app year month day d].
  rewrite (match_day_lit dd x _ acc _ Hd Hx).
  rewrite (match_month_lit m x _ _ _ Hm Hx).
  reflexivity.
Qed.

Lemma fields_separator (x' : ascii) (acc : date) (f g : list directive) :
  Ascii.eqb x' x = false ->
  match_fmt (Dd :: Lit x :: f) acc (render (Dd :: Lit x' :: g) d) = None.
Proof using All.
  intros Hne.
  cbn [render concat map render_directive app year month day d].
  exact (match_day_wrong_lit dd x x' f acc _ Hd Hx Hne).
Qed.

Lemma fields_day_on_year (acc : date) (f g : list directive) :
  match_fmt (Dd :: Lit x :: f) acc (render (DY :: g) d) = None.
Proof using All.
  cbn [render concat map render_directive app year month day d].
  unfold four_digits.
  assert (Hh : (y / 100 < 100)%N) by (apply N.Div0.div_lt_upper_bound; lia).
  assert (Hl : (y mod 100 < 100)%N) by (apply N.mod_lt; lia).
  destruct (two_digits_digits _ Hh) as (a & b & -> & Ha & Hb & _).
  destruct (two_digits_digits _ Hl) as (c & e & -> & Hc & He & _).
  cbn [app]. now apply match_day_on_digits.
Qed.

(** A year field does not match a text that starts with a day and a
    separator. *)
Lemma fields_year_on_day (acc : date) (f g : list directive) :
  match_fmt (DY :: f) acc (render (Dd :: Lit x :: Dm :: g) d) = None.
Proof using All.
  cbn [render concat map render_directive app year month day d].
  assert (Hd' : (dd < 100)%N) by lia.
  assert (Hm' : (m < 100)%N) by lia.
  destruct (two_digits_digits _ Hd') as (a & b & -> & Ha & Hb & _).
  destruct (two_digits_digits _ Hm') as (c & e & -> & Hc & He & _).
  cbn [app match_fmt re_Y]. rewrite Hx.
  now rewrite andb_false_r.
Qed.

Lemma strip_rendered (f : list directive) :
  In f formats -> strip (render f d) = render f d.
Proof using All.
  assert (Hh : (y / 100 < 100)%N) by (apply N.Div0.div_lt_upper_bound; lia).
  assert (Hl : (y mod 100 < 100)%N) by (apply N.mod_lt; lia).
  assert (Hm' : (m < 100)%N) by lia.
  assert (Hd' : (dd < 100)%N) by lia.
  destruct (two_digits_digits _ Hh) as (a & b & Eh & Ha & Hb & _).
  destruct (two_digits_digits _ Hl) as (c & e & El & Hc & He & _).
  destruct (two_digits_digits _ Hm') as (m1 & m2 & Em & Hm1 & Hm2 & _).
  destruct (two_digits_digits _ Hd') as (d1 & d2 & Ed & Hd1 & Hd2 & _).
  intros Hin. cbn [formats In] in Hin.
  destruct Hin as [<-|[<-|[<-|[<-|[<-|[]]]]]];
    cbn [render concat map render_directive app year month day d
         fmt_dmY_dash fmt_dmY_slash fmt_dmy_dash fmt_dmy_slash fmt_Ymd_dash];
    unfold four_digits; rewrite ?Eh, ?El, ?Em, ?Ed; cbn [app].
  - exact (strip_digit_ends d1 e [_; _; _; _; _; _; _; _] Hd1 He).
  - exact (strip_digit_ends d1 e [_; _; _; _; _; _; _; _] Hd1 He).
  - exact (strip_digit_ends d1 e [_; _; _; _; _; _] Hd1 He).
  - exact (strip_digit_ends d1 e [_; _; _; _; _; _] Hd1 He).
  - exact (strip_digit_ends a d2 [_; _; _; _; _; _; _; _] Ha Hd2).
Qed.

End Rendered.

(** X13.  A day that its month does not have (31 February, 29 February
    of a common year) is accepted by none of the five explicit formats,
    in whichever of them it is written: the answer is left to the
    permissive parse, and is null when that raises. *)
Theorem nonexistent_day_left_to_fallback
    (pd : str -> result (option date)) (f : list directive) (d : date) :
  In f formats -> nonexistent_day f d = true ->
  try_formats formats (render f d) = None
  /\ parse_date_try pd (render f d)
     = Ok (try_except (pd (render f d)) None).
Proof.
  intros Hin Hne.
  assert (T : try_formats formats (render f d) = None).
  2:{ split; [exact T|]. unfold parse_date_try. now rewrite T. }
  destruct d as [y m dd]. unfold nonexistent_day in Hne.
  cbn [year month day] in Hne.
  do 7 (apply andb_true_iff in Hne; destruct Hne as [Hne ?]).
  repeat match goal with
         | E : (_ <=? _)%N = true |- _ => apply N.leb_le in E
         end.
  match goal with
  | E : negb _ = true |- _ => apply negb_true_iff in E; rename E into Hv
  end.
  assert (Hy : (1 <= y <= 9999)%N) by lia.
  assert (Hm : (1 <= m <= 12)%N) by lia.
  assert (Hd : (1 <= dd <= 31)%N) by lia.
  pose proof not_digit_dash as ND. pose proof not_digit_slash as NS.
  pose proof (strip_rendered y m dd Hy Hm Hd "-" ND f Hin) as S.
  apply try_formats_none. rewrite S.
  set (init := {| year := 1900; month := 1; day := 1 |}).
  cbn [formats In] in Hin.
  destruct Hin as [<-|[<-|[<-|[<-|[<-|[]]]]]].
  - repeat constructor; eexists.
    + apply (strptime_invalid _ _ _ (fields_dmY y m dd Hy Hm Hd "-" ND init) Hv).
    + apply strptime_of_mismatch.
      now apply (fields_separator y m dd Hy Hm Hd "/" NS "-").
    + destruct (fields_y_on_Y y m dd Hy Hm Hd "-" ND init) as (d' & c & r & E).
      exact (strptime_leftover _ _ _ _ _ E).
    + apply strptime_of_mismatch.
      now apply (fields_separator y m dd Hy Hm Hd "/" NS "-").
    + apply strptime_of_mismatch.
      apply (fields_year_on_day y m dd Hy Hm Hd "-" ND).
  - repeat constructor; eexists.
    + apply strptime_of_mismatch.
      now apply (fields_separator y m dd Hy Hm Hd "-" ND "/").
    + apply (strptime_invalid _ _ _ (fields_dmY y m dd Hy Hm Hd "/" NS init) Hv).
    + apply strptime_of_mismatch.
      now apply (fields_separator y m dd Hy Hm Hd "-" ND "/").
    + destruct (fields_y_on_Y y m dd Hy Hm Hd "/" NS init) as (d' & c & r & E).
      exact (strptime_leftover _ _ _ _ _ E).
    + apply strptime_of_mismatch.
      apply (fields_year_on_day y m dd Hy Hm Hd "/" NS).
  - cbn [existsb fmt_dmy_dash is_Dy orb] in *.
    match goal with
    | E : (_ && _)%bool = true |- _ =>
        apply andb_true_iff in E; destruct E as [W1 W2]
    end.
    apply N.leb_le in W1. apply N.leb_le in W2.
    repeat constructor; eexists.
    + apply strptime_of_mismatch.
      apply (fields_Y_on_y y m dd Hy Hm Hd "-" ND).
    + apply strptime_of_mismatch.
      now apply (fields_separator y m dd Hy Hm Hd "/" NS "-").
    + refine (strptime_invalid _ _ _
                (fields_dmy y m dd Hy Hm Hd "-" ND init _) Hv). lia.
    + apply strptime_of_mismatch.
      now apply (fields_separator y m dd Hy Hm Hd "/" NS "-").
    + apply strptime_of_mismatch.
      apply (fields_year_on_day y m dd Hy Hm Hd "-" ND).
  - cbn [existsb fmt_dmy_slash is_Dy orb] in *.
    match goal with
    | E : (_ && _)%bool = true |- _ =>
        apply andb_true_iff in E; destruct E as [W1 W2]
    end.
    apply N.leb_le in W1. apply N.leb_le in W2.
    repeat constructor; eexists.
    + apply strptime_of_mismatch.
      now apply (fields_separator y m dd Hy Hm Hd "-" ND "/").
    + apply strptime_of_mismatch.
      apply (fields_Y_on_y y m dd Hy Hm Hd "/" NS).
    + apply strptime_of_mismatch.
      now apply (fields_separator y m dd Hy Hm Hd "-" ND "/").
    + refine (strptime_invalid _ _ _
                (fields_dmy y m dd Hy Hm Hd "/" NS init _) Hv). lia.
    + apply strptime_of_mismatch.
      apply (fields_year_on_day y m dd Hy Hm Hd "-" ND).
  - repeat constructor; eexists.
    + apply strptime_of_mismatch.
      apply (fields_day_on_year y m dd Hy Hm Hd "-" ND).
    + apply strptime_of_mismatch.
      apply (fields_day_on_year y m dd Hy Hm Hd "/" NS).
    + apply strptime_of_mismatch.
      apply (fields_day_on_year y m dd Hy Hm Hd "-" ND).
    + apply strptime_of_mismatch.
      apply (fields_day_on_year y m dd Hy Hm Hd "/" NS).
    + apply (strptime_invalid _ _ _ (fields_Ymd y m dd Hy Hm Hd "-" ND init) Hv).
Qed.

Lemma nonexistent_day_left_to_fallback_witness :
  In fmt_dmY_dash formats
  /\ nonexistent_day fmt_dmY_dash {| year := 2023; month := 2; day := 31 |} = true
  /\ render fmt_dmY_dash {| year := 2023; month := 2; day := 31 |}
     = L "31-02-2023"
  /\ try_formats formats
       (render fmt_dmY_dash {| year := 2023; month := 2; day := 31 |}) = None
  /\ parse_date_try (fun _ => Ok None)
       (render fmt_dmY_dash {| year := 2023; month := 2; day := 31 |})
     = Ok (try_except (Ok None) None).
Proof.
  assert (Hin : In fmt_dmY_dash formats) by (left; reflexivity).
  assert (Hne : nonexistent_day fmt_dmY_dash
                  {| year := 2023; month := 2; day := 31 |} = true)
    by (vm_compute; reflexivity).
  split; [exact Hin|]. split; [exact Hne|]. split; [vm_compute; reflexivity|].
  exact (nonexistent_day_left_to_fallback (fun _ => Ok None)
           fmt_dmY_dash {| year := 2023; month := 2; day := 31 |} Hin Hne).
Defined.

(** ** Account information *)

Lemma ustr_eqb_eq (a b : ustr) : ustr_eqb a b = true <-> a = b.
Proof.
  revert b. induction a as [|x a IH]; intros [|y b]; cbn [ustr_eqb];
    try (split; [discriminate | discriminate]); [now split|].
  rewrite andb_true_iff, N.eqb_eq, IH. split.
  - intros [-> ->]. reflexivity.
  - intros [= -> ->]. now split.
Qed.

Lemma in_product (m : ustr) (ls : list (list N)) :
  Forall2 (fun c l => In c l) m ls -> In m (product ls).
Proof.
  intros H. induction H as [|c l m ls Hc H IH]; [now left|].
  cbn [product]. apply in_flat_map. exists c. split; [exact Hc|].
  now apply in_map.
Qed.

Lemma ci_match_in (p : ascii) (c : N) :
  ci_match p c = true <-> In c (variants p).
Proof.
  unfold ci_match. rewrite existsb_exists. split.
  - intros (x & Hx & E). apply N.eqb_eq in E. now subst.
  - intros H. exists c. split; [exact H | apply N.eqb_refl].
Qed.

Lemma ci_equal_wide_product (m : ustr) (w : str) :
  ci_equal_wide m w -> In m (product (map variants w)).
Proof.
  intros H. apply in_product.
  induction H as [|c p m w E H IH]; cbn [map]; constructor; [|exact IH].
  now apply ci_match_in.
Qed.

Lemma ci_prefix_wide_iff (w : str) (s m r : ustr) :
  ci_prefix_wide w s = Some (m, r) <-> s = m ++ r /\ ci_equal_wide m w.
Proof.
  split.
  - revert s m r. induction w as [|p w IH]; intros s m r; cbn [ci_prefix_wide].
    + intros [= <- <-]. split; [reflexivity | constructor].
    + destruct s as [|c s]; [discriminate|].
      destruct (ci_match p c) eqn:E; [|discriminate].
      destruct (ci_prefix_wide w s) as [[m' r']|] eqn:P; [|discriminate].
      intros [= <- <-]. destruct (IH _ _ _ P) as [-> H].
      split; [reflexivity | now constructor].
  - intros [-> H]. induction H as [|c p m w E H IH]; cbn [ci_prefix_wide app];
      [reflexivity|].
    now rewrite E, IH.
Qed.

Lemma lower_word (p : ascii) : is_word (lower p) = is_word p.
Proof. each_char p. Qed.

Lemma upper_word (p : ascii) : is_word (upper p) = is_word p.
Proof. each_char p. Qed.

Lemma word_code_of_char (wide_word : N -> bool) (p : ascii) :
  word_code wide_word (code p) = is_word p.
Proof.
  unfold word_code, code. rewrite ascii_N_embedding.
  pose proof (N_ascii_bounded p) as B. apply N.ltb_lt in B. now rewrite B.
Qed.

Lemma variants_word (wide_word : N -> bool) (p : ascii) (c : N) :
  is_word p = true -> In c (variants p) -> word_code wide_word c = true.
Proof.
  intros W H. unfold variants in H.
  destruct H as [<-|[<-|H]].
  - now rewrite word_code_of_char, lower_word.
  - now rewrite word_code_of_char, upper_word.
  - destruct (Ascii.eqb (lower p) "i");
      [|destruct (Ascii.eqb (lower p) "s");
        [|destruct (Ascii.eqb (lower p) "k")]];
      cbn [In] in H; intuition (subst; reflexivity).
Qed.

Lemma forall2_rev {A B} (R : A -> B -> Prop) (l : list A) (l' : list B) :
  Forall2 R l l' -> Forall2 R (rev l) (rev l').
Proof.
  intros H. induction H as [|a b l l' Hab H IH]; [constructor|].
  cbn [rev]. apply Forall2_app; [exact IH | now repeat constructor].
Qed.

Lemma ci_equal_wide_hd (wide_word : N -> bool) (m : ustr) (w : str) :
  ci_equal_wide m w -> opt_word (hd_error w) = true ->
  opt_word_code wide_word (hd_error m) = true.
Proof.
  intros H W. destruct H as [|c p m w E H]; [discriminate|].
  cbn in *. apply (variants_word wide_word p c W). now apply ci_match_in.
Qed.

Lemma wordy_wide (wide_word : N -> bool) (m : ustr) (w : str) :
  wordy w = true -> ci_equal_wide m w ->
  opt_word_code wide_word (hd_error m) = true
  /\ opt_word_code wide_word (last_code m) = true
  /\ forall prev, code_before prev m = last_code m.
Proof.
  unfold wordy. intros W H. apply andb_true_iff in W. destruct W as [W1 W2].
  assert (Hl : opt_word_code wide_word (last_code m) = true).
  { apply (ci_equal_wide_hd wide_word (rev m) (rev w)); [|exact W2].
    now apply forall2_rev. }
  repeat split; [now apply (ci_equal_wide_hd wide_word m w) | exact Hl |].
  intros prev. unfold code_before.
  destruct (last_code m); [reflexivity | discriminate].
Qed.

Lemma first_some_in {A B} (f : A -> option B) (l : list A) (b : B) :
  first_some f l = Some b -> exists x, In x l /\ f x = Some b.
Proof.
  induction l as [|a l IH]; cbn [first_some]; [discriminate|].
  destruct (f a) as [b'|] eqn:E.
  - intros [= <-]. exists a. split; [now left | exact E].
  - intros H. destruct (IH H) as (x & Hx & Fx). exists x. split; [now right | exact Fx].
Qed.

Lemma first_some_found {A B} (f : A -> option B) (l : list A) (x : A) :
  In x l -> f x <> None -> first_some f l <> None.
Proof.
  induction l as [|a l IH]; cbn [first_some]; [contradiction|].
  intros [->|H] F.
  - destruct (f x); [discriminate | contradiction].
  - destruct (f a); [discriminate | now apply IH].
Qed.

Section AccountTypeFacts.

Variable wide_word : N -> bool.

Lemma words_group_sound (ws : list str) (prev : option N) (s m : ustr) :
  words_group wide_word ws prev s = Some m ->
  exists w post, In w ws /\ s = m ++ post /\ ci_equal_wide m w.
Proof.
  unfold words_group.
  destruct (boundary_wide wide_word prev (hd_error s)); [|discriminate].
  intros H. apply first_some_in in H. destruct H as (w & Hin & H).
  destruct (ci_prefix_wide w s) as [[m' r]|] eqn:P; [|discriminate].
  destruct (boundary_wide wide_word (code_before prev m') (hd_error r));
    [|discriminate].
  injection H as <-. apply ci_prefix_wide_iff in P. destruct P as [-> Hm].
  now exists w, r.
Qed.

Lemma words_group_iff (ws : list str) (prev : option N) (s : ustr) :
  forallb wordy ws = true ->
  words_group wide_word ws prev s <> None <->
  exists w m post,
    In w ws /\ s = m ++ post /\ ci_equal_wide m w
    /\ opt_word_code wide_word prev = false
    /\ opt_word_code wide_word (hd_error post) = false.
Proof.
  intros W. rewrite forallb_forall in W. split.
  - intros H.
    destruct (words_group wide_word ws prev s) as [m|] eqn:G; [|contradiction].
    clear H. unfold words_group in G.
    destruct (boundary_wide wide_word prev (hd_error s)) eqn:B; [|discriminate].
    apply first_some_in in G. destruct G as (w & Hin & G).
    destruct (ci_prefix_wide w s) as [[m' r]|] eqn:P; [|discriminate].
    destruct (boundary_wide wide_word (code_before prev m') (hd_error r))
      eqn:B2; [|discriminate].
    injection G as <-. apply ci_prefix_wide_iff in P. destruct P as [-> Hm].
    destruct (wordy_wide wide_word m' w (W w Hin) Hm) as (Hh & Hl & Hcb).
    exists w, m', r. repeat split; try assumption.
    + assert (E : hd_error (m' ++ r) = hd_error m').
      { destruct m'; [discriminate | reflexivity]. }
      unfold boundary_wide in B. rewrite E, Hh in B.
      destruct (opt_word_code wide_word prev); [discriminate | reflexivity].
    + unfold boundary_wide in B2. rewrite Hcb, Hl in B2.
      destruct (opt_word_code wide_word (hd_error r));
        [discriminate | reflexivity].
  - intros (w & m & post & Hin & -> & Hm & Hp & Hn).
    destruct (wordy_wide wide_word m w (W w Hin) Hm) as (Hh & Hl & Hcb).
    unfold words_group.
    assert (E : hd_error (m ++ post) = hd_error m).
    { destruct m; [discriminate | reflexivity]. }
    unfold boundary_wide at 1. rewrite E, Hh, Hp. cbn [xorb].
    apply (first_some_found _ ws w Hin).
    rewrite (proj2 (ci_prefix_wide_iff w (m ++ post) m post)) by now split.
    unfold boundary_wide. rewrite Hcb, Hl, Hn. discriminate.
Qed.

Lemma code_before_cons (prev : option N) (c : N) (pre : ustr) :
  code_before prev (c :: pre) = code_before (Some c) pre.
Proof.
  unfold code_before, last_code. cbn [rev].
  destruct (rev pre) as [|x r]; reflexivity.
Qed.

Lemma search_group_sound (ws : list str) (s : ustr) (prev : option N)
    (m : ustr) :
  search_group (words_group wide_word ws) prev s = Some m ->
  exists w pre post, In w ws /\ s = pre ++ m ++ post /\ ci_equal_wide m w.
Proof.
  revert prev. induction s as [|c s IH]; intros prev; cbn [search_group].
  - destruct (words_group wide_word ws prev []) as [m'|] eqn:G; [|discriminate].
    intros [= <-].
    destruct (words_group_sound ws prev [] m' G) as (w & post & Hin & E & Hm).
    now exists w, [], post.
  - destruct (words_group wide_word ws prev (c :: s)) as [m'|] eqn:G.
    + intros [= <-].
      destruct (words_group_sound ws prev _ m' G) as (w & post & Hin & E & Hm).
      now exists w, [], post.
    + intros H. destruct (IH _ H) as (w & pre & post & Hin & -> & Hm).
      now exists w, (c :: pre), post.
Qed.

Lemma search_group_iff (ws : list str) (s : ustr) (prev : option N) :
  forallb wordy ws = true ->
  search_group (words_group wide_word ws) prev s <> None <->
  exists w pre m post,
    In w ws /\ s = pre ++ m ++ post /\ ci_equal_wide m w
    /\ opt_word_code wide_word (code_before prev pre) = false
    /\ opt_word_code wide_word (hd_error post) = false.
Proof.
  intros W. revert prev. induction s as [|c s IH]; intros prev.
  - cbn [search_group].
    assert (K : match words_group wide_word ws prev [] with
                | Some m => Some m
                | None => None
                end <> None <-> words_group wide_word ws prev [] <> None)
      by (destruct (words_group wide_word ws prev []); tauto).
    rewrite K, (words_group_iff ws prev [] W). split.
    + intros (w & m & post & H). exists w, [], m, post. exact H.
    + intros (w & pre & m & post & Hin & E & H).
      destruct pre; [|discriminate]. exists w, m, post. split; [exact Hin|].
      split; [exact E | exact H].
  - cbn [search_group].
    assert (K : match words_group wide_word ws prev (c :: s) with
                | Some m => Some m
                | None => search_group (words_group wide_word ws) (Some c) s
                end <> None <->
                words_group wide_word ws prev (c :: s) <> None
                \/ search_group (words_group wide_word ws) (Some c) s <> None).
    { destruct (words_group wide_word ws prev (c :: s)).
      - split; [intros _; left; discriminate | discriminate].
      - split; [now right | intros [H|H]; [contradiction | exact H]]. }
    rewrite K, (words_group_iff ws prev (c :: s) W), IH. split.
    + intros [(w & m & post & H) | (w & pre & m & post & Hin & -> & Hm & Hp & Hn)].
      * exists w, [], m, post. exact H.
      * exists w, (c :: pre), m, post. rewrite code_before_cons.
        now repeat split.
    + intros (w & pre & m & post & Hin & E & Hm & Hp & Hn).
      destruct pre as [|c' pre].
      * left. exists w, m, post. now repeat split.
      * right. cbn [app] in E. injection E as <- ->.
        rewrite code_before_cons in Hp.
        exists w, pre, m, post. now repeat split.
Qed.

End AccountTypeFacts.

Lemma title_in_range :
  forallb (fun w =>
             forallb (fun m => existsb (ustr_eqb (title m)) account_type_range)
                     (product (map variants w)))
          account_type_words = true.
Proof. vm_compute. reflexivity. Qed.

Lemma title_plain :
  forallb (fun w =>
             forallb (fun m => existsb dotted_or_long m
                               || ustr_eqb (title m) (U w))
                     (product (map variants w)))
          account_type_words = true.
Proof. vm_compute. reflexivity. Qed.

(** X14.  [account_type] is null exactly when the text contains neither
    [Savings] nor [Current] as a whole word under [re.I]; otherwise it is
    the matched text in title case, which is one of seven texts: [Current],
    or [Savings] with [i], [i] and U+0307, or U+0131 in fourth place and
    [s] or U+017F at the end.  On a text without U+0130, U+0131 and
    U+017F it is null, [Savings] or [Current]; from
    [sav(U+0131)ngs account] it is [Sav(U+0131)ngs]. *)
Theorem account_type_values (wide_word : N -> bool) (text : ustr) :
  (account_type wide_word text = None <->
   ~ exists w, In w [L "Savings"; L "Current"]
               /\ whole_word_match_wide wide_word w text)
  /\ (account_type wide_word text = None
      \/ exists v, In v account_type_range
                   /\ account_type wide_word text = Some v)
  /\ ((forall c, In c text -> dotted_or_long c = false) ->
      account_type wide_word text = None
      \/ account_type wide_word text = Some (U (L "Savings"))
      \/ account_type wide_word text = Some (U (L "Current")))
  /\ account_type wide_word
       ([115; 97; 118; 305; 110; 103; 115; 32] ++ U (L "account"))%N
     = Some [83; 97; 118; 305; 110; 103; 115]%N.
Proof.
  unfold account_type. split; [|split; [|split]].
  - assert (E : (exists w, In w [L "Savings"; L "Current"]
                           /\ whole_word_match_wide wide_word w text)
                <-> search_group (words_group wide_word account_type_words)
                      None text <> None).
    { rewrite (search_group_iff wide_word account_type_words text None eq_refl).
      unfold whole_word_match_wide. split.
      - intros (w & Hin & pre & m & post & E & Hm & Hp & Hn).
        exists w, pre, m, post. repeat split; try assumption.
        unfold code_before. destruct (last_code pre); [exact Hp | reflexivity].
      - intros (w & pre & m & post & Hin & E & Hm & Hp & Hn).
        exists w. split; [exact Hin|]. exists pre, m, post.
        repeat split; try assumption.
        unfold code_before in Hp.
        destruct (last_code pre); [exact Hp | reflexivity]. }
    rewrite E.
    destruct (search_group (words_group wide_word account_type_words) None text);
      cbn [option_map]; split; try congruence.
    intros H. exfalso. apply H. discriminate.
  - destruct (search_group (words_group wide_word account_type_words) None text)
      as [m|] eqn:G; [|now left].
    right. cbn [option_map]. exists (title m). split; [|reflexivity].
    destruct (search_group_sound wide_word _ _ _ _ G)
      as (w & pre & post & Hin & _ & Hm).
    pose proof title_in_range as R. rewrite forallb_forall in R.
    specialize (R w Hin). rewrite forallb_forall in R.
    specialize (R m (ci_equal_wide_product m w Hm)).
    apply existsb_exists in R. destruct R as (v & Hv & E).
    apply ustr_eqb_eq in E. now rewrite E.
  - intros P.
    destruct (search_group (words_group wide_word account_type_words) None text)
      as [m|] eqn:G; [|now left].
    right. cbn [option_map].
    destruct (search_group_sound wide_word _ _ _ _ G)
      as (w & pre & post & Hin & E & Hm).
    pose proof title_plain as R. rewrite forallb_forall in R.
    specialize (R w Hin). rewrite forallb_forall in R.
    specialize (R m (ci_equal_wide_product m w Hm)).
    apply orb_true_iff in R. destruct R as [R|R].
    + exfalso. apply existsb_exists in R. destruct R as (c & Hc & Dc).
      rewrite (P c) in Dc; [discriminate|].
      rewrite E. apply in_or_app. right. apply in_or_app. now left.
    + apply ustr_eqb_eq in R. rewrite R.
      destruct Hin as [<-|[<-|[]]]; [left | right]; reflexivity.
  - reflexivity.
Qed.

Lemma splitlines_from_first (s cur : str) :
  cur <> [] \/ s <> [] ->
  exists tl,
    splitlines_from cur s
    = (rev cur ++ take_while (fun c => negb (is_linebreak c)) s) :: tl.
Proof.
  revert cur. induction s as [|c s IH]; intros cur H.
  - destruct H as [H|H]; [|contradiction].
    destruct cur as [|x cur]; [contradiction|].
    exists []. cbn [splitlines_from take_while]. now rewrite app_nil_r.
  - cbn [splitlines_from take_while].
    destruct (is_linebreak c) eqn:B; cbn [negb].
    + eexists. rewrite app_nil_r. reflexivity.
    + destruct (IH (c :: cur)) as [tl E]; [left; discriminate|].
      exists tl. rewrite E. cbn [rev]. now rewrite <- app_assoc.
Qed.

(** X15.  [bank_name] is null exactly when the first page has no text;
    otherwise it is the first physical line of the page, stripped, also
    when that line is blank: a page that starts with an empty line gives
    the empty name, not the next line. *)
Theorem bank_name_first_line (page : str) :
  match page with
  | [] => bank_name page = None
  | _ =>
      bank_name page
      = Some (strip (take_while (fun c => negb (is_linebreak c)) page))
  end.
Proof.
  destruct page as [|c page]; [reflexivity|].
  unfold bank_name, splitlines.
  destruct (splitlines_from_first (c :: page) []) as [tl E];
    [right; discriminate|].
  now rewrite E.
Qed.

(** ** Extraction followed by flagging *)

(** X16.  Without camelot, [main] reaches the flags only when the text
    has an anchor line: then there is one flagged row per anchor line;
    when no line is an anchor, [extract_transactions] returns the frame
    without columns and [flag_transactions] raises on its missing
    [description] column. *)
Theorem main_flags_text_path (obj : Type) (py_str : obj -> result str)
    (to_numeric : option pyfloat -> option f64)
    (read_pdf : result (list (table obj))) (lines : list str) :
  match anchor_dates lines with
  | [] =>
      main_flags obj py_str to_numeric false read_pdf lines
      = Raise OtherError
  | _ =>
      exists rows,
        main_flags obj py_str to_numeric false read_pdf lines = Ok rows
        /\ length rows = length (anchor_dates lines)
  end.
Proof.
  unfold main_flags, extract_transactions, text_strategy, parse_text.
  destruct (run_ok lines ([], None)) as [st R]. rewrite R.
  pose proof (run_dates lines ([], None) st R) as D.
  change (map transaction_date (flush ([], None))) with (@nil str) in D.
  cbn [app] in D. cbn [bind]. rewrite <- D.
  set (recs := flush st).
  destruct recs as [|r recs]; [reflexivity|].
  cbn [map]. unfold frame_of_records. cbn [bind flag_frame].
  eexists. split; [reflexivity|].
  unfold flag_transactions. rewrite !length_map. cbn [length].
  now rewrite length_map.
Qed.

(** ** Dates without leading zeros *)

Lemma non_digit_ranges (x : ascii) :
  is_digit x = false ->
  code_in 48 49 x = false /\ code_in 48 50 x = false /\ code_in 49 57 x = false.
Proof.
  destruct x as [[] [] [] [] [] [] [] []]; intros H; try discriminate H;
    repeat split; reflexivity.
Qed.

Lemma re_d_plain (v : N) (x : ascii) (r : str) :
  (1 <= v <= 31)%N -> is_digit x = false ->
  exists tl, re_d (plain v ++ x :: r) = (v, x :: r) :: tl
             /\ Forall (digit_led (x :: r)) tl.
Proof.
  intros Hv Hx. unfold plain. destruct (v <? 10)%N eqn:E.
  - apply N.ltb_lt in E.
    destruct (non_digit_ranges x Hx) as (X1 & X2 & X3).
    exists []. split; [|constructor].
    enum_N v; cbn [app re_d]; rewrite ?Hx, ?X1, ?X3; reflexivity.
  - exact (re_d_two_digits v (x :: r) Hv).
Qed.

Lemma re_m_plain (v : N) (x : ascii) (r : str) :
  (1 <= v <= 12)%N -> is_digit x = false ->
  exists tl, re_m (plain v ++ x :: r) = (v, x :: r) :: tl
             /\ Forall (digit_led (x :: r)) tl.
Proof.
  intros Hv Hx. unfold plain. destruct (v <? 10)%N eqn:E.
  - apply N.ltb_lt in E.
    destruct (non_digit_ranges x Hx) as (X1 & X2 & X3).
    exists []. split; [|constructor].
    enum_N v; cbn [app re_m]; rewrite ?Hx, ?X2, ?X3; reflexivity.
  - exact (re_m_two_digits v (x :: r) Hv).
Qed.

Lemma re_d_plain_end (v : N) :
  (1 <= v <= 31)%N -> exists tl, re_d (plain v ++ []) = (v, []) :: tl.
Proof.
  intros Hv. unfold plain. destruct (v <? 10)%N eqn:E.
  - apply N.ltb_lt in E. exists []. enum_N v; reflexivity.
  - destruct (re_d_two_digits v [] Hv) as (tl & H & _). now exists tl.
Qed.

Lemma day_then_lit (v : N) (x : ascii) (fmt : list directive) (acc : date)
    (s r : str) :
  is_digit x = false ->
  (exists tl, re_d s = (v, x :: r) :: tl /\ Forall (digit_led (x :: r)) tl) ->
  match_fmt (Dd :: Lit x :: fmt) acc s = match_fmt fmt (with_day acc v) r.
Proof.
  intros Hx (tl & E & Htl). cbn [match_fmt]. rewrite E.
  cbn [first_some fst snd]. rewrite Ascii.eqb_refl.
  destruct (match_fmt fmt (with_day acc v) r) as [z|]; [reflexivity|].
  apply (first_some_digit_led x (x :: r)
           (fun v s => match s with
                       | [] => None
                       | y :: r0 => if Ascii.eqb y x
                                    then match_fmt fmt (with_day acc v) r0
                                    else None
                       end) tl Hx Htl).
  intros v' c s' Hc. now rewrite (digit_not_sep c x Hc Hx).
Qed.

Lemma day_then_wrong_lit (v : N) (x x' : ascii) (fmt : list directive)
    (acc : date) (s r : str) :
  is_digit x = false -> Ascii.eqb x' x = false ->
  (exists tl, re_d s = (v, x' :: r) :: tl /\ Forall (digit_led (x' :: r)) tl) ->
  match_fmt (Dd :: Lit x :: fmt) acc s = None.
Proof.
  intros Hx Hne (tl & E & Htl). cbn [match_fmt]. rewrite E.
  cbn [first_some fst snd]. rewrite Hne.
  apply (first_some_digit_led x (x' :: r)
           (fun v s => match s with
                       | [] => None
                       | y :: r0 => if Ascii.eqb y x
                                    then match_fmt fmt (with_day acc v) r0
                                    else None
                       end) tl Hx Htl).
  intros v' c s' Hc. now rewrite (digit_not_sep c x Hc Hx).
Qed.

Lemma month_then_lit (v : N) (x : ascii) (fmt : list directive) (acc : date)
    (s r : str) :
  is_digit x = false ->
  (exists tl, re_m s = (v, x :: r) :: tl /\ Forall (digit_led (x :: r)) tl) ->
  match_fmt (Dm :: Lit x :: fmt) acc s = match_fmt fmt (with_month acc v) r.
Proof.
  intros Hx (tl & E & Htl). cbn [match_fmt]. rewrite E.
  cbn [first_some fst snd]. rewrite Ascii.eqb_refl.
  destruct (match_fmt fmt (with_month acc v) r) as [z|]; [reflexivity|].
  apply (first_some_digit_led x (x :: r)
           (fun v s => match s with
                       | [] => None
                       | y :: r0 => if Ascii.eqb y x
                                    then match_fmt fmt (with_month acc v) r0
                                    else None
                       end) tl Hx Htl).
  intros v' c s' Hc. now rewrite (digit_not_sep c x Hc Hx).
Qed.

Lemma plain_shape (v : N) :
  (v < 100)%N ->
  exists a t, plain v = a :: t /\ forallb is_digit (a :: t) = true.
Proof.
  intros H. unfold plain. destruct (v <? 10)%N eqn:E.
  - apply N.ltb_lt in E. destruct (digit_char_digit v E) as [D _].
    exists (digit_char v), []. split; [reflexivity|]. cbn. now rewrite D.
  - destruct (two_digits_digits v H) as (a & b & -> & Ha & Hb & _).
    exists a, [b]. split; [reflexivity|]. cbn. now rewrite Ha, Hb.
Qed.

Lemma strip_no_space_ends (s : str) (a b : ascii) :
  hd_error s = Some a -> last_char s = Some b ->
  is_space a = false -> is_space b = false -> strip s = s.
Proof.
  intros Hh Hl Ha Hb. unfold strip, lstrip, rstrip.
  destruct s as [|c s]; [discriminate|]. cbn [hd_error] in Hh.
  injection Hh as ->. cbn [drop_while]. rewrite Ha.
  unfold last_char in Hl.
  destruct (rev (a :: s)) as [|z t] eqn:R; [discriminate|].
  cbn [hd_error] in Hl. injection Hl as ->.
  cbn [drop_while]. rewrite Hb. rewrite <- R. apply rev_involutive.
Qed.

Lemma last_char_app (s t : str) :
  t <> [] -> last_char (s ++ t) = last_char t.
Proof.
  intros H. unfold last_char. rewrite rev_app_distr.
  destruct (rev t) as [|z u] eqn:R; [|reflexivity].
  exfalso. apply H. rewrite <- (rev_involutive t), R. reflexivity.
Qed.

Lemma last_char_cons_ne (c : ascii) (t : str) :
  t <> [] -> last_char (c :: t) = last_char t.
Proof. intros H. exact (last_char_app [c] t H). Qed.

Ltac nonempty :=
  first [ assumption
        | discriminate
        | let E := fresh in
          intro E; apply app_eq_nil in E; destruct E; discriminate ].

Section PlainRoundTrip.

Variables (y m dd : N).
Hypothesis Hy : (1 <= y <= 9999)%N.
Hypothesis Hm : (1 <= m <= 12)%N.
Hypothesis Hd : (1 <= dd <= 31)%N.

Let d : date := {| year := y; month := m; day := dd |}.

Variable x : ascii.
Hypothesis Hx : is_digit x = false.

Lemma plain_dmY (acc : date) :
  match_fmt [Dd; Lit x; Dm; Lit x; DY] acc
    (render_plain [Dd; Lit x; Dm; Lit x; DY] d)
  = Some ({| year := y; month := m; day := dd |}, []).
Proof using All.
  cbn [render_plain concat map render_plain_directive app year month day d].
  rewrite (day_then_lit dd x _ acc _ _ Hx (re_d_plain dd x _ Hd Hx)).
  rewrite (month_then_lit m x _ _ _ _ Hx (re_m_plain m x _ Hm Hx)).
  rewrite match_year by lia. reflexivity.
Qed.

Lemma plain_dmy (acc : date) :
  (1969 <= y <= 2068)%N ->
  match_fmt [Dd; Lit x; Dm; Lit x; Dy] acc
    (render_plain [Dd; Lit x; Dm; Lit x; Dy] d)
  = Some ({| year := y; month := m; day := dd |}, []).
Proof using All.
  intros Hw.
  cbn [render_plain concat map render_plain_directive app year month day d].
  rewrite (day_then_lit dd x _ acc _ _ Hx (re_d_plain dd x _ Hd Hx)).
  rewrite (month_then_lit m x _ _ _ _ Hx (re_m_plain m x _ Hm Hx)).
  cbn [match_fmt]. rewrite re_y_two_digits by lia. reflexivity.
Qed.

Lemma plain_Ymd (acc : date) :
  match_fmt [DY; Lit x; Dm; Lit x; Dd] acc
    (render_plain [DY; Lit x; Dm; Lit x; Dd] d)
  = Some ({| year := y; month := m; day := dd |}, []).
Proof using All.
  cbn [render_plain concat map render_plain_directive app year month day d].
  rewrite match_year by lia. rewrite match_lit.
  rewrite (month_then_lit m x _ _ _ _ Hx (re_m_plain m x _ Hm Hx)).
  cbn [match_fmt].
  destruct (re_d_plain_end dd Hd) as (tl & ->). reflexivity.
Qed.

Lemma plain_Y_on_y (acc : date) :
  match_fmt [Dd; Lit x; Dm; Lit x; DY] acc
    (render_plain [Dd; Lit x; Dm; Lit x; Dy] d) = None.
Proof using All.
  cbn [render_plain concat map render_plain_directive app year month day d].
  rewrite (day_then_lit dd x _ acc _ _ Hx (re_d_plain dd x _ Hd Hx)).
  rewrite (month_then_lit m x _ _ _ _ Hx (re_m_plain m x _ Hm Hx)).
  reflexivity.
Qed.

Lemma plain_separator (x' : ascii) (acc : date) (f g : list directive) :
  is_digit x' = false -> Ascii.eqb x' x = false ->
  match_fmt (Dd :: Lit x :: f) acc (render_plain (Dd :: Lit x' :: g) d) = None.
Proof using All.
  intros Hx' Hne.
  cbn [render_plain concat map render_plain_directive app year month day d].
  exact (day_then_wrong_lit dd x x' f acc _ _ Hx Hne (re_d_plain dd x' _ Hd Hx')).
Qed.

Lemma plain_day_on_year (acc : date) (f g : list directive) :
  match_fmt (Dd :: Lit x :: f) acc (render_plain (DY :: g) d) = None.
Proof using All.
  cbn [render_plain concat map render_plain_directive app year month day d].
  unfold four_digits.
  assert (Hh : (y / 100 < 100)%N) by (apply N.Div0.div_lt_upper_bound; lia).
  assert (Hl : (y mod 100 < 100)%N) by (apply N.mod_lt; lia).
  destruct (two_digits_digits _ Hh) as (a & b & -> & Ha & Hb & _).
  destruct (two_digits_digits _ Hl) as (c & e & -> & Hc & He & _).
  cbn [app]. now apply match_day_on_digits.
Qed.

Lemma strip_render_plain (f : list directive) :
  In f formats -> strip (render_plain f d) = render_plain f d.
Proof using All.
  assert (Hh : (y / 100 < 100)%N) by (apply N.Div0.div_lt_upper_bound; lia).
  assert (Hl : (y mod 100 < 100)%N) by (apply N.mod_lt; lia).
  assert (Hm' : (m < 100)%N) by lia.
  assert (Hd' : (dd < 100)%N) by lia.
  destruct (two_digits_digits _ Hh) as (a & b & Eh & Ha & Hb & _).
  destruct (two_digits_digits _ Hl) as (c & e & El & Hc & He & _).
  destruct (plain_shape m Hm') as (m1 & mt & Em & Hmd).
  destruct (plain_shape dd Hd') as (d1 & dt & Ed & Hdd).
  assert (Ld : exists z, last_char (plain dd) = Some z /\ is_digit z = true).
  { rewrite Ed. clear Ed. revert d1 Hdd.
    induction dt as [|q dt IH]; intros d1 Hdd.
    - exists d1. cbn in *. rewrite andb_true_r in Hdd. now split.
    - rewrite last_char_cons. cbn [forallb] in Hdd.
      apply andb_true_iff in Hdd. destruct Hdd as [_ Hq].
      destruct (IH q Hq) as (z & -> & Hz). now exists z. }
  destruct Ld as (z & Lz & Hz).
  cbn [forallb] in Hdd. apply andb_true_iff in Hdd. destruct Hdd as [Hd1 _].
  assert (Nd : plain dd <> []) by (rewrite Ed; discriminate).
  intros Hin. cbn [formats In] in Hin.
  destruct Hin as [<-|[<-|[<-|[<-|[<-|[]]]]]];
    cbn [render_plain concat map render_plain_directive app year month day d
         fmt_dmY_dash fmt_dmY_slash fmt_dmy_dash fmt_dmy_slash fmt_Ymd_dash];
    unfold four_digits; rewrite ?Eh, ?El, ?app_nil_r.
  1-4: rewrite Ed; cbn [app];
       apply (strip_no_space_ends _ d1 e);
       [reflexivity
       |repeat first [ rewrite last_char_app by nonempty
                     | rewrite last_char_cons_ne by nonempty ]; reflexivity
       |now apply digit_not_space | now apply digit_not_space].
  cbn [app]. apply (strip_no_space_ends _ a z);
    [reflexivity | | now apply digit_not_space | now apply digit_not_space].
  repeat first [ rewrite last_char_app by nonempty
               | rewrite last_char_cons_ne by nonempty ].
  exact Lz.
Qed.

End PlainRoundTrip.

Lemma parse_date_try_first (pd : str -> result (option date)) (s : str)
    (before after : list (list directive)) (f : list directive) (d : date) :
  formats = before ++ f :: after ->
  Forall (fun g => exists e, strptime (strip s) g = Raise e) before ->
  strptime (strip s) f = Ok d ->
  parse_date_try pd s = Ok (Some d).
Proof.
  intros E Hb Hf. unfold parse_date_try.
  now rewrite E, (try_formats_first s before after f d Hb Hf).
Qed.

(** X17.  Leading zeros are optional: a date the format can express is
    also given back when its day and month are written without padding,
    as in [5-1-2023] or [2023-1-5]. *)
Theorem parse_date_without_leading_zeros
    (pd : str -> result (option date)) (f : list directive) (d : date) :
  In f formats -> expressible f d = true ->
  parse_date_try pd (render_plain f d) = Ok (Some d).
Proof.
  intros Hin Hex. destruct d as [y m dd]. unfold expressible in Hex.
  cbn [year month day] in Hex.
  apply andb_true_iff in Hex. destruct Hex as [Hv Hw].
  destruct (valid_date_bounds y m dd Hv) as (Hy & Hm & Hd).
  pose proof not_digit_dash as ND. pose proof not_digit_slash as NS.
  pose proof (strip_render_plain y m dd Hy Hm Hd "-" ND f Hin) as S.
  set (init := {| year := 1900; month := 1; day := 1 |}).
  assert (OK : forall g s,
             match_fmt g init s = Some ({| year := y; month := m; day := dd |}, []) ->
             strptime s g = Ok {| year := y; month := m; day := dd |}).
  { intros g s E. unfold strptime. fold init. rewrite E. cbn [year month day].
    now rewrite Hv. }
  cbn [formats In] in Hin.
  destruct Hin as [<-|[<-|[<-|[<-|[<-|[]]]]]].
  - apply (parse_date_try_first pd _ [] _ fmt_dmY_dash _ eq_refl);
      [constructor|].
    rewrite S. apply OK. apply (plain_dmY y m dd Hy Hm Hd "-" ND).
  - apply (parse_date_try_first pd _ [fmt_dmY_dash] _ fmt_dmY_slash _ eq_refl);
      rewrite S.
    + repeat constructor. eexists. apply strptime_of_mismatch.
      now apply (plain_separator y m dd Hy Hm Hd "-" ND "/").
    + apply OK. apply (plain_dmY y m dd Hy Hm Hd "/" NS).
  - cbn [existsb fmt_dmy_dash is_Dy orb] in Hw.
    apply andb_true_iff in Hw. destruct Hw as [W1 W2].
    apply N.leb_le in W1. apply N.leb_le in W2.
    apply (parse_date_try_first pd _ [fmt_dmY_dash; fmt_dmY_slash] _
             fmt_dmy_dash _ eq_refl); rewrite S.
    + repeat constructor; eexists; apply strptime_of_mismatch.
      * apply (plain_Y_on_y y m dd Hy Hm Hd "-" ND).
      * now apply (plain_separator y m dd Hy Hm Hd "/" NS "-").
    + apply OK. apply (plain_dmy y m dd Hy Hm Hd "-" ND). lia.
  - cbn [existsb fmt_dmy_slash is_Dy orb] in Hw.
    apply andb_true_iff in Hw. destruct Hw as [W1 W2].
    apply N.leb_le in W1. apply N.leb_le in W2.
    apply (parse_date_try_first pd _
             [fmt_dmY_dash; fmt_dmY_slash; fmt_dmy_dash] _
             fmt_dmy_slash _ eq_refl); rewrite S.
    + repeat constructor; eexists; apply strptime_of_mismatch.
      * now apply (plain_separator y m dd Hy Hm Hd "-" ND "/").
      * apply (plain_Y_on_y y m dd Hy Hm Hd "/" NS).
      * now apply (plain_separator y m dd Hy Hm Hd "-" ND "/").
    + apply OK. apply (plain_dmy y m dd Hy Hm Hd "/" NS). lia.
  - apply (parse_date_try_first pd _
             [fmt_dmY_dash; fmt_dmY_slash; fmt_dmy_dash; fmt_dmy_slash] _
             fmt_Ymd_dash _ eq_refl); rewrite S.
    + repeat constructor; eexists; apply strptime_of_mismatch.
      * apply (plain_day_on_year y m dd Hy Hm Hd "-" ND).
      * apply (plain_day_on_year y m dd Hy Hm Hd "/" NS).
      * apply (plain_day_on_year y m dd Hy Hm Hd "-" ND).
      * apply (plain_day_on_year y m dd Hy Hm Hd "/" NS).
    + apply OK. apply (plain_Ymd y m dd Hy Hm Hd "-" ND).
Qed.

Lemma parse_date_without_leading_zeros_witness :
  In fmt_dmY_dash formats
  /\ expressible fmt_dmY_dash {| year := 2023; month := 1; day := 5 |} = true
  /\ render_plain fmt_dmY_dash {| year := 2023; month := 1; day := 5 |}
     = L "5-1-2023"
  /\ parse_date_try (fun _ => Raise OtherError)
       (render_plain fmt_dmY_dash {| year := 2023; month := 1; day := 5 |})
     = Ok (Some {| year := 2023; month := 1; day := 5 |}).
Proof.
  assert (Hin : In fmt_dmY_dash formats) by (left; reflexivity).
  assert (Hex : expressible fmt_dmY_dash
                  {| year := 2023; month := 1; day := 5 |} = true)
    by (vm_compute; reflexivity).
  split; [exact Hin|]. split; [exact Hex|]. split; [vm_compute; reflexivity|].
  exact (parse_date_without_leading_zeros (fun _ => Raise OtherError)
           fmt_dmY_dash {| year := 2023; month := 1; day := 5 |} Hin Hex).
Defined.

(** ** Amounts of an anchor line taken from the text after the date *)

Lemma space_not_comma (c : ascii) : is_space c = true -> Ascii.eqb c "," = false.
Proof. each_char c. Qed.

Lemma space_not_dot (c : ascii) : is_space c = true -> is_dot c = false.
Proof. each_char c. Qed.

Lemma take_digits_app (k : nat) (s t : str) (c : ascii) :
  is_digit c = false -> take_digits k (s ++ c :: t) = take_digits k s.
Proof.
  intros H. revert s. induction k as [|k IH]; intros [|x s]; cbn [app take_digits];
    try reflexivity.
  - now rewrite H.
  - destruct (is_digit x); [now rewrite IH | reflexivity].
Qed.

Lemma take_digits_length (k : nat) (s : str) :
  length (take_digits k s) <= length s.
Proof.
  revert s. induction k as [|k IH]; intros [|x s]; cbn [take_digits length]; try lia.
  destruct (is_digit x); cbn [length]; [specialize (IH s)|]; lia.
Qed.

Lemma thousands_app (s t : str) (c : ascii) :
  is_space c = true -> thousands (s ++ c :: t) = thousands s.
Proof.
  intros H.
  pose proof (space_not_comma c H) as Hc. pose proof (space_not_digit c H) as Hd.
  assert (G : forall n (u : str), length u <= n ->
              thousands (u ++ c :: t) = thousands u).
  { induction n as [|n IH]; intros u Hn.
    - destruct u; [|simpl in Hn; lia]. cbn [app]. now apply thousands_no_comma.
    - destruct u as [|p [|d1 [|d2 [|d3 u']]]].
      + cbn [app]. now apply thousands_no_comma.
      + cbn [app]. destruct t as [|t1 [|t2 t']]; cbn [thousands]; try reflexivity.
        now rewrite Hd, !andb_false_r.
      + cbn [app]. destruct t as [|t1 t']; cbn [thousands]; try reflexivity.
        now rewrite Hd, !andb_false_r.
      + cbn [app thousands]. now rewrite Hd, !andb_false_r.
      + cbn [app thousands].
        destruct (Ascii.eqb p "," && is_digit d1 && is_digit d2 && is_digit d3);
          [|reflexivity].
        rewrite IH; [reflexivity|]. simpl in Hn. lia. }
  now apply (G (length s)).
Qed.

Lemma thousands_length (s : str) : length (thousands s) <= length s.
Proof.
  assert (G : forall n (u : str), length u <= n ->
              length (thousands u) <= length u).
  { induction n as [|n IH]; intros u Hn.
    - destruct u; [simpl; lia | simpl in Hn; lia].
    - destruct u as [|p [|d1 [|d2 [|d3 u']]]]; cbn [thousands length]; try lia.
      destruct (Ascii.eqb p "," && is_digit d1 && is_digit d2 && is_digit d3);
        cbn [length]; [|lia].
      specialize (IH u'). simpl in Hn. lia. }
  now apply (G (length s)).
Qed.

Lemma take_while_app_stop (p : ascii -> bool) (s t : str) (c : ascii) :
  p c = false -> take_while p (s ++ c :: t) = take_while p s.
Proof.
  intros H. induction s as [|x s IH]; cbn [app take_while].
  - now rewrite H.
  - destruct (p x); [now rewrite IH | reflexivity].
Qed.

Lemma fraction_app (s t : str) (c : ascii) :
  is_space c = true -> fraction (s ++ c :: t) = fraction s.
Proof.
  intros H.
  pose proof (space_not_dot c H) as Hc. pose proof (space_not_digit c H) as Hd.
  destruct s as [|p [|q s']].
  - cbn [app]. now apply fraction_no_dot.
  - cbn [app fraction]. now rewrite Hd, andb_false_r.
  - cbn [app fraction]. destruct (is_dot p && is_digit q); [|reflexivity].
    now rewrite (take_while_app_stop is_digit s' t c Hd).
Qed.

Lemma skipn_app_le {A} (n : nat) (s t : list A) :
  n <= length s -> skipn n (s ++ t) = skipn n s ++ t.
Proof.
  intros H. rewrite skipn_app.
  replace (n - length s) with 0 by lia. reflexivity.
Qed.

(** White space ends a token: what follows it plays no part. *)
Lemma amount_at_app (s t : str) (c : ascii) :
  is_space c = true -> amount_at (s ++ c :: t) = amount_at s.
Proof.
  intros H. unfold amount_at.
  rewrite (take_digits_app 3 s t c (space_not_digit c H)).
  destruct (take_digits 3 s) as [|x a] eqn:E; [reflexivity|].
  pose proof (take_digits_length 3 s) as La. rewrite E in La.
  rewrite (skipn_app_le _ s (c :: t) La).
  set (s1 := skipn (length (x :: a)) s).
  rewrite (thousands_app s1 t c H).
  rewrite (skipn_app_le _ s1 (c :: t) (thousands_length s1)).
  now rewrite (fraction_app _ t c H).
Qed.

Lemma amount_at_length (s tok : str) :
  amount_at s = Some tok -> 1 <= length tok <= length s.
Proof.
  unfold amount_at.
  destruct (take_digits 3 s) as [|x a] eqn:E; [discriminate|].
  pose proof (take_digits_length 3 s) as La. rewrite E in La.
  set (s1 := skipn (length (x :: a)) s).
  pose proof (thousands_length s1) as Lb.
  set (s2 := skipn (length (thousands s1)) s1).
  assert (Lc : length (fraction s2) <= length s2).
  { destruct s2 as [|p [|q s']]; cbn [fraction length]; try lia.
    destruct (is_dot p && is_digit q); cbn [length]; [|lia].
    pose proof (take_drop_while is_digit s') as [Es _].
    apply (f_equal (@length ascii)) in Es. rewrite length_app in Es. lia. }
  assert (L1 : length s1 = length s - length (x :: a))
    by (subst s1; apply length_skipn).
  assert (L2 : length s2 = length s1 - length (thousands s1))
    by (subst s2; apply length_skipn).
  intros T.
  assert (T' : tok = (x :: a) ++ thousands s1 ++ fraction s2) by congruence.
  rewrite T', !length_app. cbn [length] in *. lia.
Qed.

Lemma findall_from_app (s t : str) (c : ascii) (k : nat) :
  is_space c = true -> k <= length s ->
  findall_from k (s ++ c :: t) = findall_from k s ++ findall t.
Proof.
  intros H. revert k. induction s as [|x s IH]; intros k Hk.
  - assert (k = 0) by (simpl in Hk; lia). subst k.
    cbn [app findall_from].
    now rewrite (amount_at_non_digit c t (space_not_digit c H)).
  - cbn [app findall_from]. destruct k as [|k].
    + change (x :: s ++ c :: t) with ((x :: s) ++ c :: t).
      rewrite (amount_at_app (x :: s) t c H).
      destruct (amount_at (x :: s)) as [tok|] eqn:E.
      * pose proof (amount_at_length _ _ E) as L. cbn [length] in L.
        cbn [app]. f_equal. apply IH. lia.
      * apply IH. lia.
    + apply IH. simpl in Hk. lia.
Qed.

Lemma findall_app_space (s t : str) (c : ascii) :
  is_space c = true -> findall (s ++ c :: t) = findall s ++ findall t.
Proof. intros H. apply findall_from_app; [exact H | lia]. Qed.

Lemma neg_index_app_last {A} (pre : list A) (a b c : A) :
  neg_index (pre ++ [a; b; c]) 3 = Ok a
  /\ neg_index (pre ++ [a; b; c]) 2 = Ok b
  /\ neg_index (pre ++ [a; b; c]) 1 = Ok c.
Proof.
  unfold neg_index. rewrite !length_app. cbn [length].
  replace (3 <=? length pre + 3) with true by (symmetry; apply Nat.leb_le; lia).
  replace (2 <=? length pre + 3) with true by (symmetry; apply Nat.leb_le; lia).
  replace (1 <=? length pre + 3) with true by (symmetry; apply Nat.leb_le; lia).
  replace (length pre + 3 - 3) with (length pre + 0) by lia.
  replace (length pre + 3 - 2) with (length pre + 1) by lia.
  replace (length pre + 3 - 1) with (length pre + 2) by lia.
  rewrite !nth_error_app2 by lia.
  replace (length pre + 0 - length pre) with 0 by lia.
  replace (length pre + 1 - length pre) with 1 by lia.
  replace (length pre + 2 - length pre) with 2 by lia.
  repeat split; reflexivity.
Qed.

(** X18.  When white space follows the date of an anchor line and the
    text after it shows three or more amounts, the record's withdrawal,
    deposit and balance are the last three of those amounts, in this
    order: the date plays no part. *)
Theorem amounts_after_date (st : pstate) (line d rest' : str) (c : ascii)
    (pre : list str) (t3 t2 t1 : str) :
  date_rx_match (rstrip line) = Some (d, c :: rest') ->
  is_space c = true ->
  findall (c :: rest') = pre ++ [t3; t2; t1] ->
  step st line
  = Ok (flush st,
        Some {| transaction_date := d;
                description := strip (c :: rest');
                withdrawal_amount := amount_of t3;
                deposit_amount := amount_of t2;
                balance := amount_of t1 |}).
Proof.
  intros Hm Hc Hf. unfold step. rewrite Hm.
  destruct (date_rx_match_spec _ _ _ Hm) as (_ & ws & E & _).
  assert (N : findall (rstrip line) = (findall (ws ++ d) ++ pre) ++ [t3; t2; t1]).
  { rewrite E, app_assoc, (findall_app_space (ws ++ d) rest' c Hc).
    rewrite <- app_assoc. f_equal. rewrite <- Hf.
    unfold findall. cbn [findall_from].
    now rewrite (amount_at_non_digit c rest' (space_not_digit c Hc)). }
  rewrite N. unfold map_amounts.
  replace (3 <=? length ((findall (ws ++ d) ++ pre) ++ [t3; t2; t1])) with true
    by (symmetry; apply Nat.leb_le; rewrite length_app; simpl; lia).
  unfold clean_nth_last.
  destruct (neg_index_app_last (findall (ws ++ d) ++ pre) t3 t2 t1)
    as (-> & -> & ->).
  cbn [bind]. rewrite !clean_amount_value. reflexivity.
Qed.

Lemma amounts_after_date_witness :
  date_rx_match (rstrip (L "01-01-2023 Transfer 100.00 200.00 5,300.00"))
    = Some (L "01-01-2023", " "%char :: L "Transfer 100.00 200.00 5,300.00")
  /\ is_space " " = true
  /\ findall (" "%char :: L "Transfer 100.00 200.00 5,300.00")
     = [] ++ [L "100.00"; L "200.00"; L "5,300.00"]
  /\ step ([], None) (L "01-01-2023 Transfer 100.00 200.00 5,300.00")
     = Ok (flush ([], None),
           Some {| transaction_date := L "01-01-2023";
                   description :=
                     strip (" "%char :: L "Transfer 100.00 200.00 5,300.00");
                   withdrawal_amount := amount_of (L "100.00");
                   deposit_amount := amount_of (L "200.00");
                   balance := amount_of (L "5,300.00") |}).
Proof.
  assert (Hm : date_rx_match
                 (rstrip (L "01-01-2023 Transfer 100.00 200.00 5,300.00"))
               = Some (L "01-01-2023",
                       " "%char :: L "Transfer 100.00 200.00 5,300.00"))
    by (vm_compute; reflexivity).
  assert (Hc : is_space " " = true) by reflexivity.
  assert (Hf : findall (" "%char :: L "Transfer 100.00 200.00 5,300.00")
               = [] ++ [L "100.00"; L "200.00"; L "5,300.00"])
    by (vm_compute; reflexivity).
  split; [exact Hm|]. split; [exact Hc|]. split; [exact Hf|].
  exact (amounts_after_date ([], None) _ _ _ _ _ _ _ _ Hm Hc Hf).
Defined.

Lemma take_digits_bound (k : nat) (s : str) : length (take_digits k s) <= k.
Proof.
  revert s. induction k as [|k IH]; intros [|x s]; cbn [take_digits length]; try lia.
  destruct (is_digit x); cbn [length]; [specialize (IH s)|]; lia.
Qed.

Lemma thousands_head (s : str) :
  thousands s = [] \/ exists t, thousands s = ","%char :: t.
Proof.
  destruct s as [|p [|d1 [|d2 [|d3 u]]]]; try (now left). cbn [thousands].
  destruct (Ascii.eqb p "," && is_digit d1 && is_digit d2 && is_digit d3) eqn:E;
    [|now left].
  do 3 (apply andb_true_iff in E; destruct E as [E _]).
  apply Ascii.eqb_eq in E. subst p. right. eexists. reflexivity.
Qed.

Lemma take_while_digits_stop (a r : str) :
  forallb is_digit a = true ->
  (r = [] \/ exists c t, r = c :: t /\ is_digit c = false) ->
  take_while is_digit (a ++ r) = a.
Proof.
  intros Ha Hr. rewrite (take_while_app is_digit a r Ha).
  destruct Hr as [-> | (c & t & -> & Hc)]; cbn [take_while].
  - apply app_nil_r.
  - rewrite Hc. apply app_nil_r.
Qed.

Lemma amount_at_leading_digits (s tok : str) :
  amount_at s = Some tok -> 1 <= length (take_while is_digit tok) <= 3.
Proof.
  unfold amount_at.
  destruct (take_digits 3 s) as [|x a] eqn:E; [discriminate|].
  pose proof (take_digits_digits 3 s) as Hd. rewrite E in Hd.
  pose proof (take_digits_bound 3 s) as Hb. rewrite E in Hb.
  set (s1 := skipn (length (x :: a)) s).
  set (s2 := skipn (length (thousands s1)) s1).
  intros T.
  assert (T' : tok = (x :: a) ++ thousands s1 ++ fraction s2) by congruence.
  rewrite T', take_while_digits_stop; [cbn [length] in *; lia | exact Hd |].
  destruct (thousands_head s1) as [-> | (t & ->)].
  - cbn [app]. destruct (fraction_shape s2) as [-> | (q & ds & -> & _)].
    + now left.
    + right. eexists. eexists. split; reflexivity.
  - right. eexists. eexists. split; reflexivity.
Qed.

(** X19.  No token of [AMOUNT_RE] starts with more than three digits: an
    amount of a thousand or more that is written without thousands
    separators is never found as one token ([5300.00] is found as [530]
    and [0.00]). *)
Theorem token_has_at_most_three_leading_digits (s tok : str) :
  In tok (findall s) -> 1 <= length (take_while is_digit tok) <= 3.
Proof.
  intros H. apply findall_from_tokens in H. destruct H as [s' H].
  exact (amount_at_leading_digits s' tok H).
Qed.

Lemma token_has_at_most_three_leading_digits_witness :
  findall (L "5300.00") = [L "530"; L "0.00"]
  /\ In (L "530") (findall (L "5300.00"))
  /\ 1 <= length (take_while is_digit (L "530")) <= 3.
Proof.
  assert (H : In (L "530") (findall (L "5300.00")))
    by (vm_compute; left; reflexivity).
  split; [vm_compute; reflexivity|]. split; [exact H|].
  exact (token_has_at_most_three_leading_digits _ _ H).
Defined.

(** ** The two date patterns on the same text *)

Lemma try_year_boundary (n : nat) (s y rest : str) :
  try_year n s = Some (y, rest) ->
  boundary (last_char y) (hd_error rest) = true.
Proof.
  unfold try_year.
  destruct (length (firstn n s) =? n); [|discriminate].
  destruct (forallb is_digit (firstn n s)); [|discriminate].
  cbn [andb].
  destruct (boundary (last_char (firstn n s)) (hd_error (skipn n s))) eqn:B;
    [|discriminate].
  now intros [= <- <-].
Qed.

Lemma year_boundary_after (s y rest : str) :
  year_boundary s = Some (y, rest) ->
  boundary (last_char y) (hd_error rest) = true.
Proof.
  unfold year_boundary.
  destruct (try_year 4 s) as [[y4 r4]|] eqn:E4.
  { intros [= <- <-]. exact (try_year_boundary _ _ _ _ E4). }
  destruct (try_year 3 s) as [[y3 r3]|] eqn:E3.
  { intros [= <- <-]. exact (try_year_boundary _ _ _ _ E3). }
  apply try_year_boundary.
Qed.

Lemma last_digit_is_word (y : str) :
  y <> [] -> forallb is_digit y = true -> opt_word (last_char y) = true.
Proof.
  induction y as [|c y IH]; [contradiction|]. intros _ H.
  cbn [forallb] in H. apply andb_true_iff in H. destruct H as [Hc Hy].
  rewrite last_char_cons. destruct y as [|c' y'].
  - cbn. now apply digit_is_word.
  - specialize (IH ltac:(discriminate) Hy).
    destruct (last_char (c' :: y')); [exact IH | discriminate].
Qed.

Lemma take_digits_all (k : nat) (a r : str) :
  forallb is_digit a = true -> length a <= k ->
  take_digits k (a ++ r) = a ++ take_digits (k - length a) r.
Proof.
  revert k. induction a as [|c a IH]; intros k Ha Hk.
  - cbn [app length]. now rewrite Nat.sub_0_r.
  - cbn [forallb] in Ha. apply andb_true_iff in Ha. destruct Ha as [Hc Ha].
    destruct k as [|k]; [simpl in Hk; lia|].
    cbn [app take_digits length Nat.sub]. rewrite Hc. f_equal.
    apply IH; [exact Ha | simpl in Hk; lia].
Qed.

Lemma take_digits_stop (k : nat) (r : str) :
  opt_word (hd_error r) = false -> take_digits k r = [].
Proof.
  destruct r as [|c r]; destruct k; try reflexivity. cbn [hd_error opt_word].
  intros H. cbn [take_digits].
  destruct (is_digit c) eqn:D; [|reflexivity].
  apply digit_is_word in D. congruence.
Qed.

(** X20.  The two strategies agree on the date of a line: the date text
    the anchor pattern captures at the start of a line is also the first
    match of the date pattern of the table strategy in that line. *)
Theorem anchor_date_is_table_date (line d rest : str) :
  date_rx_match line = Some (d, rest) -> date_search line = Some d.
Proof.
  rewrite <- date_search_lstrip. unfold date_rx_match.
  destruct (lstrip line)
    as [|d1 [|d2 [|s1 [|m1 [|m2 [|s2 tl]]]]]]; try discriminate.
  destruct (is_digit d1 && is_digit d2 && is_sep s1
            && is_digit m1 && is_digit m2 && is_sep s2) eqn:C; [|discriminate].
  destruct (year_boundary tl) as [[y r]|] eqn:Y; [|discriminate].
  intros [= <- <-].
  pose proof (year_boundary_after _ _ _ Y) as B.
  apply year_boundary_spec in Y. destruct Y as (Htl & Hlen & Hdig).
  assert (Hne : y <> []) by (destruct y; [simpl in Hlen; lia | discriminate]).
  unfold boundary in B. rewrite (last_digit_is_word y Hne Hdig) in B.
  assert (Hr : opt_word (hd_error r) = false)
    by (destruct (opt_word (hd_error r)); [discriminate | reflexivity]).
  assert (T : take_digits 4 tl = y).
  { rewrite Htl, (take_digits_all 4 y r Hdig) by lia.
    rewrite (take_digits_stop _ r Hr). apply app_nil_r. }
  cbn [date_search date_at]. rewrite C, T. cbn [andb].
  now rewrite (proj2 (Nat.leb_le 2 (length y)) (proj1 Hlen)).
Qed.

Lemma anchor_date_is_table_date_witness :
  date_rx_match (L "  01/02/23 Rent 500.00") = Some (L "01/02/23", L " Rent 500.00")
  /\ date_search (L "  01/02/23 Rent 500.00") = Some (L "01/02/23").
Proof.
  assert (H : date_rx_match (L "  01/02/23 Rent 500.00")
              = Some (L "01/02/23", L " Rent 500.00")) by (vm_compute; reflexivity).
  split; [exact H|]. exact (anchor_date_is_table_date _ _ _ H).
Defined.
